(** * Transactions of the Helios ledger library: encoding and validation

    A shallow embedding of [src/babbage/tx/Tx.js], [TxOutput.js],
    [NetworkParamsHelper.js] and [PubKeyHash.js], with the properties the
    specification states about them.

    Conventions.
    - A JavaScript [number[]] of bytes is a [list Z]; a [bigint] and an
      integral [number] are a [Z].
    - A method that can [throw] returns a [result]; the constructors of
      [Error] follow the messages of the thrown errors.
    - A method that mutates [this] is a function from the old object to the
      new one.
    - The packages [@helios-lang/cbor], [@helios-lang/codec-utils],
      [@helios-lang/crypto] and [@helios-lang/uplc] are external: the CBOR
      primitives are written out after RFC 8949 (module [Cbor]), the hash
      function and the script machine are parameters. *)

From Stdlib Require Import ZArith Lia Bool.
From stdpp Require Import base option list strings sorting gmap fin_maps.

Local Open Scope Z_scope.

(** A byte array ([number[]] holding values 0..255). *)
Abbreviation bytes := (list Z).

(** ** Errors and the [result] monad *)

(** One constructor per [throw] of the embedded sources. *)
Inductive Error : Type :=
  (* NetworkParamsHelper: expectSome(..., "'networkParams....' undefined") *)
  | MissingParam (field : string)
  (* type-utils expectSome without a message *)
  | ExpectedSome
  (* PubKeyHash constructor *)
  | BadHashLength (got : Z)
  (* @helios-lang/cbor decoders *)
  | CborError (what : string)
  (* TxInput getters on an input whose output was not recovered *)
  | InputNotResolved
  (* Tx.validateFee *)
  | FeeTooSmall (minFee fee : Z)
  (* Tx.validateConservation *)
  | NotBalancedLovelace (net : Z)
  | NotBalancedAssets
  (* Tx.validateCollateral *)
  | TooManyCollateralInputs
  | CollateralOutputNotSet
  | CollateralNotOnlyLovelace
  | NotEnoughCollateral
  | UnnecessaryCollateral
  (* Tx.validateScriptsPresent *)
  | DuplicateScripts
  | TooManyScripts
  | MissingScript (key : string)
  | UnusedScript (key : string)
  (* Tx.validateRedeemersExBudget *)
  | SpendMemTooHigh (txId : bytes) (utxoIdx : Z) (budget got : Z)
  | SpendCpuTooHigh (txId : bytes) (utxoIdx : Z) (budget got : Z)
  | MintMemTooHigh (mph : bytes) (budget got : Z)
  | MintCpuTooHigh (mph : bytes) (budget got : Z)
  | UnhandledRedeemerKind
  | ScriptFailure (what : string)
  (* calcScriptDataHash, Tx.validateScriptDataHash *)
  | NoRedeemersForHash
  | WrongScriptDataHash
  | NoScriptDataHash
  | UnexpectedScriptDataHash
  | CostModelUndefined.

Inductive result (A : Type) : Type :=
  | Ok (a : A)
  | Err (e : Error).
Arguments Ok {A} a.
Arguments Err {A} e.

Definition bind {A B} (r : result A) (k : A -> result B) : result B :=
  match r with
  | Ok a => k a
  | Err e => Err e
  end.

Declare Scope result_scope.
Delimit Scope result_scope with result.
Notation "'let*' x ':=' r 'in' k" := (bind r (fun x => k))
  (at level 10, x pattern, r at level 100, k at level 200) : result_scope.
Local Open Scope result_scope.

Definition isOk {A} (r : result A) : bool :=
  match r with Ok _ => true | Err _ => false end.

(** [expectSome] of [@helios-lang/type-utils]. *)
Definition expectSome {A} (o : option A) (e : Error) : result A :=
  match o with
  | Some a => Ok a
  | None => Err e
  end.

(** ** CBOR primitives ([@helios-lang/cbor], after RFC 8949) *)

Module Cbor.

(** [encodeIntBE] of codec-utils: the base-256 digits of a non-negative
    integer, most significant first; zero is the single byte 0. *)
Fixpoint beDigits (n : nat) (x : Z) : bytes :=
  match n with
  | O => []
  | S n' => beDigits n' (x / 256) ++ [x mod 256]
  end.

Definition byteLength (x : Z) : nat := S (Z.to_nat (Z.log2 x / 8)).

Definition encodeIntBE (x : Z) : bytes := beDigits (byteLength x) x.

(** [decodeIntBE]: the value of big-endian digits. *)
Definition decodeIntBE (bs : bytes) : Z :=
  fold_left (fun acc b => acc * 256 + b) bs 0.

(** Big-endian digits on exactly [n] bytes (the [unshift(0)] padding of
    the 4- and 8-byte heads). *)
Definition padBE (n : nat) (x : Z) : bytes := beDigits n x.

(** [encodeDefHead(m, n)]: major type [m] with the argument [n].
    The library throws for [n >= 2^64]; its callers below pass an array
    length or an argument checked to be in range, so the last case stands
    for the 8-byte head. *)
Definition encodeDefHead (m n : Z) : bytes :=
  if n <=? 23 then [32 * m + n]
  else if n <=? 255 then [32 * m + 24; n]
  else if n <=? 65535 then [32 * m + 25; (n / 256) mod 256; n mod 256]
  else if n <=? 4294967295 then (32 * m + 26) :: padBE 4 n
  else (32 * m + 27) :: padBE 8 n.

Definition encodeBytes (bs : bytes) : bytes :=
  encodeDefHead 2 (Z.of_nat (length bs)) ++ bs.

(** [encodeInt]: unsigned (major 0), negative (major 1), and the bignum
    tags 2 and 3 beyond 64 bits. *)
Definition encodeInt (n : Z) : bytes :=
  if (0 <=? n) && (n <=? 2 ^ 64 - 1) then encodeDefHead 0 n
  else if 2 ^ 64 <=? n then encodeDefHead 6 2 ++ encodeBytes (encodeIntBE n)
  else if (n <=? -1) && (- 2 ^ 64 <=? n) then encodeDefHead 1 (- n - 1)
  else encodeDefHead 6 3 ++ encodeBytes (encodeIntBE (- n - 1)).

Definition encodeBool (b : bool) : bytes := if b then [245] else [244].

Definition encodeNull : bytes := [246].

(** [encodeNullOption(option)]: the item's encoding, or null. *)
Definition encodeNullOption (o : option bytes) : bytes :=
  match o with
  | Some b => b
  | None => encodeNull
  end.

(** [encodeDefList(items)]: definite-length list of already encoded
    items. *)
Definition encodeDefList (items : list bytes) : bytes :=
  encodeDefHead 4 (Z.of_nat (length items)) ++ concat items.

(** [encodeTuple] is [encodeDefList]. *)
Definition encodeTuple (items : list bytes) : bytes := encodeDefList items.

(** [encodeMap(pairs)]: definite-length map of encoded keys and values, in
    the order given. *)
Definition encodeMap (pairs : list (bytes * bytes)) : bytes :=
  encodeDefHead 5 (Z.of_nat (length pairs))
    ++ concat (map (fun kv => fst kv ++ snd kv) pairs).

(** [encodeObjectIKey(object)]: a map keyed by integers, in insertion
    order. *)
Definition encodeObjectIKey (object : list (Z * bytes)) : bytes :=
  encodeMap (map (fun kv => (encodeInt (fst kv), snd kv)) object).

Definition encodeTag (tag : Z) : bytes := encodeDefHead 6 tag.

(** *** Decoding: a stream is the list of bytes still to read *)

Definition Parser (A : Type) : Type := bytes -> result (A * bytes).

Definition shiftMany (n : nat) (s : bytes) : result (bytes * bytes) :=
  if (n <=? length s)%nat then Ok (take n s, drop n s)
  else Err (CborError "not enough bytes").

Definition majorType (b : Z) : Z := b / 32.

(** [decodeDefHead]: major type and argument. *)
Definition decodeDefHead : Parser (Z * Z) := fun s =>
  match s with
  | [] => Err (CborError "empty stream")
  | first :: rest =>
      let m := majorType first in
      let a := first mod 32 in
      if a <=? 23 then Ok ((m, a), rest)
      else
        let wide (n : nat) :=
          let* (bs, rest') := shiftMany n rest in
          Ok ((m, decodeIntBE bs), rest') in
        if a =? 24 then wide 1%nat
        else if a =? 25 then wide 2%nat
        else if a =? 26 then wide 4%nat
        else if a =? 27 then wide 8%nat
        else Err (CborError "bad header")
  end.

Definition decodeBool : Parser bool := fun s =>
  match s with
  | 245 :: rest => Ok (true, rest)
  | 244 :: rest => Ok (false, rest)
  | _ => Err (CborError "unexpected non-boolean cbor object")
  end.

Definition isNull (s : bytes) : bool :=
  match s with
  | 246 :: _ => true
  | _ => false
  end.

(** [decodeNullOption(stream, decodeSome)]. *)
Definition decodeNullOption {A} (decodeSome : Parser A) : Parser (option A) :=
  fun s =>
    if isNull s then Ok (None, drop 1 s)
    else let* (a, rest) := decodeSome s in Ok (Some a, rest).

(** [decodeBytes], definite-length form; an indefinite-length byte string
    (first byte 0x5f) is a sequence of definite chunks closed by 0xff. *)
Fixpoint decodeChunks (fuel : nat) (acc : bytes) (s : bytes)
  : result (bytes * bytes) :=
  match fuel with
  | O => Err (CborError "unterminated byte string")
  | S fuel' =>
      match s with
      | 255 :: rest => Ok (acc, rest)
      | _ =>
          let* ((m, n), rest) := decodeDefHead s in
          if m =? 2 then
            let* (chunk, rest') := shiftMany (Z.to_nat n) rest in
            decodeChunks fuel' (acc ++ chunk) rest'
          else Err (CborError "invalid def bytes")
      end
  end.

Definition decodeBytes : Parser bytes := fun s =>
  match s with
  | 95 :: rest => decodeChunks (length rest) [] rest
  | _ =>
      let* ((m, n), rest) := decodeDefHead s in
      if m =? 2 then shiftMany (Z.to_nat n) rest
      else Err (CborError "invalid def bytes")
  end.

(** [isTuple] is [isList]: major type 4 (0x9f, the indefinite list, has
    major type 4 as well); [isObject] is [isMap]: major type 5. *)
Definition isTuple (s : bytes) : bool :=
  match s with
  | b :: _ => majorType b =? 4
  | [] => false
  end.

Definition isObject (s : bytes) : bool :=
  match s with
  | b :: _ => majorType b =? 5
  | [] => false
  end.

(** The framing of a list: [decodeList] reads either the indefinite
    marker 0x9f, items and the break 0xff, or a definite head and that
    many items. *)
Inductive ListFrame : Type :=
  | IndefFrame
  | DefFrame (n : Z).

Definition decodeListStart : Parser ListFrame := fun s =>
  match s with
  | 159 :: rest => Ok (IndefFrame, rest)
  | _ =>
      let* ((m, n), rest) := decodeDefHead s in
      if m =? 4 then Ok (DefFrame n, rest)
      else Err (CborError "invalid def list")
  end.

(** Is there a further item in the list?  The second component is the
    frame for the rest of the list. *)
Definition moreItems (f : ListFrame) (s : bytes) : bool * ListFrame :=
  match f with
  | IndefFrame =>
      (match s with 255 :: _ => false | _ => true end, IndefFrame)
  | DefFrame n => (0 <? n, DefFrame (n - 1))
  end.

Definition decodeListEnd (f : ListFrame) : Parser unit := fun s =>
  match f with
  | IndefFrame => Ok (tt, drop 1 s)
  | DefFrame _ => Ok (tt, s)
  end.

(** One required item of [decodeTuple]: the list must hold it. *)
Definition tupleItem {A} (d : Parser A) (f : ListFrame)
  : Parser (A * ListFrame) := fun s =>
  let '(more, f') := moreItems f s in
  if more then
    let* (a, rest) := d s in Ok ((a, f'), rest)
  else Err (CborError "expected more tuple items").

(** After the last decoder [decodeTuple] accepts no further item. *)
Definition tupleEnd (f : ListFrame) : Parser unit := fun s =>
  let '(more, _) := moreItems f s in
  if more then Err (CborError "too many tuple items")
  else decodeListEnd f s.

(** [decodeTuple(bytes, [d1, d2, d3, d4])] with four required item
    decoders, as [Tx.fromCbor] calls it. *)
Definition decodeTuple4 {A B C D}
    (dA : Parser A) (dB : Parser B) (dC : Parser C) (dD : Parser D)
  : Parser (A * B * C * D) := fun s =>
  let* (f, s) := decodeListStart s in
  let* ((a, f), s) := tupleItem dA f s in
  let* ((b, f), s) := tupleItem dB f s in
  let* ((c, f), s) := tupleItem dC f s in
  let* ((d, f), s) := tupleItem dD f s in
  let* (_, s) := tupleEnd f s in
  Ok ((a, b, c, d), s).

End Cbor.

(** ** Value: a quantity of lovelace and a ledger of native assets *)

(** Modelled from the spec: [Assets] of [money/Assets.js], which is not
    part of the sources.  The spec gives the multi-asset ledger as a mapping
    from policy id to a mapping from asset name to a signed quantity, merged
    value-wise by addition and subtraction, "pruning zero results", and zero
    iff "no asset entries remain". *)
Module Assets.

Abbreviation t := (gmap bytes (gmap bytes Z)).

(** Merge of the asset names of one policy; a zero result is pruned. *)
Definition mergeTokens (op : Z -> Z -> Z) (a b : gmap bytes Z)
  : gmap bytes Z :=
  merge (fun x y =>
           match x, y with
           | None, None => None
           | _, _ =>
               let q := op (default 0 x) (default 0 y) in
               if decide (q = 0) then None else Some q
           end) a b.

(** Merge across policies; a policy left without entries is pruned. *)
Definition applyBinOp (op : Z -> Z -> Z) (a b : t) : t :=
  merge (fun x y =>
           match x, y with
           | None, None => None
           | _, _ =>
               let ts := mergeTokens op (default ∅ x) (default ∅ y) in
               if decide (ts = ∅) then None else Some ts
           end) a b.

Definition add : t -> t -> t := applyBinOp Z.add.
Definition subtract : t -> t -> t := applyBinOp Z.sub.

(** [isZero]: no entries remain. *)
Definition isZero (a : t) : bool := bool_decide (a = ∅).

(** The quantity held of one asset (0 when there is no entry). *)
Definition getQuantity (a : t) (policy name : bytes) : Z :=
  default 0 (a !! policy ≫= fun ts => ts !! name).

(** No zero entry and no empty policy: the state arithmetic leaves. *)
Definition normalized (a : t) : Prop :=
  forall policy ts, a !! policy = Some ts ->
    ts <> ∅ /\ forall name q, ts !! name = Some q -> q <> 0.

End Assets.

(** Modelled from the spec: [Value] of [money/Value.js], which is not part
    of the sources: a pair of a base-unit quantity and the asset ledger,
    added and subtracted component-wise. *)
Module Value.

Record t : Type := mk { lovelace : Z; assets : Assets.t }.

(** [new Value(lovelace)] *)
Definition ofLovelace (l : Z) : t := mk l ∅.

Definition add (a b : t) : t :=
  mk (lovelace a + lovelace b) (Assets.add (assets a) (assets b)).

Definition subtract (a b : t) : t :=
  mk (lovelace a - lovelace b) (Assets.subtract (assets a) (assets b)).

Definition setLovelace (l : Z) (v : t) : t := mk l (assets v).

End Value.

(** ** Hash identifiers *)

(** [PubKeyHash]: the constructor throws unless it is given 28 bytes, so an
    object of the class always holds 28 bytes. *)
Module PubKeyHash.

Record t : Type := mk {
  bytes_ : bytes;
  bytes_length : Is_true (bool_decide (length bytes_ = 28%nat))
}.

(** [new PubKeyHash(bytes)] *)
Definition new (bs : bytes) : result t :=
  match decide (Is_true (bool_decide (length bs = 28%nat))) with
  | left H => Ok (mk bs H)
  | right _ => Err (BadHashLength (Z.of_nat (length bs)))
  end.

Definition dummy : t := mk (replicate 28 0) I.

Definition fromCbor : Cbor.Parser t := fun s =>
  let* (bs, rest) := Cbor.decodeBytes s in
  let* h := new bs in
  Ok (h, rest).

Definition toCbor (h : t) : bytes := Cbor.encodeBytes (bytes_ h).

End PubKeyHash.

(** ** Transaction entities

    Of the entity classes only [Tx] and [TxOutput] are part of the sources;
    the others are declared here with the data the embedded code reads of
    them, after section 3 of the specification. *)

(** Structured script data ([UplcData] of the external
    [@helios-lang/uplc]). *)
#[local] Unset Elimination Schemes.
Inductive UplcData : Type :=
  | ConstrData (tag : Z) (fields : list UplcData)
  | MapData (pairs : list (UplcData * UplcData))
  | ListData (items : list UplcData)
  | IntData (value : Z)
  | ByteArrayData (value : bytes).
#[local] Set Elimination Schemes.

(** An attached script ([UplcProgramV1 | UplcProgramV2] of the external
    [@helios-lang/uplc]), by what the transaction code reads of it:
    [plutusVersionTag], [toCbor()] and [hash()]. *)
Record Script : Type := mkScript {
  plutusVersionTag : Z;
  scriptCbor : bytes;
  scriptHash : bytes
}.

(** Modelled from the spec: [Address] of [Address.js], which is not part of
    the sources: a "spending credential (hash of a key or of a script)";
    [addressBytes] stands for the rest (network tag, staking
    credential). *)
Inductive SpendingCredential : Type :=
  | PubKeyCredential (h : bytes)
  | ValidatorCredential (h : bytes).

Record Address : Type := mkAddress {
  addressBytes : bytes;
  spendingCredential : SpendingCredential
}.

Definition Address_pubKeyHash (a : Address) : option bytes :=
  match spendingCredential a with
  | PubKeyCredential h => Some h
  | ValidatorCredential _ => None
  end.

Definition Address_validatorHash (a : Address) : option bytes :=
  match spendingCredential a with
  | PubKeyCredential _ => None
  | ValidatorCredential h => Some h
  end.

(** Modelled from the spec: [TxOutputDatum] of [TxOutputDatum.js], which
    is not part of the sources: the "optional datum (inline value or hash
    reference)"; a hash reference may come with the data it stands for. *)
Inductive TxOutputDatum : Type :=
  | DatumHash (hash : bytes) (data : option UplcData)
  | DatumInline (data : UplcData).

Definition TxOutputDatum_isHash (d : TxOutputDatum) : bool :=
  match d with
  | DatumHash _ _ => true
  | DatumInline _ => false
  end.

Definition TxOutputDatum_data (d : TxOutputDatum) : option UplcData :=
  match d with
  | DatumHash _ data => data
  | DatumInline data => Some data
  end.

Record TxOutput : Type := mkTxOutput {
  address : Address;
  value : Value.t;
  datum : option TxOutputDatum;
  refScript : option Script
}.

(** Modelled from the spec: [TxOutputId] and [TxInput] of [TxOutputId.js]
    and [TxInput.js], which are not part of the sources: a "reference to a
    prior output (transaction id + index) plus, when known, the resolved
    output it spends". *)
Record TxOutputId : Type := mkTxOutputId { txId : bytes; utxoIdx : Z }.

Record TxInput : Type := mkTxInput {
  id : TxOutputId;
  output : option TxOutput
}.

(** The getters [value], [address], [datum] of a [TxInput] read the
    resolved output, and fail without it. *)
Definition TxInput_output (i : TxInput) : result TxOutput :=
  expectSome (output i) InputNotResolved.

Definition TxInput_value (i : TxInput) : result Value.t :=
  let* o := TxInput_output i in Ok (value o).

(** Modelled from the spec: [DCert] of [DCert.js], which is not part of the
    sources: "certificates (stake registration/deregistration, carrying
    deposit effects)", and the kinds without a deposit. *)
Inductive DCert : Type :=
  | DCertRegister (credential : bytes)
  | DCertDeregister (credential : bytes)
  | DCertDelegate (credential poolId : bytes)
  | DCertRegisterPool (poolId : bytes)
  | DCertRetirePool (poolId : bytes) (epoch : Z).

Definition isRegister (c : DCert) : bool :=
  match c with DCertRegister _ => true | _ => false end.

Definition isDeregister (c : DCert) : bool :=
  match c with DCertDeregister _ => true | _ => false end.

(** Execution cost: memory and steps. *)
Record Cost : Type := mkCost { mem : Z; cpu : Z }.

(** Modelled from the spec: [TxRedeemer] of [TxRedeemer.js], which is not
    part of the sources: "one per script-invoking purpose:
    spend/mint/certificate/withdraw, carrying an index, a data payload, and
    a declared execution-cost budget". *)
Inductive RedeemerKind : Type :=
  | Spending
  | Minting
  | Certifying
  | Rewarding.

Record TxRedeemer : Type := mkTxRedeemer {
  kind : RedeemerKind;
  index : nat;
  data : UplcData;
  cost : Cost
}.

Definition isSpending (r : TxRedeemer) : bool :=
  match kind r with Spending => true | _ => false end.

Definition isMinting (r : TxRedeemer) : bool :=
  match kind r with Minting => true | _ => false end.

(** Modelled from the spec: [Signature] of [Signature.js], which is not
    part of the sources: "signatures (key + signature bytes)". *)
Record Signature : Type := mkSignature {
  pubKey : bytes;
  sigBytes : bytes
}.

(** Modelled from the spec: [TxBody] of [TxBody.js], which is not part of
    the sources, with the fields of section 3 that the embedded checks
    read, and the getter [allScriptHashes]. *)
Record TxBody : Type := mkTxBody {
  inputs : list TxInput;
  refInputs : list TxInput;
  outputs : list TxOutput;
  fee : Z;
  minted : Assets.t;
  dcerts : list DCert;
  signers : list bytes;
  collateral : list TxInput;
  collateralReturn : option TxOutput;
  scriptDataHash : option bytes;
  metadataHash : option bytes;
  (* the getter [allScriptHashes]: hashes of the scripts that inputs, mints,
     certificates and withdrawals require *)
  allScriptHashes : list bytes
}.

(** Modelled from the spec: [TxWitnesses] of [TxWitnesses.js], which is not
    part of the sources: signatures, datums and redeemers, and the getter
    [allScripts] for the attached native scripts and programs. *)
Record TxWitnesses : Type := mkTxWitnesses {
  signatures : list Signature;
  datums : list UplcData;
  redeemers : list TxRedeemer;
  (* the getter [allScripts]: every attached script *)
  allScripts : list Script
}.

(** [Tx]: body, witnesses, the [valid] flag and optional metadata.  The
    record is generic in its parts, as [decodeTuple] is in its item
    decoders. *)
Record Tx_ (B W M : Type) : Type := mkTx {
  body : B;
  witnesses : W;
  valid : bool;
  metadata : option M
}.
Arguments mkTx {B W M} _ _ _ _.
Arguments body {B W M} _.
Arguments witnesses {B W M} _.
Arguments valid {B W M} _.
Arguments metadata {B W M} _.

(** ** Network parameters ([NetworkParamsHelper.js]) *)

(** The raw snapshot: every field may be missing. *)
Record NetworkParams : Type := mkNetworkParams {
  txFeeFixed : option Z;
  txFeePerByte : option Z;
  utxoCostPerByte : option Z;
  collateralPercentage : option Z;
  maxCollateralInputs_ : option Z;
  maxTxExecutionUnits_memory : option Z;
  maxTxExecutionUnits_steps : option Z;
  maxTxSize_ : option Z;
  stakeAddressDeposit_ : option Z;
  (* costModels.PlutusScriptV2: an object from parameter name to value *)
  costModels_PlutusScriptV2 : option (list (string * Z))
}.

Module NetworkParamsHelper.

Record t : Type := mk { params : NetworkParams }.

Definition txFeeParams (h : t) : result (Z * Z) :=
  let* a := expectSome (txFeeFixed (params h))
              (MissingParam "latestParams.txFeeFixed") in
  let* b := expectSome (txFeePerByte (params h))
              (MissingParam "latestParams.txFeePerByte") in
  Ok (a, b).

Definition lovelacePerUTXOByte (h : t) : result Z :=
  expectSome (utxoCostPerByte (params h))
    (MissingParam "latestParams.utxoCostPerByte").

Definition minCollateralPct (h : t) : result Z :=
  expectSome (collateralPercentage (params h))
    (MissingParam "latestParmas.collateralPercentage").

Definition maxCollateralInputs (h : t) : result Z :=
  expectSome (maxCollateralInputs_ (params h))
    (MissingParam "latestParams.maxCollateralInputs").

Definition maxTxExecutionBudget (h : t) : result (Z * Z) :=
  let* m := expectSome (maxTxExecutionUnits_memory (params h))
              (MissingParam "latestParams.maxTxExecutionUnits.memory") in
  let* s := expectSome (maxTxExecutionUnits_steps (params h))
              (MissingParam "latestParams.maxTxExecutionUnits.steps") in
  Ok (m, s).

Definition maxTxSize (h : t) : result Z :=
  expectSome (maxTxSize_ (params h)) (MissingParam "latestParams.maxTxSize").

Definition stakeAddressDeposit (h : t) : result Z :=
  expectSome (stakeAddressDeposit_ (params h))
    (MissingParam "latestParams.stakeAddressDeposit").

End NetworkParamsHelper.

(** ** Interfaces of the parts that are not embedded *)

(** The [toCbor()] / [fromCbor()] pair every ledger class has. *)
Class ToCbor (A : Type) := toCbor : A -> bytes.
Class FromCbor (A : Type) := fromCbor : Cbor.Parser A.
Global Hint Mode ToCbor ! : typeclass_instances.
Global Hint Mode FromCbor ! : typeclass_instances.

(** A decoder that inverts its encoder on every stream that starts with an
    encoding. *)
Class CborRoundTrip (A : Type) `{ToCbor A, FromCbor A} : Prop :=
  fromCbor_toCbor : forall (a : A) (rest : bytes),
    fromCbor (toCbor a ++ rest) = Ok (a, rest).

(** An encoding that never starts with the CBOR null byte, so that
    [decodeNullOption] can tell it from an absent value. *)
Class CborNotNull (A : Type) `{ToCbor A} : Prop :=
  toCbor_not_null : forall (a : A) (rest : bytes),
    Cbor.isNull (toCbor a ++ rest) = false.

Global Instance PubKeyHash_ToCbor : ToCbor PubKeyHash.t := PubKeyHash.toCbor.
Global Instance PubKeyHash_FromCbor : FromCbor PubKeyHash.t :=
  PubKeyHash.fromCbor.

(** What a script is run on: the purpose of a redeemer. *)
Inductive ScriptPurpose : Type :=
  | SpendingPurpose (redeemer : TxRedeemer) (utxoId : TxOutputId)
  | MintingPurpose (redeemer : TxRedeemer) (mph : bytes).

(** Methods of [TxBody], [TxWitnesses], [Assets], [ScriptPurpose] whose
    sources are not included, and the external hash function and script
    machine.  The checks below are stated for any implementation of them.
    [NetworkParamsHelper.new(params)], which the checks call first, is not
    in the included [NetworkParamsHelper.js] either: the checks here take
    the helper it returns. *)
Class Collaborators : Type := {
  (* TxBody.countUniqueSigners() *)
  countUniqueSigners : TxBody -> Z;
  (* TxBody.hash(), the bytes of the transaction id *)
  bodyHash : TxBody -> bytes;
  (* TxBody.toTxUplcData(helper, redeemers, datums, txId) *)
  toTxUplcData :
    TxBody -> NetworkParamsHelper.t -> list TxRedeemer -> list UplcData ->
    bytes -> UplcData;
  (* TxWitnesses.calcExFee(params) *)
  calcExFee : TxWitnesses -> NetworkParamsHelper.t -> result Z;
  (* TxWitnesses.isSmart() *)
  isSmart : TxWitnesses -> bool;
  (* TxWitnesses.findUplcProgram(hash) *)
  findUplcProgram : TxWitnesses -> bytes -> option Script;
  (* Assets.getPolicies() *)
  getPolicies : Assets.t -> list bytes;
  (* ScriptPurpose.toScriptContextUplcData(txData) *)
  toScriptContextUplcData : ScriptPurpose -> UplcData -> UplcData;
  (* UplcProgram.eval(args): the cost, or a failure of the machine *)
  evalScript : Script -> list UplcData -> result Cost;
  (* blake2b of @helios-lang/crypto *)
  blake2b : bytes -> bytes;
  (* new ListData(datums).toCbor() *)
  listDataToCbor : list UplcData -> bytes
}.

(** The global [config]: only [STRICT_BABBAGE] is read here. *)
Record Config : Type := mkConfig { STRICT_BABBAGE : bool }.

(** ** TxOutput ([TxOutput.js]) *)

(** Modelled from the spec: [Value.toCbor] of [money/Value.js], which is
    not part of the sources.  A value is "a signed quantity of the base unit
    plus a sorted multi-asset ledger"; on the wire the quantity is one CBOR
    integer, alone when no asset entries remain and otherwise first in a
    pair with the encoded ledger. *)
Global Instance Value_ToCbor `{ToCbor Assets.t} : ToCbor Value.t := fun v =>
  if Assets.isZero (Value.assets v) then Cbor.encodeInt (Value.lovelace v)
  else Cbor.encodeTuple
         [Cbor.encodeInt (Value.lovelace v); toCbor (Value.assets v)].

Section TxOutput.
Context `{ToCbor Address} `{ToCbor Assets.t} `{ToCbor TxOutputDatum}.

(** The condition under which [TxOutput.toCbor] takes its first branch. *)
Definition usesTupleForm (config : Config) (o : TxOutput) : bool :=
  match datum o with
  | None => true
  | Some d => TxOutputDatum_isHash d
  end
  && negb (bool_decide (is_Some (refScript o)))
  && negb (STRICT_BABBAGE config).

(** The third tuple field: [this.datum.hash.toCbor()], pushed when the
    datum is a hash; a hash encodes as its bytes (see [PubKeyHash]). *)
Definition tupleDatumField (o : TxOutput) : list bytes :=
  match datum o with
  | Some (DatumHash h _) => [Cbor.encodeBytes h]
  | _ => []
  end.

(** The entry of key 3: tag 24 around the bytes of the tuple
    (version, script). *)
Definition refScriptField (s : Script) : bytes :=
  Cbor.encodeTag 24
    ++ Cbor.encodeBytes
         (Cbor.encodeTuple
            [Cbor.encodeInt (plutusVersionTag s); scriptCbor s]).

(** The entries [object.set(k, ...)] puts in the map, in order. *)
Definition objectFields (o : TxOutput) : list (Z * bytes) :=
  [(0, toCbor (address o)); (1, toCbor (value o))]
    ++ match datum o with
       | Some d => [(2, toCbor d)]
       | None => []
       end
    ++ match refScript o with
       | Some s => [(3, refScriptField s)]
       | None => []
       end.

Definition TxOutput_toCbor (config : Config) (o : TxOutput) : bytes :=
  if usesTupleForm config o then
    Cbor.encodeTuple
      ([toCbor (address o); toCbor (value o)] ++ tupleDatumField o)
  else
    Cbor.encodeObjectIKey (objectFields o).

(** [calcDeposit]: 160 bytes of overhead on top of the encoded size, each
    at the price per byte. *)
Definition calcDeposit (config : Config) (networkParams : NetworkParamsHelper.t)
    (o : TxOutput) : result Z :=
  let* lovelacePerByte :=
    NetworkParamsHelper.lovelacePerUTXOByte networkParams in
  let correctedSize := Z.of_nat (length (TxOutput_toCbor config o)) + 160 in
  Ok (correctedSize * lovelacePerByte).

(** [this.value.lovelace = minLovelace] *)
Definition setLovelace (l : Z) (o : TxOutput) : TxOutput :=
  mkTxOutput (address o) (Value.setLovelace l (value o)) (datum o)
    (refScript o).

(** The [while] loop of [correctLovelace]; each iteration uses one unit of
    [fuel], and [None] means the fuel ran out before the loop ended.  The
    [updater] callback mutates the output: it is a function from the
    output to the output it leaves. *)
Fixpoint correctLovelaceLoop (fuel : nat) (config : Config)
    (networkParams : NetworkParamsHelper.t)
    (updater : option (TxOutput -> TxOutput))
    (o : TxOutput) (minLovelace : Z) : option (result TxOutput) :=
  if Value.lovelace (value o) <? minLovelace then
    match fuel with
    | O => None
    | S fuel' =>
        let o1 := setLovelace minLovelace o in
        let o2 := match updater with Some u => u o1 | None => o1 end in
        match calcDeposit config networkParams o2 with
        | Err e => Some (Err e)
        | Ok minLovelace' =>
            correctLovelaceLoop fuel' config networkParams updater o2
              minLovelace'
        end
    end
  else Some (Ok o).

Definition correctLovelace (fuel : nat) (config : Config)
    (networkParams : NetworkParamsHelper.t)
    (updater : option (TxOutput -> TxOutput)) (o : TxOutput)
  : option (result TxOutput) :=
  match calcDeposit config networkParams o with
  | Err e => Some (Err e)
  | Ok minLovelace =>
      correctLovelaceLoop fuel config networkParams updater o minLovelace
  end.

End TxOutput.

(** ** Placeholder signatures ([TxWitnesses.js], [Signature.js]) *)

(** Modelled from the spec: [Signature.dummy()] and [isDummy()] of
    [Signature.js], which is not part of the sources: the "placeholder
    signature", a key and a signature of zero bytes. *)
Definition Signature_dummy : Signature :=
  mkSignature (replicate 32 0) (replicate 64 0).

Global Instance Signature_eq_dec : EqDecision Signature.
Proof. solve_decision. Defined.

Definition Signature_isDummy (s : Signature) : bool :=
  bool_decide (s = Signature_dummy).

Definition setSignatures (sigs : list Signature) (w : TxWitnesses)
  : TxWitnesses :=
  mkTxWitnesses sigs (datums w) (redeemers w) (allScripts w).

(** Modelled from the spec: [TxWitnesses.countNonDummySignatures()], which
    is not part of the sources: the signers "signing" already, that is the
    signatures that are not placeholders. *)
Definition countNonDummySignatures (w : TxWitnesses) : Z :=
  Z.of_nat (length (filter (fun s => Signature_isDummy s = false)
                      (signatures w))).

(** Modelled from the spec: [TxWitnesses.addDummySignatures(n)], which is
    not part of the sources: "placeholder signatures inserted", [n] of them
    after the signatures present. *)
Definition addDummySignatures (n : Z) (w : TxWitnesses) : TxWitnesses :=
  setSignatures (signatures w ++ replicate (Z.to_nat n) Signature_dummy) w.

(** Removes up to [n] placeholders from the front of a list. *)
Fixpoint dropDummies (n : nat) (sigs : list Signature) : list Signature :=
  match n, sigs with
  | S n', s :: rest =>
      if Signature_isDummy s then dropDummies n' rest
      else s :: dropDummies n rest
  | _, _ => sigs
  end.

(** Modelled from the spec: [TxWitnesses.removeDummySignatures(n)], which
    is not part of the sources: the placeholders are "removed afterward",
    [n] of them, the last inserted first. *)
Definition removeDummySignatures (n : Z) (w : TxWitnesses) : TxWitnesses :=
  setSignatures
  (reverse (dropDummies (Z.to_nat n) (reverse (signatures w)))) w.

(** ** Tx ([Tx.js]): encoding, size and fee *)

Section TxCodec.
Context {B W M : Type}.

(** [Tx.fromCbor]: a tuple of body, witnesses, the flag and metadata or
    null; bytes after the tuple are not read. *)
Definition Tx_fromCbor `{FromCbor B, FromCbor W, FromCbor M} (bs : bytes)
  : result (Tx_ B W M) :=
  let* ((((body, witnesses), valid), metadata), _) :=
    Cbor.decodeTuple4 fromCbor fromCbor Cbor.decodeBool
      (Cbor.decodeNullOption fromCbor) bs in
  Ok (mkTx body witnesses valid metadata).

(** [Tx.toCbor(forFeeCalculation)] *)
Definition Tx_toCbor `{ToCbor B, ToCbor W, ToCbor M}
    (forFeeCalculation : bool) (tx : Tx_ B W M) : bytes :=
  if forFeeCalculation then
    Cbor.encodeTuple
      [toCbor (body tx);
       toCbor (witnesses tx);
       Cbor.encodeNullOption (toCbor <$> metadata tx)]
  else
    Cbor.encodeTuple
      [toCbor (body tx);
       toCbor (witnesses tx);
       Cbor.encodeBool true;
       Cbor.encodeNullOption (toCbor <$> metadata tx)].

End TxCodec.

Section TxFee.
Context {M : Type} `{ToCbor TxBody, ToCbor TxWitnesses, ToCbor M}.
Context `{Collaborators}.

Abbreviation Tx := (Tx_ TxBody TxWitnesses M).

Definition setWitnesses (w : TxWitnesses) (tx : Tx) : Tx :=
  mkTx (body tx) w (valid tx) (metadata tx).

Definition countMissingSignatures (tx : Tx) : Z :=
  countUniqueSigners (body tx) - countNonDummySignatures (witnesses tx).

(** [calcSize(forFeeCalculation)]: the size, and the transaction as the
    call leaves it ([this.witnesses] is mutated on the way). *)
Definition calcSize (forFeeCalculation : bool) (tx : Tx) : Z * Tx :=
  let nDummy := if forFeeCalculation then countMissingSignatures tx else 0 in
  let tx1 :=
    if forFeeCalculation
    then setWitnesses (addDummySignatures nDummy (witnesses tx)) tx
    else tx in
  let s := Z.of_nat (length (Tx_toCbor forFeeCalculation tx1)) in
  let tx2 :=
    if forFeeCalculation
    then setWitnesses (removeDummySignatures nDummy (witnesses tx1)) tx1
    else tx1 in
  (s, tx2).

(** [calcMinFee(params)] *)
Definition calcMinFee (helper : NetworkParamsHelper.t) (tx : Tx)
  : result (Z * Tx) :=
  let* (a, b) := NetworkParamsHelper.txFeeParams helper in
  let '(size, tx') := calcSize true tx in
  let sizeFee := a + size * b in
  let* exFee := calcExFee (witnesses tx') helper in
  Ok (sizeFee + exFee, tx').

(** [validateFee(params)] *)
Definition validateFee (helper : NetworkParamsHelper.t) (tx : Tx)
  : result Tx :=
  let* (minFee, tx') := calcMinFee helper tx in
  if fee (body tx') <? minFee then Err (FeeTooSmall minFee (fee (body tx')))
  else Ok tx'.

(** The transaction with the placeholders in place, as [calcSize(true)]
    encodes it. *)
Definition withPlaceholders (tx : Tx) : Tx :=
  setWitnesses
    (addDummySignatures (countMissingSignatures tx) (witnesses tx)) tx.

End TxFee.

(** ** Tx ([Tx.js]): the checks of [validate] *)

(** A [reduce]/[forEach] whose body can throw. *)
Fixpoint foldlM {A X} (f : A -> X -> result A) (l : list X) (a : A)
  : result A :=
  match l with
  | [] => Ok a
  | x :: l' => let* a' := f a x in foldlM f l' a'
  end.

(** What [console.error] prints. *)
Inductive Warning : Type :=
  | WayTooMuchCollateral.

(** [Math.ceil(x / 100.0)] for an integer [x].  The source computes
    [minCollateralPct * Number(fee)] and the quotient in double precision;
    that is this exact ceiling as long as the product is below [2^53]. *)
Definition ceilDiv100 (x : Z) : Z := - ((- x) / 100).

(** bytesToHex of codec-utils: two lower-case digits per byte. *)
Definition hexDigit (d : Z) : string :=
  match d with
  | 0 => "0" | 1 => "1" | 2 => "2" | 3 => "3" | 4 => "4" | 5 => "5"
  | 6 => "6" | 7 => "7" | 8 => "8" | 9 => "9" | 10 => "a" | 11 => "b"
  | 12 => "c" | 13 => "d" | 14 => "e" | _ => "f"
  end.

Fixpoint bytesToHex (bs : bytes) : string :=
  match bs with
  | [] => ""
  | b :: rest => (hexDigit (b / 16) +:+ hexDigit (b mod 16)) +:+ bytesToHex rest
  end.

(** [new Set(array)]: the distinct elements, in order of first insertion. *)
Definition setOfList (l : list string) : list string :=
  fold_left (fun acc x => if decide (x ∈ acc) then acc else acc ++ [x]) l [].

Section TxValidate.
Context {M : Type} `{Collaborators}.

Abbreviation Tx := (Tx_ TxBody TxWitnesses M).

(** *** validateConservation *)

Definition addInputValue (prev : Value.t) (inp : TxInput) : result Value.t :=
  let* v := TxInput_value inp in Ok (Value.add v prev).

Definition validateConservation (helper : NetworkParamsHelper.t) (tx : Tx)
  : result unit :=
  let* deposit := NetworkParamsHelper.stakeAddressDeposit helper in
  let stakeAddrDeposit := Value.ofLovelace deposit in
  let v := Value.ofLovelace 0 in
  let* v := foldlM addInputValue (inputs (body tx)) v in
  let v := fold_left (fun prev dcert =>
                        if isDeregister dcert
                        then Value.add prev stakeAddrDeposit else prev)
             (dcerts (body tx)) v in
  let v := Value.subtract v (Value.ofLovelace (fee (body tx))) in
  let v := Value.add v (Value.mk 0 (minted (body tx))) in
  let v := fold_left (fun prev out => Value.subtract prev (value out))
             (outputs (body tx)) v in
  let v := fold_left (fun prev dcert =>
                        if isRegister dcert
                        then Value.subtract prev stakeAddrDeposit else prev)
             (dcerts (body tx)) v in
  if negb (Value.lovelace v =? 0) then
    Err (NotBalancedLovelace (Value.lovelace v))
  else if negb (Assets.isZero (Value.assets v)) then Err NotBalancedAssets
  else Ok tt.

(** *** validateCollateral *)

Definition addCollateral (sum : Value.t) (col : TxInput) : result Value.t :=
  match output col with
  | None => Err CollateralOutputNotSet
  | Some o =>
      if negb (Assets.isZero (Value.assets (value o)))
      then Err CollateralNotOnlyLovelace
      else Ok (Value.add sum (value o))
  end.

(** The sum the check compares: collateral inputs minus the collateral
    return. *)
Definition collateralSum (b : TxBody) : result Value.t :=
  let* sum := foldlM addCollateral (collateral b) (Value.ofLovelace 0) in
  Ok match collateralReturn b with
     | Some ret => Value.subtract sum (value ret)
     | None => sum
     end.

(** The result is the list of warnings printed. *)
Definition validateCollateral (helper : NetworkParamsHelper.t) (tx : Tx)
  : result (list Warning) :=
  let* maxInputs := NetworkParamsHelper.maxCollateralInputs helper in
  if maxInputs <? Z.of_nat (length (collateral (body tx))) then
    Err TooManyCollateralInputs
  else if isSmart (witnesses tx) then
    let* minCollateralPct := NetworkParamsHelper.minCollateralPct helper in
    let fee := fee (body tx) in
    let minCollateral := ceilDiv100 (minCollateralPct * fee) in
    let* sum := collateralSum (body tx) in
    if Value.lovelace sum <? minCollateral then Err NotEnoughCollateral
    else if minCollateral * 5 <? Value.lovelace sum
         then Ok [WayTooMuchCollateral]
         else Ok []
  else
    if negb (length (collateral (body tx)) =? 0)%nat
    then Err UnnecessaryCollateral
    else Ok [].

(** *** validateScriptsPresent *)

Definition includedScriptHashes (tx : Tx) : list string :=
  setOfList (map (fun s => bytesToHex (scriptHash s))
               (allScripts (witnesses tx))).

Definition requireIncluded (included : list string) (_ : unit) (hash : bytes)
  : result unit :=
  let key := bytesToHex hash in
  if decide (key ∈ included) then Ok tt else Err (MissingScript key).

(** [requiredScriptHashes.findIndex((h) => h.toHex() == key) == -1] *)
Definition notRequired (required : list bytes) (key : string) : bool :=
  forallb (fun h => negb (bool_decide (bytesToHex h = key))) required.

Definition requireUsed (required : list bytes) (_ : unit) (key : string)
  : result unit :=
  if notRequired required key then Err (UnusedScript key) else Ok tt.

Definition validateScriptsPresent (strict : bool) (tx : Tx) : result unit :=
  let allScripts := allScripts (witnesses tx) in
  let included := includedScriptHashes tx in
  if negb (length allScripts =? length included)%nat then Err DuplicateScripts
  else
    let required := allScriptHashes (body tx) in
    if (length required <? length included)%nat then Err TooManyScripts
    else
      let* _ := foldlM (requireIncluded included) required tt in
      if strict then foldlM (requireUsed required) included tt
      else Ok tt.

End TxValidate.

(** *** validateRedeemersExBudget *)

(** One invocation of the script machine: the program and its arguments. *)
Record VmCall : Type := mkVmCall {
  program : Script;
  args : list UplcData
}.

(** What an over-budget error names: the input spent or the policy
    minted. *)
Inductive BudgetTarget : Type :=
  | SpendTarget (utxoId : TxOutputId)
  | MintTarget (mph : bytes).

Definition memTooHigh (t : BudgetTarget) (budget got : Z) : Error :=
  match t with
  | SpendTarget u => SpendMemTooHigh (txId u) (utxoIdx u) budget got
  | MintTarget mph => MintMemTooHigh mph budget got
  end.

Definition cpuTooHigh (t : BudgetTarget) (budget got : Z) : Error :=
  match t with
  | SpendTarget u => SpendCpuTooHigh (txId u) (utxoIdx u) budget got
  | MintTarget mph => MintCpuTooHigh mph budget got
  end.

(** The two comparisons after [script.eval]. *)
Definition checkCost (t : BudgetTarget) (declared actual : Cost)
  : result unit :=
  if mem declared <? mem actual
  then Err (memTooHigh t (mem declared) (mem actual))
  else if cpu declared <? cpu actual
       then Err (cpuTooHigh t (cpu declared) (cpu actual))
       else Ok tt.

Section TxRedeemers.
Context {M : Type} `{Collaborators}.

Abbreviation Tx := (Tx_ TxBody TxWitnesses M).

(** Everything the loop body does before [script.eval]: the script, the
    argument list and the target, or the error thrown on the way. *)
Definition prepareCall (tx : Tx) (txData : UplcData) (redeemer : TxRedeemer)
  : result (VmCall * BudgetTarget) :=
  let redeemerData := data redeemer in
  if isSpending redeemer then
    let* utxo := expectSome (inputs (body tx) !! index redeemer)
                   ExpectedSome in
    let* out := TxInput_output utxo in
    let* vh := expectSome (Address_validatorHash (address out))
                 ExpectedSome in
    let* script := expectSome (findUplcProgram (witnesses tx) vh)
                     ExpectedSome in
    let* datumData := expectSome (datum out ≫= TxOutputDatum_data)
                        ExpectedSome in
    let scriptContextData :=
      toScriptContextUplcData (SpendingPurpose redeemer (id utxo)) txData in
    Ok (mkVmCall script [datumData; redeemerData; scriptContextData],
        SpendTarget (id utxo))
  else if isMinting redeemer then
    let* mph := expectSome (getPolicies (minted (body tx)) !! index redeemer)
                  ExpectedSome in
    let* script := expectSome (findUplcProgram (witnesses tx) mph)
                     ExpectedSome in
    let scriptContextData :=
      toScriptContextUplcData (MintingPurpose redeemer mph) txData in
    Ok (mkVmCall script [redeemerData; scriptContextData], MintTarget mph)
  else Err UnhandledRedeemerKind.

(** The loop body: its outcome and the invocations of the machine it
    made. *)
Definition checkRedeemer (tx : Tx) (txData : UplcData)
    (redeemer : TxRedeemer) : result unit * list VmCall :=
  match prepareCall tx txData redeemer with
  | Err e => (Err e, [])
  | Ok (call, target) =>
      (let* actual := evalScript (program call) (args call) in
       checkCost target (cost redeemer) actual,
       [call])
  end.

(** [redeemers.forEach]: stops at the first error. *)
Fixpoint forEachRedeemer (tx : Tx) (txData : UplcData)
    (rs : list TxRedeemer) : result unit * list VmCall :=
  match rs with
  | [] => (Ok tt, [])
  | r :: rs' =>
      match checkRedeemer tx txData r with
      | (Ok _, calls) =>
          let '(res, calls') := forEachRedeemer tx txData rs' in
          (res, calls ++ calls')
      | (Err e, calls) => (Err e, calls)
      end
  end.

Definition txUplcData (helper : NetworkParamsHelper.t) (tx : Tx) : UplcData :=
  toTxUplcData (body tx) helper (redeemers (witnesses tx))
    (datums (witnesses tx)) (bodyHash (body tx)).

Definition validateRedeemersExBudget (helper : NetworkParamsHelper.t)
    (tx : Tx) : result unit * list VmCall :=
  forEachRedeemer tx (txUplcData helper tx) (redeemers (witnesses tx)).

End TxRedeemers.

(** *** calcScriptDataHash and validateScriptDataHash *)

(** The order of [Array.prototype.sort()] without a comparator: strings by
    their code units. *)
Definition keyLe (a b : string) : Prop := Is_true (String.leb a b).

Global Instance keyLe_dec : RelDecision keyLe.
Proof. intros a b; unfold keyLe; apply _. Defined.

(** [baseObj[key]] for a key of the object. *)
Definition objectGet (obj : list (string * Z)) (key : string) : Z :=
  default 0 (snd <$> find (fun kv => bool_decide (fst kv = key)) obj).

(** [compareBytes] of codec-utils (shortestFirst = false). *)
Fixpoint compareBytes (a b : bytes) : Z :=
  match a, b with
  | [], [] => 0
  | [], _ :: _ => -1
  | _ :: _, [] => 1
  | x :: a', y :: b' =>
      if x <? y then -1 else if y <? x then 1 else compareBytes a' b'
  end.

Section ScriptDataHash.
Context {M : Type} `{Collaborators} `{ToCbor TxRedeemer}.

Abbreviation Tx := (Tx_ TxBody TxWitnesses M).

(** [NetworkParamsHelper.sortedV2CostParams] *)
Definition sortedV2CostParams (helper : NetworkParamsHelper.t)
  : result (list Z) :=
  let* baseObj :=
    expectSome (costModels_PlutusScriptV2 (NetworkParamsHelper.params helper))
      CostModelUndefined in
  let keys := merge_sort keyLe (map fst baseObj) in
  Ok (map (objectGet baseObj) keys).

(** The bytes that are hashed. *)
Definition scriptDataBytes (datums : list UplcData)
    (redeemers : list TxRedeemer) (costParams : list Z) : bytes :=
  Cbor.encodeDefList (map toCbor redeemers)
    ++ match datums with
       | [] => []
       | _ :: _ => listDataToCbor datums
       end
    ++ Cbor.encodeMap
         [(Cbor.encodeInt 1,
           Cbor.encodeDefList (map Cbor.encodeInt costParams))].

Definition calcScriptDataHash (helper : NetworkParamsHelper.t)
    (datums : list UplcData) (redeemers : list TxRedeemer) : result bytes :=
  if (length redeemers =? 0)%nat then Err NoRedeemersForHash
  else
    let bs := Cbor.encodeDefList (map toCbor redeemers) in
    let bs := if (0 <? length datums)%nat
              then bs ++ listDataToCbor datums else bs in
    let* sortedCostParams := sortedV2CostParams helper in
    let bs := bs ++ Cbor.encodeMap
                      [(Cbor.encodeInt 1,
                        Cbor.encodeDefList
                          (map Cbor.encodeInt sortedCostParams))] in
    Ok (blake2b bs).

Definition validateScriptDataHash (helper : NetworkParamsHelper.t) (tx : Tx)
  : result unit :=
  if (0 <? length (redeemers (witnesses tx)))%nat then
    match scriptDataHash (body tx) with
    | Some h =>
        let* scriptDataHash :=
          calcScriptDataHash helper (datums (witnesses tx))
            (redeemers (witnesses tx)) in
        if negb (compareBytes scriptDataHash h =? 0)
        then Err WrongScriptDataHash
        else Ok tt
    | None => Err NoScriptDataHash
    end
  else
    match scriptDataHash (body tx) with
    | Some _ => Err UnexpectedScriptDataHash
    | None => Ok tt
    end.

End ScriptDataHash.

(** ** Vocabulary of the specification *)

(** The datum is absent or a hash reference, there is no reference
    script, and strict mode is off. *)
Definition compactCondition (config : Config) (o : TxOutput) : Prop :=
  (datum o = None \/ exists h d, datum o = Some (DatumHash h d))
  /\ refScript o = None
  /\ STRICT_BABBAGE config = false.

(** The 4-tuple on the wire: body, witnesses, flag, metadata or null. *)
Definition wireTx {B W M} `{ToCbor B, ToCbor W, ToCbor M}
    (b : B) (w : W) (flag : bool) (m : option M) : bytes :=
  Cbor.encodeTuple
    [toCbor b; toCbor w; Cbor.encodeBool flag;
     Cbor.encodeNullOption (toCbor <$> m)].


(** Sum of a list of integers. *)
Definition sumZ (l : list Z) : Z := foldr Z.add 0 l.

(** The values of the inputs, when every input carries its output. *)
Fixpoint inputValues (ins : list TxInput) : option (list Value.t) :=
  match ins with
  | [] => Some []
  | i :: rest =>
      match output i, inputValues rest with
      | Some o, Some vs => Some (value o :: vs)
      | _, _ => None
      end
  end.

Definition countCerts (f : DCert -> bool) (cs : list DCert) : Z :=
  sumZ (map (fun c => if f c then 1 else 0) cs).

(** Net base-unit quantity of a body whose inputs have the values [ins]:
    inputs + deposit refunds - fee + minted (none in the base unit)
    - outputs - deposits. *)
Definition netLovelace (deposit : Z) (b : TxBody) (ins : list Value.t) : Z :=
  sumZ (map Value.lovelace ins)
  + deposit * countCerts isDeregister (dcerts b)
  - fee b
  - sumZ (map (fun o => Value.lovelace (value o)) (outputs b))
  - deposit * countCerts isRegister (dcerts b).

(** Net quantity of one asset: inputs + minted - outputs. *)
Definition netQuantity (b : TxBody) (ins : list Value.t)
    (policy name : bytes) : Z :=
  sumZ (map (fun v => Assets.getQuantity (Value.assets v) policy name) ins)
  + Assets.getQuantity (minted b) policy name
  - sumZ (map (fun o => Assets.getQuantity (Value.assets (value o)) policy name)
            (outputs b)).

(** The body with other outputs, and a transaction with another body. *)
Definition setOutputs (outs : list TxOutput) (b : TxBody) : TxBody :=
  mkTxBody (inputs b) (refInputs b) outs (fee b) (minted b) (dcerts b)
    (signers b) (collateral b) (collateralReturn b) (scriptDataHash b)
    (metadataHash b) (allScriptHashes b).

Definition setBody {B W M} (b : B) (tx : Tx_ B W M) : Tx_ B W M :=
  mkTx b (witnesses tx) (valid tx) (metadata tx).

(** An output with [d] more lovelace. *)
Definition addLovelace (d : Z) (o : TxOutput) : TxOutput :=
  setLovelace (Value.lovelace (value o) + d) o.


(** The value [validateConservation] ends with, given the deposit and the
    values of the inputs. *)
Definition conservedValue (deposit : Z) (b : TxBody) (ins : list Value.t)
  : Value.t :=
  let stakeAddrDeposit := Value.ofLovelace deposit in
  let v := fold_left (fun prev v => Value.add v prev) ins (Value.ofLovelace 0) in
  let v := fold_left (fun prev dcert =>
                        if isDeregister dcert
                        then Value.add prev stakeAddrDeposit else prev)
             (dcerts b) v in
  let v := Value.subtract v (Value.ofLovelace (fee b)) in
  let v := Value.add v (Value.mk 0 (minted b)) in
  let v := fold_left (fun prev out => Value.subtract prev (value out))
             (outputs b) v in
  fold_left (fun prev dcert =>
               if isRegister dcert
               then Value.subtract prev stakeAddrDeposit else prev)
    (dcerts b) v.


(** A collateral input that carries its output, which holds no asset. *)
Definition lovelaceOnly (col : TxInput) : Prop :=
  exists o, output col = Some o /\ Value.assets (value o) = ∅.

(** Lovelace of the collateral inputs minus that of the collateral
    return. *)
Definition collateralLovelace (b : TxBody) : Z :=
  sumZ (map (fun col => match output col with
                        | Some o => Value.lovelace (value o)
                        | None => 0
                        end) (collateral b))
  - match collateralReturn b with
    | Some ret => Value.lovelace (value ret)
    | None => 0
    end.


Section DepositVocabulary.
Context `{ToCbor Address} `{ToCbor Assets.t} `{ToCbor TxOutputDatum}.

(** The encoded size of the output when it holds [l] lovelace. *)
Definition encodedSizeWith (config : Config) (o : TxOutput) (l : Z) : Z :=
  Z.of_nat (length (TxOutput_toCbor config (setLovelace l o))).

(** The deposit required of the output when it holds [l] lovelace. *)
Definition requiredDepositWith (config : Config) (perByte : Z) (o : TxOutput)
    (l : Z) : Z :=
  (encodedSizeWith config o l + 160) * perByte.

End DepositVocabulary.

(** ** Stand-ins for the collaborators, and sample data

    A script machine that reports a fixed cost, the identity for the hash,
    and encoders of fixed shape; with them the checks compute. *)

Definition stubCollaborators : Collaborators := {|
  countUniqueSigners b := Z.of_nat (length (signers b));
  bodyHash _ := replicate 32 0;
  toTxUplcData _ _ _ _ txId := ConstrData 0 [ByteArrayData txId];
  calcExFee _ _ := Ok 0;
  isSmart w := negb (length (redeemers w) =? 0)%nat;
  findUplcProgram w h :=
    find (fun s => bool_decide (scriptHash s = h)) (allScripts w);
  getPolicies a := map fst (map_to_list a);
  toScriptContextUplcData _ txData := ConstrData 0 [txData];
  evalScript _ _ := Ok (mkCost 0 0);
  blake2b bs := bs;
  listDataToCbor ds := Cbor.encodeDefList (map (fun _ => [0]) ds)
|}.

Definition stubBodyToCbor : ToCbor TxBody :=
  fun b => Cbor.encodeInt (fee b).

Definition stubWitnessesToCbor : ToCbor TxWitnesses :=
  fun w => Cbor.encodeDefList
             (map (fun s => Cbor.encodeBytes (pubKey s ++ sigBytes s))
                (signatures w)).

Definition stubRedeemerToCbor : ToCbor TxRedeemer :=
  fun r => Cbor.encodeTuple
             [Cbor.encodeInt (Z.of_nat (index r));
              Cbor.encodeInt (mem (cost r)); Cbor.encodeInt (cpu (cost r))].

Definition stubMetadataToCbor : ToCbor bytes := Cbor.encodeBytes.

Definition stubAddressToCbor : ToCbor Address :=
  fun a => Cbor.encodeBytes (addressBytes a).

Definition stubAssetsToCbor : ToCbor Assets.t :=
  fun a => Cbor.encodeMap
             (map (fun kv => (Cbor.encodeBytes (fst kv), [160]))
                (map_to_list a)).

Definition stubDatumToCbor : ToCbor TxOutputDatum :=
  fun d => match d with
           | DatumHash h _ => Cbor.encodeTuple [[0]; Cbor.encodeBytes h]
           | DatumInline _ => Cbor.encodeTuple [[1]; [0]]
           end.

Definition sampleParams : NetworkParams := {|
  txFeeFixed := Some 155381;
  txFeePerByte := Some 44;
  utxoCostPerByte := Some 4310;
  collateralPercentage := Some 150;
  maxCollateralInputs_ := Some 3;
  maxTxExecutionUnits_memory := Some 14000000;
  maxTxExecutionUnits_steps := Some 10000000000;
  maxTxSize_ := Some 16384;
  stakeAddressDeposit_ := Some 2000000;
  costModels_PlutusScriptV2 :=
    Some [("verifyEd25519Signature-cpu", 57996947);
          ("addInteger-cpu", 205665); ("addInteger-memory", 812)]
|}.

Definition sampleHelper : NetworkParamsHelper.t :=
  NetworkParamsHelper.mk sampleParams.

Definition sampleAddress : Address :=
  mkAddress (replicate 29 1) (PubKeyCredential (replicate 28 1)).

Definition sampleScript : Script := mkScript 2 [70; 1; 0; 0; 34; 0; 17] [7; 7].

Definition sampleScriptAddress : Address :=
  mkAddress (replicate 29 2) (ValidatorCredential [7; 7]).

Definition sampleOutput (l : Z) : TxOutput :=
  mkTxOutput sampleAddress (Value.ofLovelace l) None None.

Definition sampleInput (l : Z) : TxInput :=
  mkTxInput (mkTxOutputId (replicate 32 9) 0) (Some (sampleOutput l)).

(** A body spending 5 ADA into 3 ADA and 2 ADA of fee. *)
Definition sampleBody : TxBody := {|
  inputs := [sampleInput 5000000];
  refInputs := [];
  outputs := [sampleOutput 3000000];
  fee := 2000000;
  minted := ∅;
  dcerts := [];
  signers := [replicate 28 1];
  collateral := [];
  collateralReturn := None;
  scriptDataHash := None;
  metadataHash := None;
  allScriptHashes := []
|}.

Definition sampleWitnesses : TxWitnesses := {|
  signatures := [];
  datums := [];
  redeemers := [];
  allScripts := []
|}.

Definition sampleTx : Tx_ TxBody TxWitnesses bytes :=
  mkTx sampleBody sampleWitnesses false None.

(** The same transaction with a redeemer of the given purpose, the sample
    script attached, and 5 ADA of collateral. *)
Definition sampleRedeemer (k : RedeemerKind) : TxRedeemer :=
  mkTxRedeemer k 0 (IntData 0) (mkCost 1000 1000).

Definition scriptInput (l : Z) : TxInput :=
  mkTxInput (mkTxOutputId (replicate 32 9) 1)
    (Some (mkTxOutput sampleScriptAddress (Value.ofLovelace l)
             (Some (DatumInline (IntData 42))) None)).

Definition smartTx (k : RedeemerKind) : Tx_ TxBody TxWitnesses bytes :=
  mkTx
    (mkTxBody [scriptInput 5000000] [] [sampleOutput 3000000] 2000000 ∅ [] []
       [sampleInput 5000000] None None None [[7; 7]])
    (mkTxWitnesses [] [] [sampleRedeemer k] [sampleScript])
    false None.

(** A transaction that requires no script and has the sample script
    attached. *)
Definition unusedScriptTx : Tx_ TxBody TxWitnesses bytes :=
  mkTx sampleBody (mkTxWitnesses [] [] [] [sampleScript]) false None.


(** A script machine that reports one unit of memory more than the sample
    redeemer declares. *)
Definition greedyCollaborators : Collaborators := {|
  countUniqueSigners := @countUniqueSigners stubCollaborators;
  bodyHash := @bodyHash stubCollaborators;
  toTxUplcData := @toTxUplcData stubCollaborators;
  calcExFee := @calcExFee stubCollaborators;
  isSmart := @isSmart stubCollaborators;
  findUplcProgram := @findUplcProgram stubCollaborators;
  getPolicies := @getPolicies stubCollaborators;
  toScriptContextUplcData := @toScriptContextUplcData stubCollaborators;
  evalScript _ _ := Ok (mkCost 1001 1000);
  blake2b := @blake2b stubCollaborators;
  listDataToCbor := @listDataToCbor stubCollaborators
|}.

(** A transaction minting 5 tokens under the policy of the sample script. *)
Definition mintTx : Tx_ TxBody TxWitnesses bytes :=
  mkTx
    (mkTxBody [sampleInput 5000000] [] [sampleOutput 3000000] 2000000
       {[ [7; 7] := {[ [84] := 5 ]} ]} [] []
       [sampleInput 5000000] None None None [[7; 7]])
    (mkTxWitnesses [] [] [sampleRedeemer Minting] [sampleScript])
    false None.


(** ** Tx ([Tx.js]): the further checks and helpers *)

(** Errors of the further methods: those of [Error], and one constructor
    per further [throw]. *)
Inductive CheckError : Type :=
  | Thrown (e : Error)
  (* Tx.validateSize *)
  | TxTooBig
  (* Tx.validateTotalExBudget *)
  | MemBudgetExceeded (total max : Z)
  | CpuBudgetExceeded (total max : Z)
  (* Tx.validateOutputs *)
  | NotEnoughLovelace (expected got : Z)
  (* Tx.validateInputsOrder, Tx.validateRefInputsOrder *)
  | InputsNotSorted
  | RefInputsNotSorted
  (* Tx.validateMetadata *)
  | MetadataHashMismatch
  | MetadataHashNotIncluded
  | MetadataHashWithoutMetadata
  (* Tx.validateSignatures *)
  | SignerSignatureMissing (signer : string)
  | InputSignatureMissing (address : bytes)
  (* ByteArrayData.expect *)
  | ExpectedByteArrayData
  (* ValidatorHash constructor *)
  | BadValidatorHashLength (got : Z)
  (* BigInt(x) for an x that is not finite *)
  | NotAnInteger
  (* ConstrData.assert *)
  | ExpectedConstrData
  | UnexpectedConstrTag (expected got : Z)
  | UnexpectedConstrFields (expected got : nat).

Inductive checked (A : Type) : Type :=
  | Passed (a : A)
  | Failed (e : CheckError).
Arguments Passed {A} a.
Arguments Failed {A} e.

Definition andThen {A B} (c : checked A) (k : A -> checked B) : checked B :=
  match c with
  | Passed a => k a
  | Failed e => Failed e
  end.

(** A step that throws one of the errors of [Error]. *)
Definition lift {A} (r : result A) : checked A :=
  match r with
  | Ok a => Passed a
  | Err e => Failed (Thrown e)
  end.

(** [array.forEach] with a body that can throw. *)
Fixpoint forEach {X} (f : X -> checked unit) (xs : list X) : checked unit :=
  match xs with
  | [] => Passed tt
  | x :: xs' => andThen (f x) (fun _ => forEach f xs')
  end.

(** [array.forEach((x, i) => ...)] from index [i] on. *)
Fixpoint forEachFrom {X} (i : nat) (f : nat -> X -> checked unit)
    (xs : list X) : checked unit :=
  match xs with
  | [] => Passed tt
  | x :: xs' => andThen (f i x) (fun _ => forEachFrom (S i) f xs')
  end.

(** The loop of [validateInputsOrder], [validateRefInputsOrder]: every
    element after the first is compared with the one before it. *)
Definition validateOrder {X} (compare : X -> X -> Z) (e : CheckError)
    (xs : list X) : checked unit :=
  forEachFrom 0
    (fun i x =>
       if (0 <? i)%nat then
         match xs !! (i - 1)%nat with
         | Some prev =>
             if 0 <=? compare prev x then Failed e else Passed tt
         | None => Passed tt
         end
       else Passed tt)
    xs.

(** Methods of [TxInput], [TxMetadata], [Signature] and [Assets] that the
    further checks call and whose sources are not included. *)
Class MoreCollaborators (M : Type) : Type := {
  (* TxInput.compare(a, b) *)
  TxInput_compare : TxInput -> TxInput -> Z;
  (* TxMetadata.hash() *)
  TxMetadata_hash : M -> bytes;
  (* Signature.pubKeyHash, the hash of the signing key *)
  Signature_pubKeyHash : Signature -> bytes;
  (* Assets.assertSorted() *)
  Assets_assertSorted : Assets.t -> result unit
}.

(** What [validateTotalExBudget] prints. *)
Inductive BudgetWarning : Type :=
  | MemAboveHalf (total max : Z)
  | CpuAboveHalf (total max : Z).

Section TxFurtherChecks.
Context {M : Type} `{ToCbor TxBody, ToCbor TxWitnesses, ToCbor M}.
Context `{Collaborators} `{!MoreCollaborators M}.
Context `{ToCbor Address} `{ToCbor Assets.t} `{ToCbor TxOutputDatum}.

Abbreviation Tx := (Tx_ TxBody TxWitnesses M).

(** [calcMinCollateral(networkParams, recalcMinBaseFee)]; the division of
    [bigint]s truncates. *)
Definition calcMinCollateral (networkParams : NetworkParamsHelper.t)
    (recalcMinBaseFee : bool) (tx : Tx) : result Z :=
  let* fee :=
    if recalcMinBaseFee
    then let* (minFee, _) := calcMinFee networkParams tx in Ok minFee
    else Ok (fee (body tx)) in
  let* pct := NetworkParamsHelper.minCollateralPct networkParams in
  Ok ((fee * pct + 100) ÷ 100).

(** [clearMetadata()] *)
Definition clearMetadata (tx : Tx) : Tx :=
  mkTx (body tx) (witnesses tx) (valid tx) None.

(** [validateSize(params)] *)
Definition validateSize (helper : NetworkParamsHelper.t) (tx : Tx)
  : checked unit :=
  let size := fst (calcSize false tx) in
  andThen (lift (NetworkParamsHelper.maxTxSize helper)) (fun maxTxSize =>
  if maxTxSize <? size then Failed TxTooBig else Passed tt).

(** The two sums of [validateTotalExBudget]. *)
Definition totalMem (rs : list TxRedeemer) : Z :=
  fold_left (fun total r => total + mem (cost r)) rs 0.

Definition totalCpu (rs : list TxRedeemer) : Z :=
  fold_left (fun total r => total + cpu (cost r)) rs 0.

(** [validateTotalExBudget(params, verbose)]: the outcome, and what was
    printed before it. *)
Definition validateTotalExBudget (helper : NetworkParamsHelper.t)
    (verbose : bool) (tx : Tx) : checked unit * list BudgetWarning :=
  let totalMem := totalMem (redeemers (witnesses tx)) in
  let totalCpu := totalCpu (redeemers (witnesses tx)) in
  match NetworkParamsHelper.maxTxExecutionBudget helper with
  | Err e => (Failed (Thrown e), [])
  | Ok (maxMem, maxCpu) =>
      if maxMem <? totalMem then
        (Failed (MemBudgetExceeded totalMem maxMem), [])
      else
        let memWarnings :=
          if verbose && (maxMem ÷ 2 <? totalMem)
          then [MemAboveHalf totalMem maxMem] else [] in
        if maxCpu <? totalCpu then
          (Failed (CpuBudgetExceeded totalCpu maxCpu), memWarnings)
        else
          (Passed tt,
           memWarnings
             ++ (if verbose && (maxCpu ÷ 2 <? totalCpu)
                 then [CpuAboveHalf totalCpu maxCpu] else []))
  end.

(** The body of the loop of [validateOutputs]. *)
Definition validateOutput (config : Config) (helper : NetworkParamsHelper.t)
    (strict : bool) (output : TxOutput) : checked unit :=
  andThen (lift (calcDeposit config helper output)) (fun minLovelace =>
  if Value.lovelace (value output) <? minLovelace then
    Failed (NotEnoughLovelace minLovelace (Value.lovelace (value output)))
  else if strict then lift (Assets_assertSorted (Value.assets (value output)))
  else Passed tt).

(** [validateOutputs(params, strict)] *)
Definition validateOutputs (config : Config) (helper : NetworkParamsHelper.t)
    (strict : bool) (tx : Tx) : checked unit :=
  forEach (validateOutput config helper strict) (outputs (body tx)).

(** [validateInputsOrder()] and [validateRefInputsOrder()] *)
Definition validateInputsOrder (tx : Tx) : checked unit :=
  validateOrder TxInput_compare InputsNotSorted (inputs (body tx)).

Definition validateRefInputsOrder (tx : Tx) : checked unit :=
  validateOrder TxInput_compare RefInputsNotSorted (refInputs (body tx)).

(** [validateMetadata()] *)
Definition validateMetadata (tx : Tx) : checked unit :=
  match metadata tx with
  | Some m =>
      let h := TxMetadata_hash m in
      match metadataHash (body tx) with
      | Some declared =>
          if negb (compareBytes h declared =? 0)
          then Failed MetadataHashMismatch else Passed tt
      | None => Failed MetadataHashNotIncluded
      end
  | None =>
      match metadataHash (body tx) with
      | Some _ => Failed MetadataHashWithoutMetadata
      | None => Passed tt
      end
  end.

(** The set [includedSigners] of [validateSignatures]. *)
Definition includedSigners (tx : Tx) : list string :=
  setOfList (map (fun s => bytesToHex (Signature_pubKeyHash s))
               (signatures (witnesses tx))).

Definition checkSigner (included : list string) (s : bytes) : checked unit :=
  if decide (bytesToHex s ∈ included) then Passed tt
  else Failed (SignerSignatureMissing (bytesToHex s)).

Definition checkUtxoSigner (included : list string) (utxo : TxInput)
  : checked unit :=
  andThen (lift (TxInput_output utxo)) (fun out =>
  match Address_pubKeyHash (address out) with
  | Some pkh =>
      if decide (bytesToHex pkh ∈ included) then Passed tt
      else Failed (InputSignatureMissing (addressBytes (address out)))
  | None => Passed tt
  end).

Definition setValid (v : bool) (tx : Tx) : Tx :=
  mkTx (body tx) (witnesses tx) v (metadata tx).

(** [validateSignatures()]: on success [this.valid] has become [true]. *)
Definition validateSignatures (tx : Tx) : checked Tx :=
  let included := includedSigners tx in
  andThen (forEach (checkSigner included) (signers (body tx))) (fun _ =>
  andThen (forEach (checkUtxoSigner included)
             (inputs (body tx) ++ collateral (body tx))) (fun _ =>
  Passed (setValid true tx))).

End TxFurtherChecks.


(** The sample transaction signed by its one signer. *)
Definition signedTx : Tx_ TxBody TxWitnesses bytes :=
  mkTx sampleBody
    (mkTxWitnesses [mkSignature (replicate 32 1) (replicate 64 6)] [] [] [])
    true None.

Definition stubMoreCollaborators : MoreCollaborators bytes := {|
  TxInput_compare a b :=
    let c := compareBytes (txId (id a)) (txId (id b)) in
    if c =? 0 then utxoIdx (id a) - utxoIdx (id b) else c;
  TxMetadata_hash m := m;
  Signature_pubKeyHash s := take 28 (pubKey s);
  Assets_assertSorted _ := Ok tt
|}.

(** ** Vocabulary of the further properties *)

Section FurtherVocabulary.
Context {M : Type} `{!MoreCollaborators M}.
Context `{ToCbor Address} `{ToCbor Assets.t} `{ToCbor TxOutputDatum}.

Abbreviation Tx := (Tx_ TxBody TxWitnesses M).

(** The output holds the deposit [calcDeposit] asks of it. *)
Definition holdsDeposit (config : Config) (helper : NetworkParamsHelper.t)
    (o : TxOutput) : Prop :=
  exists deposit,
    calcDeposit config helper o = Ok deposit
    /\ deposit <= Value.lovelace (value o).

(** The keys that have signed, as hexadecimal strings. *)
Definition signedKeys (tx : Tx) : list string :=
  map (fun s => bytesToHex (Signature_pubKeyHash s)) (signatures (witnesses tx)).

(** The input carries its output, and when that is locked by a key, the key
    has signed. *)
Definition utxoSigned (tx : Tx) (utxo : TxInput) : Prop :=
  exists out,
    output utxo = Some out
    /\ forall pkh, Address_pubKeyHash (address out) = Some pkh ->
                   bytesToHex pkh ∈ signedKeys tx.

End FurtherVocabulary.


(** ** PubKeyHash: script data and hexadecimal form *)

(** [ByteArrayData.expect(data).bytes] of [@helios-lang/uplc]. *)
Definition ByteArrayData_expect (data : UplcData) : checked bytes :=
  match data with
  | ByteArrayData bs => Passed bs
  | _ => Failed ExpectedByteArrayData
  end.

(** [PubKeyHash.fromUplcData(data)] *)
Definition PubKeyHash_fromUplcData (data : UplcData) : checked PubKeyHash.t :=
  andThen (ByteArrayData_expect data) (fun bs => lift (PubKeyHash.new bs)).

(** [hash.toUplcData()] *)
Definition PubKeyHash_toUplcData (h : PubKeyHash.t) : UplcData :=
  ByteArrayData (PubKeyHash.bytes_ h).

(** [hash.toHex()] *)
Definition PubKeyHash_toHex (h : PubKeyHash.t) : string :=
  bytesToHex (PubKeyHash.bytes_ h).

(** Every element is a byte. *)
Definition isBytes (bs : bytes) : Prop := Forall (fun b => 0 <= b < 256) bs.

(** The value of a hexadecimal digit. *)
Definition hexDigitValue (s : string) : Z :=
  match s with
  | "0" => 0 | "1" => 1 | "2" => 2 | "3" => 3 | "4" => 4 | "5" => 5
  | "6" => 6 | "7" => 7 | "8" => 8 | "9" => 9 | "a" => 10 | "b" => 11
  | "c" => 12 | "d" => 13 | "e" => 14 | _ => 15
  end%string.

(** ** ValidatorHash *)

Module ValidatorHash.

(** The hash with its optional context, which the comparisons do not
    read. *)
Record t (C : Type) : Type := mk {
  bytes_ : bytes;
  bytes_length : Is_true (bool_decide (length bytes_ = 28%nat));
  context : option C
}.
Arguments mk {C} bytes_ bytes_length context.
Arguments bytes_ {C} _.
Arguments context {C} _.

(** [new ValidatorHash(bytes, context)] *)
Definition new {C} (bs : bytes) (ctx : option C) : checked (t C) :=
  match decide (Is_true (bool_decide (length bs = 28%nat))) with
  | left H => Passed (mk bs H ctx)
  | right _ => Failed (BadValidatorHashLength (Z.of_nat (length bs)))
  end.

Definition dummy : t unit := mk (replicate 28 0) I None.

(** [ValidatorHash.fromCbor(bytes)] *)
Definition fromCbor (s : bytes) : checked (t unit) :=
  andThen (lift (Cbor.decodeBytes s)) (fun r => new (fst r) None).

(** [ValidatorHash.fromUplcData(data)] *)
Definition fromUplcData (data : UplcData) : checked (t unit) :=
  andThen (ByteArrayData_expect data) (fun bs => new bs None).

(** [ValidatorHash.compare(a, b)] *)
Definition compare {C D} (a : t C) (b : t D) : Z :=
  compareBytes (bytes_ a) (bytes_ b).

(** [equalsBytes] of codec-utils. *)
Definition equalsBytes (a b : bytes) : bool := compareBytes a b =? 0.

(** [this.isEqual(other)] *)
Definition isEqual {C D} (this : t C) (other : t D) : bool :=
  equalsBytes (bytes_ this) (bytes_ other).

End ValidatorHash.

(** ** Slots and time *)

(** The entries of the network parameters that the conversions between
    slots and time read: [shelleyGenesis.slotLength], [latestTip.slot] and
    [latestTip.time].  Numbers are integers here; the source computes with
    double-precision numbers, which hold integers exactly below [2^53]. *)
Record SlotParams : Type := mkSlotParams {
  shelleyGenesis_slotLength : option Z;
  latestTip_slot : option Z;
  latestTip_time : option Z
}.

Module SlotHelper.

Definition secondsPerSlot (p : SlotParams) : result Z :=
  expectSome (shelleyGenesis_slotLength p)
    (MissingParam "shelleyGenesis.slotLength").

Definition latestTipSlot (p : SlotParams) : result Z :=
  expectSome (latestTip_slot p) (MissingParam "latestTip.slot").

Definition latestTipTime (p : SlotParams) : result Z :=
  expectSome (latestTip_time p) (MissingParam "latestTip.time").

(** [slotToTime(slot)] *)
Definition slotToTime (p : SlotParams) (slot : Z) : result Z :=
  let* tipSlot := latestTipSlot p in
  let slotDiff := slot - tipSlot in
  let* tipTime := latestTipTime p in
  let* seconds := secondsPerSlot p in
  Ok (tipTime + slotDiff * (seconds * 1000)).

(** [Math.round(a / d)] for integers [a] and [d <> 0]: the nearest
    integer, a half rounding up. *)
Definition roundDiv (a d : Z) : Z := (2 * a + d) / (2 * d).

(** [timeToSlot(time)].  Dividing by zero gives an infinity or NaN, which
    [BigInt] refuses. *)
Definition timeToSlot (p : SlotParams) (time : Z) : checked Z :=
  andThen (lift (latestTipTime p)) (fun tipTime =>
  let timeDiff := time - tipTime in
  andThen (lift (latestTipSlot p)) (fun tipSlot =>
  andThen (lift (secondsPerSlot p)) (fun seconds =>
  if 1000 * seconds =? 0 then Failed NotAnInteger
  else Passed (tipSlot + roundDiv timeDiff (1000 * seconds))))).

End SlotHelper.

(** ** Further sample data *)

Definition sampleHash : PubKeyHash.t := PubKeyHash.mk (replicate 28 7) I.

Definition sampleSlotParams : SlotParams :=
  mkSlotParams (Some 1) (Some 4492800) (Some 1596059091000).


(** The sample parameters with the cost model listed in another order. *)
Definition reorderedHelper : NetworkParamsHelper.t :=
  NetworkParamsHelper.mk {|
    txFeeFixed := txFeeFixed sampleParams;
    txFeePerByte := txFeePerByte sampleParams;
    utxoCostPerByte := utxoCostPerByte sampleParams;
    collateralPercentage := collateralPercentage sampleParams;
    maxCollateralInputs_ := maxCollateralInputs_ sampleParams;
    maxTxExecutionUnits_memory := maxTxExecutionUnits_memory sampleParams;
    maxTxExecutionUnits_steps := maxTxExecutionUnits_steps sampleParams;
    maxTxSize_ := maxTxSize_ sampleParams;
    stakeAddressDeposit_ := stakeAddressDeposit_ sampleParams;
    costModels_PlutusScriptV2 :=
      Some [("addInteger-memory", 812);
            ("verifyEd25519Signature-cpu", 57996947);
            ("addInteger-cpu", 205665)]
  |}.


(** ** TxOutput as script data *)

(** The [toUplcData()] / [fromUplcData()] pair of the ledger classes. *)
Class ToUplcData (A : Type) := toUplcData : A -> UplcData.
Class FromUplcData (A : Type) := fromUplcData : UplcData -> checked A.
Global Hint Mode ToUplcData ! : typeclass_instances.
Global Hint Mode FromUplcData ! : typeclass_instances.

(** [ConstrData.assert(data, tag, nFields)] of [@helios-lang/uplc]; the
    fields are returned for the reads that follow it. *)
Definition ConstrData_assert (data : UplcData) (tag : Z) (nFields : nat)
  : checked (list UplcData) :=
  match data with
  | ConstrData t fields =>
      if negb (t =? tag) then Failed (UnexpectedConstrTag tag t)
      else if negb (length fields =? nFields)%nat
      then Failed (UnexpectedConstrFields nFields (length fields))
      else Passed fields
  | _ => Failed ExpectedConstrData
  end.

(** [encodeOptionData(option)] of [@helios-lang/uplc]. *)
Definition encodeOptionData (o : option UplcData) : UplcData :=
  match o with
  | Some d => ConstrData 0 [d]
  | None => ConstrData 1 []
  end.

Section TxOutputData.
Context `{ToUplcData Address, FromUplcData Address}.
Context `{ToUplcData Value.t, FromUplcData Value.t}.
Context `{ToUplcData TxOutputDatum, FromUplcData (option TxOutputDatum)}.

(** [output.toUplcData()] *)
Definition TxOutput_toUplcData (o : TxOutput) : UplcData :=
  ConstrData 0
    [toUplcData (address o);
     toUplcData (value o);
     match datum o with
     | Some d => toUplcData d
     | None => ConstrData 0 []
     end;
     encodeOptionData
       (match refScript o with
        | Some s => Some (ByteArrayData (scriptHash s))
        | None => None
        end)].

(** [data.fields[i]] after the assertion that there are enough fields. *)
Definition field (fields : list UplcData) (i : nat) : UplcData :=
  nth i fields (ConstrData 0 []).

(** [TxOutput.fromUplcData(data)] *)
Definition TxOutput_fromUplcData (data : UplcData) : checked TxOutput :=
  andThen (ConstrData_assert data 0 4) (fun fields =>
  andThen (fromUplcData (field fields 0)) (fun a =>
  andThen (fromUplcData (field fields 1)) (fun v =>
  andThen (fromUplcData (field fields 2)) (fun d =>
  Passed (mkTxOutput a v d None))))).

End TxOutputData.

(** Sample script-data forms: an address as its bytes and credential, a
    value without assets as its lovelace. *)
Definition stubAddressToUplcData : ToUplcData Address := fun a =>
  ConstrData 0
    [ByteArrayData (addressBytes a);
     match spendingCredential a with
     | PubKeyCredential h => ConstrData 0 [ByteArrayData h]
     | ValidatorCredential h => ConstrData 1 [ByteArrayData h]
     end].

Definition stubAddressFromUplcData : FromUplcData Address := fun data =>
  match data with
  | ConstrData 0 [ByteArrayData bs; ConstrData 0 [ByteArrayData h]] =>
      Passed (mkAddress bs (PubKeyCredential h))
  | ConstrData 0 [ByteArrayData bs; ConstrData 1 [ByteArrayData h]] =>
      Passed (mkAddress bs (ValidatorCredential h))
  | _ => Failed ExpectedConstrData
  end.

Definition stubValueToUplcData : ToUplcData Value.t := fun v =>
  IntData (Value.lovelace v).

Definition stubValueFromUplcData : FromUplcData Value.t := fun data =>
  match data with
  | IntData l => Passed (Value.ofLovelace l)
  | _ => Failed ExpectedConstrData
  end.

Definition stubDatumToUplcData : ToUplcData TxOutputDatum := fun d =>
  match d with
  | DatumHash h _ => ConstrData 1 [ByteArrayData h]
  | DatumInline data => ConstrData 2 [data]
  end.

Definition stubDatumFromUplcData : FromUplcData (option TxOutputDatum) :=
  fun data =>
    match data with
    | ConstrData 0 [] => Passed None
    | ConstrData 1 [ByteArrayData h] => Passed (Some (DatumHash h None))
    | ConstrData 2 [inline] => Passed (Some (DatumInline inline))
    | _ => Failed ExpectedConstrData
    end.

(** The sample output with the sample script as reference script. *)
Definition scriptedOutput : TxOutput :=
  mkTxOutput sampleAddress (Value.ofLovelace 3000000) None (Some sampleScript).


(** ** The signers a transaction requires *)

(** The key that locks an input, when the input carries its output and the
    address of that output is locked by a key. *)
Definition utxoKey (utxo : TxInput) : option bytes :=
  match output utxo with
  | Some out => Address_pubKeyHash (address out)
  | None => None
  end.

(** Modelled from the spec: the signers a transaction requires, "every
    required-signer hash and every spending credential on
    inputs/collateral", each key once, in hexadecimal form.
    [TxBody.countUniqueSigners()], which is not part of the sources, stands
    for their number. *)
Definition requiredSignerKeys (b : TxBody) : list string :=
  setOfList
    (map bytesToHex (omap utxoKey (inputs b ++ collateral b) ++ signers b)).

Section SignersNotYetSigning.
Context {M : Type} `{!MoreCollaborators M}.

(** The keys of the signatures present that are not placeholders. *)
Definition signingKeys (w : TxWitnesses) : list string :=
  map (fun s => bytesToHex (Signature_pubKeyHash s))
    (filter (fun s => Signature_isDummy s = false) (signatures w)).

(** The required signers not yet signing. *)
Definition notYetSigning (tx : Tx_ TxBody TxWitnesses M) : list string :=
  filter (fun key => key ∉ signingKeys (witnesses tx))
    (requiredSignerKeys (body tx)).

End SignersNotYetSigning.

(** The sample transaction signed by a key it does not require, its one
    required signer not signing yet, with the least fee the check lets
    pass. *)
Definition strangerSignedTx : Tx_ TxBody TxWitnesses bytes :=
  mkTx
    (mkTxBody [sampleInput 5000000] [] [sampleOutput 3000000] 160045 ∅ [] 
       [replicate 28 1] [] None None None [])
    (mkTxWitnesses [mkSignature (replicate 32 5) (replicate 64 6)] [] [] [])
    false None.


(** ** Reading an encoding back *)

(** The decoder reads the encoding of [a], wherever it stands in a stream,
    as [a'], and [a'] has the encoding of [a].  What the encoding does not
    hold of [a], such as the outputs that the inputs of a body carry, need
    not come back. *)
Definition readsBack {A} `{ToCbor A, FromCbor A} (a a' : A) : Prop :=
  (forall rest, fromCbor (toCbor a ++ rest) = Ok (a', rest))
  /\ toCbor a' = toCbor a.

(** Sample decoders for the sample encoders: the body is encoded as its fee
    alone, and read as a body that holds nothing else; the witnesses are
    read when they hold no signature. *)
Definition stubBodyFromCbor : FromCbor TxBody := fun s =>
  let* ((m, n), rest) := Cbor.decodeDefHead s in
  if m =? 0
  then Ok (mkTxBody [] [] [] n ∅ [] [] [] None None None [], rest)
  else Err (CborError "unexpected body").

Definition stubWitnessesFromCbor : FromCbor TxWitnesses := fun s =>
  match s with
  | 128 :: rest => Ok (mkTxWitnesses [] [] [] [], rest)
  | _ => Err (CborError "unexpected witnesses")
  end.

Definition stubMetadataFromCbor : FromCbor bytes := Cbor.decodeBytes.

(** The sample transaction with metadata. *)
Definition metadataTx : Tx_ TxBody TxWitnesses bytes :=
  mkTx sampleBody sampleWitnesses false (Some [1; 2]).

(** A transaction with two required signers, of whom the second signs. *)
Definition halfSignedTx : Tx_ TxBody TxWitnesses bytes :=
  mkTx
    (mkTxBody [sampleInput 5000000] [] [sampleOutput 3000000] 2000000 ∅ []
       [replicate 28 1; replicate 28 2] [] None None None [])
    (mkTxWitnesses [mkSignature (replicate 32 2) (replicate 64 6)] [] [] [])
    false None.

(** * Properties *)

(** ** The [result] monad *)

Lemma bind_Ok_inv {A B} (r : result A) (k : A -> result B) (b : B) :
  bind r k = Ok b -> exists a, r = Ok a /\ k a = Ok b.
Proof. destruct r as [a|e]; simpl; [eauto | discriminate]. Qed.

Lemma isOk_true {A} (r : result A) : isOk r = true <-> exists a, r = Ok a.
Proof.
  destruct r; simpl; split; eauto; try discriminate.
  intros [a Ha]; discriminate.
Qed.

Lemma expectSome_Ok {A} (o : option A) e a :
  expectSome o e = Ok a <-> o = Some a.
Proof. destruct o; simpl; split; congruence. Qed.

(** ** The two wire shapes of an output *)

Section TxOutputShape.
Context `{ToCbor Address} `{ToCbor Assets.t} `{ToCbor TxOutputDatum}.

Lemma usesTupleForm_spec config o :
  usesTupleForm config o = true <-> compactCondition config o.
Proof.
  unfold usesTupleForm, compactCondition.
  destruct (datum o) as [[h d|d]|], (refScript o) as [s|],
    (STRICT_BABBAGE config); simpl; split; intros Hc;
    try discriminate; try (repeat split; eauto; fail).
  all: destruct Hc as ([Hd|(h' & d' & Hd)] & Hr & Hs);
    try discriminate; try (exfalso; eapply is_Some_None; eauto; fail).
  all: try (rewrite bool_decide_eq_true_2 in *; [discriminate | eauto]).
Qed.

Lemma isTuple_encodeTuple2 a b :
  Cbor.isTuple (Cbor.encodeTuple [a; b]) = true
  /\ Cbor.isObject (Cbor.encodeTuple [a; b]) = false.
Proof. split; reflexivity. Qed.

Lemma isTuple_encodeTuple3 a b c :
  Cbor.isTuple (Cbor.encodeTuple [a; b; c]) = true
  /\ Cbor.isObject (Cbor.encodeTuple [a; b; c]) = false.
Proof. split; reflexivity. Qed.

Lemma isObject_objectFields o :
  Cbor.isObject (Cbor.encodeObjectIKey (objectFields o)) = true
  /\ Cbor.isTuple (Cbor.encodeObjectIKey (objectFields o)) = false.
Proof.
  unfold objectFields.
  destruct (datum o), (refScript o); split; reflexivity.
Qed.

(** C6.  [TxOutput.toCbor] yields the compact tuple (address, value,
    optional datum hash) exactly when the datum is absent or a hash, no
    reference script is present and strict mode is off; otherwise it
    yields the map keyed 0 (address), 1 (value), 2 (datum, when present)
    and 3 (reference script, when present), where entry 3 is tag 24
    (bytes 0xd8 0x18) around the byte string of the tuple
    (version, script bytes).  The two shapes are told apart by their
    first byte. *)
Theorem TxOutput_toCbor_shape (config : Config) (o : TxOutput) :
  let encoded := TxOutput_toCbor config o in
  (Cbor.isTuple encoded = true <-> compactCondition config o)
  /\ (Cbor.isObject encoded = true <-> ~ compactCondition config o)
  /\ (compactCondition config o ->
        encoded =
          Cbor.encodeTuple
            ([toCbor (address o); toCbor (value o)]
               ++ match datum o with
                  | Some (DatumHash h _) => [Cbor.encodeBytes h]
                  | _ => []
                  end))
  /\ (~ compactCondition config o ->
        exists fields,
          encoded = Cbor.encodeObjectIKey fields
          /\ map fst fields =
               [0; 1] ++ (if datum o is Some _ then [2] else [])
                      ++ (if refScript o is Some _ then [3] else [])
          /\ fields !! 0%nat = Some (0, toCbor (address o))
          /\ fields !! 1%nat = Some (1, toCbor (value o))
          /\ (forall d, datum o = Some d -> (2, toCbor d) ∈ fields)
          /\ (forall s, refScript o = Some s ->
                (3, [216; 24]
                      ++ Cbor.encodeBytes
                           (Cbor.encodeTuple
                              [Cbor.encodeInt (plutusVersionTag s);
                               scriptCbor s])) ∈ fields)).
Proof.
  intros encoded. subst encoded. unfold TxOutput_toCbor.
  pose proof (usesTupleForm_spec config o) as Hspec.
  destruct (usesTupleForm config o) eqn:Hform.
  - assert (Hc : compactCondition config o) by (apply Hspec; reflexivity).
    assert (Hshape :
      Cbor.isTuple (Cbor.encodeTuple
        ([toCbor (address o); toCbor (value o)] ++ tupleDatumField o)) = true
      /\ Cbor.isObject (Cbor.encodeTuple
        ([toCbor (address o); toCbor (value o)] ++ tupleDatumField o)) = false).
    { unfold tupleDatumField. destruct (datum o) as [[h d|d]|]; cbn [app].
      - exact (isTuple_encodeTuple3 _ _ _).
      - exact (isTuple_encodeTuple2 _ _).
      - exact (isTuple_encodeTuple2 _ _). }
    destruct Hshape as [Ht Ho].
    split; [tauto|]. split.
    { rewrite Ho. split; [discriminate | tauto]. }
    split; [intros _; reflexivity | tauto].
  - assert (Hc : ~ compactCondition config o).
    { intros Hc. apply Hspec in Hc. discriminate. }
    destruct (isObject_objectFields o) as [Ho Ht].
    split. { rewrite Ht. split; [discriminate | tauto]. }
    split; [tauto|]. split; [tauto|].
    intros _. exists (objectFields o). unfold objectFields.
    split; [reflexivity|].
    split. { destruct (datum o), (refScript o); reflexivity. }
    split; [reflexivity|]. split; [reflexivity|].
    clear Hspec Hform Hc Ho Ht.
    split.
    + intros d ->. apply list_elem_of_In. simpl. tauto.
    + intros s ->. unfold refScriptField.
      change (Cbor.encodeTag 24) with [216; 24].
      apply list_elem_of_In. destruct (datum o); simpl; tauto.
Qed.

End TxOutputShape.

(** ** Round trip of a transaction through CBOR *)

Section TupleDecoding.

Lemma tupleItem_encoded {A} `{CborRoundTrip A} (a : A) (n : Z) rest :
  0 < n ->
  Cbor.tupleItem fromCbor (Cbor.DefFrame n) (toCbor a ++ rest)
  = Ok ((a, Cbor.DefFrame (n - 1)), rest).
Proof.
  intros Hn. unfold Cbor.tupleItem, Cbor.moreItems.
  destruct (Z.ltb_spec 0 n) as [_|]; [|lia].
  rewrite fromCbor_toCbor. reflexivity.
Qed.

Lemma tupleItem_bool (b : bool) (n : Z) rest :
  0 < n ->
  Cbor.tupleItem Cbor.decodeBool (Cbor.DefFrame n) (Cbor.encodeBool b ++ rest)
  = Ok ((b, Cbor.DefFrame (n - 1)), rest).
Proof.
  intros Hn. unfold Cbor.tupleItem, Cbor.moreItems.
  destruct (Z.ltb_spec 0 n) as [_|]; [|lia].
  destruct b; reflexivity.
Qed.

Lemma decodeNullOption_encoded {A} `{CborRoundTrip A} `{!CborNotNull A}
    (o : option A) rest :
  Cbor.decodeNullOption fromCbor (Cbor.encodeNullOption (toCbor <$> o) ++ rest)
  = Ok (o, rest).
Proof.
  unfold Cbor.decodeNullOption. destruct o as [a|]; simpl.
  - rewrite toCbor_not_null, fromCbor_toCbor. reflexivity.
  - reflexivity.
Qed.

Lemma tupleItem_nullOption {A} `{CborRoundTrip A} `{!CborNotNull A}
    (o : option A) (n : Z) rest :
  0 < n ->
  Cbor.tupleItem (Cbor.decodeNullOption fromCbor) (Cbor.DefFrame n)
    (Cbor.encodeNullOption (toCbor <$> o) ++ rest)
  = Ok ((o, Cbor.DefFrame (n - 1)), rest).
Proof.
  intros Hn. unfold Cbor.tupleItem, Cbor.moreItems.
  destruct (Z.ltb_spec 0 n) as [_|]; [|lia].
  rewrite decodeNullOption_encoded. reflexivity.
Qed.

Lemma decodeListStart_four rest :
  Cbor.decodeListStart (Cbor.encodeDefHead 4 (Z.of_nat 4) ++ rest)
  = Ok (Cbor.DefFrame 4, rest).
Proof. reflexivity. Qed.

End TupleDecoding.

Section TxRoundTrip.
Context {B W M : Type}.
Context `{CborRoundTrip B} `{CborRoundTrip W} `{CborRoundTrip M}.
Context `{!CborNotNull M}.

(** Decoding reads all four fields back, the flag included. *)
Lemma Tx_fromCbor_wireTx (b : B) (w : W) (flag : bool) (m : option M) :
  Tx_fromCbor (wireTx b w flag m) = Ok (mkTx b w flag m).
Proof.
  unfold Tx_fromCbor, wireTx, Cbor.decodeTuple4, Cbor.encodeTuple,
    Cbor.encodeDefList.
  cbn [length concat].
  rewrite decodeListStart_four. cbn [bind].
  rewrite tupleItem_encoded by lia. cbn [bind].
  rewrite tupleItem_encoded by lia. cbn [bind].
  rewrite tupleItem_bool by lia. cbn [bind].
  rewrite tupleItem_nullOption by lia. cbn [bind].
  reflexivity.
Qed.

(** Encoding writes the constant [true] where the flag stands. *)
Lemma Tx_toCbor_wireTx (tx : Tx_ B W M) :
  Tx_toCbor false tx = wireTx (body tx) (witnesses tx) true (metadata tx).
Proof. reflexivity. Qed.

Lemma wireTx_flag_inj (b : B) (w : W) (f1 f2 : bool) (m : option M) :
  wireTx b w f1 m = wireTx b w f2 m -> f1 = f2.
Proof.
  unfold wireTx, Cbor.encodeTuple, Cbor.encodeDefList. intros Heq.
  apply app_inv_head in Heq. cbn [concat] in Heq.
  do 2 apply app_inv_head in Heq.
  destruct f1, f2; try reflexivity; discriminate.
Qed.

(** The round trip holds for what [Tx.toCbor] itself produces: decoding
    gives the transaction back with the flag set, and encoding that gives
    the same bytes. *)
Lemma Tx_roundtrip_of_toCbor (tx : Tx_ B W M) :
  exists tx' : Tx_ B W M,
    Tx_fromCbor (Tx_toCbor false tx) = Ok tx'
    /\ tx' = mkTx (body tx) (witnesses tx) true (metadata tx)
    /\ Tx_toCbor false tx' = Tx_toCbor false tx.
Proof.
  eexists. rewrite Tx_toCbor_wireTx, Tx_fromCbor_wireTx.
  split; [reflexivity|]. split; reflexivity.
Qed.

(** The encoding for the fee calculation, a 3-tuple, is for measuring
    only: [Tx.fromCbor] does not read it back. *)
Lemma Tx_fromCbor_fee_encoding (tx : Tx_ B W M) :
  isOk (Tx_fromCbor (B:=B) (W:=W) (M:=M) (Tx_toCbor true tx)) = false.
Proof.
  unfold Tx_fromCbor, Tx_toCbor, Cbor.decodeTuple4, Cbor.encodeTuple,
    Cbor.encodeDefList.
  cbn [length concat].
  change (Cbor.decodeListStart (Cbor.encodeDefHead 4 (Z.of_nat 3) ++ ?x))
    with (Ok (Cbor.DefFrame 3, x) : result (Cbor.ListFrame * bytes)).
  cbn [bind].
  rewrite tupleItem_encoded by lia. cbn [bind].
  rewrite tupleItem_encoded by lia. cbn [bind].
  unfold Cbor.tupleItem at 1. cbn [Cbor.moreItems].
  change (0 <? 3 - 1 - 1) with true. cbv iota.
  destruct (Cbor.decodeBool _) as [[flag rest]|e]; [|reflexivity].
  cbn [bind]. reflexivity.
Qed.

(** C1 (the code departs from the claim).  A wire transaction whose
    valid-flag is [false] decodes, with [valid = false], and encoding the
    decoded transaction gives other bytes: the third item has become
    [true]. *)
Theorem Tx_roundtrip_false_flag (b : B) (w : W) (m : option M) :
  exists tx : Tx_ B W M,
    Tx_fromCbor (wireTx b w false m) = Ok tx
    /\ valid tx = false
    /\ Tx_toCbor false tx = wireTx b w true m
    /\ Tx_toCbor false tx <> wireTx b w false m.
Proof.
  exists (mkTx b w false m). rewrite Tx_fromCbor_wireTx.
  split; [reflexivity|]. split; [reflexivity|].
  split; [reflexivity|].
  rewrite Tx_toCbor_wireTx. cbn [body witnesses metadata].
  intros Heq. apply wireTx_flag_inj in Heq. discriminate.
Qed.

End TxRoundTrip.

(** ** [PubKeyHash] is a lawful codec *)

Section PubKeyHashCodec.

Lemma PubKeyHash_length (h : PubKeyHash.t) :
  length (PubKeyHash.bytes_ h) = 28%nat.
Proof.
  destruct h as [bs Hlen]. simpl.
  apply bool_decide_unpack in Hlen. exact Hlen.
Qed.

Lemma PubKeyHash_eq (h1 h2 : PubKeyHash.t) :
  PubKeyHash.bytes_ h1 = PubKeyHash.bytes_ h2 -> h1 = h2.
Proof.
  destruct h1 as [b1 H1], h2 as [b2 H2]. simpl. intros ->.
  f_equal. apply proof_irrel.
Qed.

Lemma PubKeyHash_new_bytes (h : PubKeyHash.t) :
  PubKeyHash.new (PubKeyHash.bytes_ h) = Ok h.
Proof.
  unfold PubKeyHash.new.
  destruct (decide _) as [Hl|Hn].
  - f_equal. apply PubKeyHash_eq. reflexivity.
  - exfalso. apply Hn. apply bool_decide_pack, PubKeyHash_length.
Qed.

(** The constructor rejects every other length. *)
Lemma PubKeyHash_new_Ok (bs : bytes) (h : PubKeyHash.t) :
  PubKeyHash.new bs = Ok h -> length bs = 28%nat /\ PubKeyHash.bytes_ h = bs.
Proof.
  unfold PubKeyHash.new. destruct (decide _) as [Hl|Hn]; [|discriminate].
  intros [= <-]. split; [|reflexivity].
  apply bool_decide_unpack in Hl. exact Hl.
Qed.

Lemma decodeBytes_28 (bs rest : bytes) :
  length bs = 28%nat ->
  Cbor.decodeBytes (Cbor.encodeBytes bs ++ rest) = Ok (bs, rest).
Proof.
  intros Hlen. unfold Cbor.encodeBytes. rewrite Hlen.
  change (Cbor.encodeDefHead 2 (Z.of_nat 28)) with [88; 28].
  cbn [app]. unfold Cbor.decodeBytes.
  change (Cbor.decodeDefHead (88 :: 28 :: bs ++ rest))
    with (Ok ((2, 28), bs ++ rest) : result (Z * Z * bytes)).
  cbn [bind]. change (2 =? 2) with true. cbv iota.
  unfold Cbor.shiftMany. change (Z.to_nat 28) with 28%nat.
  rewrite length_app, Hlen.
  destruct (Nat.leb_spec 28 (28 + length rest)) as [_|]; [|lia].
  rewrite <- Hlen, take_app_length, drop_app_length. reflexivity.
Qed.

Global Instance PubKeyHash_roundtrip : CborRoundTrip PubKeyHash.t.
Proof.
  intros h rest. unfold fromCbor, toCbor, PubKeyHash_FromCbor,
    PubKeyHash_ToCbor, PubKeyHash.fromCbor, PubKeyHash.toCbor.
  rewrite decodeBytes_28 by apply PubKeyHash_length. cbn [bind].
  rewrite PubKeyHash_new_bytes. reflexivity.
Qed.

Global Instance PubKeyHash_not_null : CborNotNull PubKeyHash.t.
Proof.
  intros h rest. unfold toCbor, PubKeyHash_ToCbor, PubKeyHash.toCbor,
    Cbor.encodeBytes.
  rewrite PubKeyHash_length. reflexivity.
Qed.

End PubKeyHashCodec.

(** A wire transaction with the flag [false], with key hashes standing for
    body, witnesses and metadata. *)
Lemma Tx_roundtrip_false_flag_witness :
  exists tx : Tx_ PubKeyHash.t PubKeyHash.t PubKeyHash.t,
    Tx_fromCbor (wireTx PubKeyHash.dummy PubKeyHash.dummy false
                   (Some PubKeyHash.dummy)) = Ok tx
    /\ valid tx = false
    /\ Tx_toCbor false tx
       = wireTx PubKeyHash.dummy PubKeyHash.dummy true (Some PubKeyHash.dummy)
    /\ Tx_toCbor false tx
       <> wireTx PubKeyHash.dummy PubKeyHash.dummy false
            (Some PubKeyHash.dummy).
Proof.
  exact (Tx_roundtrip_false_flag PubKeyHash.dummy PubKeyHash.dummy
           (Some PubKeyHash.dummy)).
Defined.

(** ** Sets of hexadecimal keys *)

Section SetOfList.

Local Abbreviation insertNew :=
  (fun (acc : list string) (x : string) =>
     if decide (x ∈ acc) then acc else acc ++ [x]).

Lemma fold_insertNew_elem (l acc : list string) (x : string) :
  x ∈ fold_left insertNew l acc <-> x ∈ acc \/ x ∈ l.
Proof.
  revert acc. induction l as [|y l IH]; intros acc; cbn [fold_left].
  - split; [auto | intros [Hx|Hx]; [exact Hx | inversion Hx]].
  - rewrite IH. case_decide as Hy.
    + rewrite elem_of_cons. split; [tauto|].
      intros [Hx|[->|Hx]]; auto.
    + rewrite elem_of_app, list_elem_of_singleton, elem_of_cons. tauto.
Qed.

Lemma fold_insertNew_NoDup (l acc : list string) :
  NoDup acc -> NoDup (fold_left insertNew l acc).
Proof.
  revert acc. induction l as [|y l IH]; intros acc Hacc; cbn [fold_left];
    [exact Hacc|].
  apply IH. case_decide as Hy; [exact Hacc|].
  apply NoDup_app. split; [exact Hacc|]. split.
  - intros x Hx Hx'. apply list_elem_of_singleton in Hx'. subst x. auto.
  - apply NoDup_singleton.
Qed.

Lemma fold_insertNew_length_le (l acc : list string) :
  (length (fold_left insertNew l acc) <= length acc + length l)%nat.
Proof.
  revert acc. induction l as [|y l IH]; intros acc; cbn [fold_left length];
    [lia|].
  case_decide.
  - specialize (IH acc). lia.
  - specialize (IH (acc ++ [y])). rewrite length_app in IH.
    cbn [length] in IH. lia.
Qed.

Lemma fold_insertNew_length (l acc : list string) :
  NoDup acc ->
  (length (fold_left insertNew l acc) = (length acc + length l)%nat
   <-> NoDup (acc ++ l)).
Proof.
  revert acc. induction l as [|y l IH]; intros acc Hacc;
    cbn [fold_left length].
  - rewrite app_nil_r. split; [intros _; exact Hacc | lia].
  - case_decide as Hy.
    + pose proof (fold_insertNew_length_le l acc). split; [lia|].
      intros Hnd. apply NoDup_app in Hnd. destruct Hnd as (_ & Hdisj & _).
      exfalso. apply (Hdisj y Hy). left.
    + assert (Hacc' : NoDup (acc ++ [y])).
      { apply NoDup_app. split; [exact Hacc|]. split.
        - intros x Hx Hx'. apply list_elem_of_singleton in Hx'. subst x. auto.
        - apply NoDup_singleton. }
      specialize (IH (acc ++ [y]) Hacc').
      rewrite length_app in IH. cbn [length] in IH.
      rewrite <- app_assoc in IH. cbn [app] in IH.
      rewrite <- IH. lia.
Qed.

(** A [Set] holds what the array holds. *)
Lemma elem_of_setOfList (l : list string) (x : string) :
  x ∈ setOfList l <-> x ∈ l.
Proof.
  unfold setOfList. rewrite fold_insertNew_elem. split; [|auto].
  intros [Hx|Hx]; [inversion Hx | exact Hx].
Qed.

Lemma setOfList_NoDup (l : list string) : NoDup (setOfList l).
Proof. unfold setOfList. apply fold_insertNew_NoDup. constructor. Qed.

(** It has the size of the array exactly when the array has no
    duplicate. *)
Lemma setOfList_length (l : list string) :
  length (setOfList l) = length l <-> NoDup l.
Proof.
  unfold setOfList.
  rewrite <- (fold_insertNew_length l []) by constructor. reflexivity.
Qed.

End SetOfList.

(** ** Size for the fee: placeholders go in and come out *)

Section Placeholders.

Lemma Signature_isDummy_dummy : Signature_isDummy Signature_dummy = true.
Proof. reflexivity. Qed.

Lemma dropDummies_replicate (n : nat) (sigs : list Signature) :
  dropDummies n (replicate n Signature_dummy ++ sigs) = sigs.
Proof.
  induction n as [|n IH]; simpl.
  - destruct sigs; reflexivity.
  - exact IH.
Qed.

Lemma setSignatures_id (w : TxWitnesses) : setSignatures (signatures w) w = w.
Proof. destruct w; reflexivity. Qed.

(** Removing [n] placeholders undoes adding [n] placeholders. *)
Lemma removeDummySignatures_addDummySignatures (n : Z) (w : TxWitnesses) :
  removeDummySignatures n (addDummySignatures n w) = w.
Proof.
  unfold removeDummySignatures, addDummySignatures, setSignatures. simpl.
  rewrite reverse_app, reverse_replicate, dropDummies_replicate,
    reverse_involutive.
  destruct w; reflexivity.
Qed.

(** The placeholders do not count as signers signing. *)
Lemma countNonDummySignatures_addDummySignatures (n : Z) (w : TxWitnesses) :
  countNonDummySignatures (addDummySignatures n w) = countNonDummySignatures w.
Proof.
  unfold countNonDummySignatures, addDummySignatures, setSignatures. simpl.
  rewrite filter_app. f_equal.
  assert (Hnil : forall k, filter (fun s => Signature_isDummy s = false)
                             (replicate k Signature_dummy) = []).
  { induction k as [|k IH]; [reflexivity|].
    rewrite replicate_S, filter_cons_False; [exact IH|].
    rewrite Signature_isDummy_dummy. discriminate. }
  rewrite Hnil, length_app. simpl. lia.
Qed.

End Placeholders.

Section TxFeeProperties.
Context {M : Type} `{ToCbor TxBody, ToCbor TxWitnesses, ToCbor M}.
Context `{Collaborators} `{!MoreCollaborators M}.

Abbreviation Tx := (Tx_ TxBody TxWitnesses M).

(** Of the keys of a set, those outside a part of it. *)
Lemma length_filter_outside (required signing : list string) :
  NoDup required ->
  NoDup signing ->
  (forall key, key ∈ signing -> key ∈ required) ->
  length (filter (fun key => key ∉ signing) required)
  = (length required - length signing)%nat.
Proof.
  intros Hr Hs Hsub.
  pose proof (filter_app_complement (fun key => key ∈ signing) required)
    as Hsplit.
  apply Permutation_length in Hsplit. rewrite length_app in Hsplit.
  assert (Hin : filter (fun key => key ∈ signing) required ≡ₚ signing).
  { apply NoDup_Permutation; [apply NoDup_filter, Hr | exact Hs|].
    intros key. rewrite list_elem_of_filter. split; [tauto|].
    intros Hk. split; [exact Hk | apply Hsub, Hk]. }
  apply Permutation_length in Hin. rewrite Hin in Hsplit. lia.
Qed.

Lemma countNonDummySignatures_signingKeys (w : TxWitnesses) :
  countNonDummySignatures w = Z.of_nat (length (signingKeys w)).
Proof.
  unfold countNonDummySignatures, signingKeys. rewrite length_map.
  reflexivity.
Qed.

Lemma setWitnesses_id (tx : Tx) : setWitnesses (witnesses tx) tx = tx.
Proof. destruct tx; reflexivity. Qed.

Lemma calcSize_forFee (tx : Tx) :
  calcSize true tx
  = (Z.of_nat (length (Tx_toCbor true (withPlaceholders tx))), tx).
Proof.
  unfold calcSize, withPlaceholders. f_equal.
  unfold setWitnesses at 1. cbn [body witnesses valid metadata setWitnesses].
  rewrite removeDummySignatures_addDummySignatures.
  destruct tx; reflexivity.
Qed.

(** C10.  [calcSize(true)] encodes the transaction with one placeholder per
    missing signature appended to the signatures, and returns with the
    transaction as it was: the same signature list, and the same bytes from
    a later [toCbor], with either flag. *)
Theorem calcSize_forFee_leaves_tx_unchanged (tx : Tx) :
  let n := countMissingSignatures tx in
  let '(size, tx') := calcSize true tx in
  signatures (witnesses (withPlaceholders tx))
    = signatures (witnesses tx) ++ replicate (Z.to_nat n) Signature_dummy
  /\ size = Z.of_nat (length (Tx_toCbor true (withPlaceholders tx)))
  /\ tx' = tx
  /\ signatures (witnesses tx') = signatures (witnesses tx)
  /\ forall forFeeCalculation,
       Tx_toCbor forFeeCalculation tx' = Tx_toCbor forFeeCalculation tx.
Proof.
  intros n. rewrite calcSize_forFee.
  repeat split; reflexivity.
Qed.


End TxFeeProperties.


(** ** Arithmetic of asset ledgers *)

Section AssetsArithmetic.
Variable op : Z -> Z -> Z.
Hypothesis op_0_0 : op 0 0 = 0.

Lemma mergeTokens_lookup (a b : gmap bytes Z) (name : bytes) :
  default 0 (Assets.mergeTokens op a b !! name)
  = op (default 0 (a !! name)) (default 0 (b !! name)).
Proof.
  unfold Assets.mergeTokens. rewrite lookup_merge.
  destruct (a !! name) as [x|], (b !! name) as [y|]; simpl;
    [ case_decide; simpl; congruence ..
    | symmetry; exact op_0_0 ].
Qed.

Lemma mergeTokens_nonzero (a b : gmap bytes Z) (name : bytes) (q : Z) :
  Assets.mergeTokens op a b !! name = Some q -> q <> 0.
Proof.
  unfold Assets.mergeTokens. rewrite lookup_merge.
  destruct (a !! name) as [x|], (b !! name) as [y|]; simpl;
    try discriminate; case_decide; congruence.
Qed.

Lemma tokens_empty_lookup (ts : gmap bytes Z) (name : bytes) :
  ts = ∅ -> default 0 (ts !! name) = 0.
Proof. intros ->. rewrite lookup_empty. reflexivity. Qed.

Lemma getQuantity_alt (a : Assets.t) (policy name : bytes) :
  Assets.getQuantity a policy name
  = default 0 (default ∅ (a !! policy) !! name).
Proof.
  unfold Assets.getQuantity. destruct (a !! policy); simpl; [reflexivity|].
  rewrite lookup_empty. reflexivity.
Qed.

(** The quantity of an asset in a merge is the merge of the quantities. *)
Lemma getQuantity_applyBinOp (a b : Assets.t) (policy name : bytes) :
  Assets.getQuantity (Assets.applyBinOp op a b) policy name
  = op (Assets.getQuantity a policy name) (Assets.getQuantity b policy name).
Proof.
  rewrite !getQuantity_alt. unfold Assets.applyBinOp. rewrite lookup_merge.
  pose proof (mergeTokens_lookup (default ∅ (a !! policy))
                (default ∅ (b !! policy)) name) as Hm.
  destruct (a !! policy) as [ta|] eqn:Ha, (b !! policy) as [tb|] eqn:Hb;
    simpl in *.
  1-3: case_decide as He; simpl;
       [ rewrite <- Hm, He, !lookup_empty; reflexivity | exact Hm ].
  rewrite !lookup_empty. simpl. congruence.
Qed.

(** A merge leaves no zero entry and no empty policy. *)
Lemma applyBinOp_normalized (a b : Assets.t) :
  Assets.normalized (Assets.applyBinOp op a b).
Proof.
  intros policy ts. unfold Assets.applyBinOp. rewrite lookup_merge.
  destruct (a !! policy) as [ta|], (b !! policy) as [tb|]; simpl;
    try discriminate.
  all: case_decide as He; [discriminate|]; intros [= <-];
       split; [exact He | intros name q; apply mergeTokens_nonzero].
Qed.

End AssetsArithmetic.

Lemma normalized_isZero (a : Assets.t) :
  Assets.normalized a ->
  (Assets.isZero a = true <-> forall policy name, Assets.getQuantity a policy name = 0).
Proof.
  intros Hn. unfold Assets.isZero. rewrite bool_decide_eq_true. split.
  - intros -> policy name. unfold Assets.getQuantity.
    rewrite lookup_empty. reflexivity.
  - intros Hz. apply map_empty. intros policy.
    destruct (a !! policy) as [ts|] eqn:Hp; [|reflexivity].
    exfalso. destruct (Hn policy ts Hp) as [Hne Hnz].
    apply map_choose in Hne. destruct Hne as (name & q & Hq).
    specialize (Hz policy name). unfold Assets.getQuantity in Hz.
    rewrite Hp in Hz. simpl in Hz. rewrite Hq in Hz. simpl in Hz.
    exact (Hnz name q Hq Hz).
Qed.

Lemma empty_normalized : Assets.normalized (∅ : Assets.t).
Proof. intros policy ts. rewrite lookup_empty. discriminate. Qed.

Lemma getQuantity_add (a b : Assets.t) (policy name : bytes) :
  Assets.getQuantity (Assets.add a b) policy name
  = Assets.getQuantity a policy name + Assets.getQuantity b policy name.
Proof. apply getQuantity_applyBinOp. reflexivity. Qed.

Lemma getQuantity_subtract (a b : Assets.t) (policy name : bytes) :
  Assets.getQuantity (Assets.subtract a b) policy name
  = Assets.getQuantity a policy name - Assets.getQuantity b policy name.
Proof. apply getQuantity_applyBinOp. reflexivity. Qed.

Lemma getQuantity_empty (policy name : bytes) :
  Assets.getQuantity (∅ : Assets.t) policy name = 0.
Proof. unfold Assets.getQuantity. rewrite lookup_empty. reflexivity. Qed.

(** ** Conservation of value *)

Section Conservation.
Context {M : Type} `{Collaborators}.

Abbreviation Tx := (Tx_ TxBody TxWitnesses M).

Lemma foldlM_addInputValue (ins : list TxInput) (v0 : Value.t) :
  foldlM addInputValue ins v0
  = match inputValues ins with
    | Some vs => Ok (fold_left (fun prev v => Value.add v prev) vs v0)
    | None => Err InputNotResolved
    end.
Proof.
  revert v0. induction ins as [|i rest IH]; intros v0; [reflexivity|].
  cbn [foldlM inputValues]. unfold addInputValue at 1.
  unfold TxInput_value, TxInput_output.
  destruct (output i) as [o|]; cbn [expectSome bind]; [|reflexivity].
  rewrite IH. destruct (inputValues rest); reflexivity.
Qed.

Lemma validateConservation_run (helper : NetworkParamsHelper.t) (tx : Tx)
    (deposit : Z) (ins : list Value.t) :
  stakeAddressDeposit_ (NetworkParamsHelper.params helper) = Some deposit ->
  inputValues (inputs (body tx)) = Some ins ->
  validateConservation helper tx
  = let v := conservedValue deposit (body tx) ins in
    if negb (Value.lovelace v =? 0) then
      Err (NotBalancedLovelace (Value.lovelace v))
    else if negb (Assets.isZero (Value.assets v)) then Err NotBalancedAssets
    else Ok tt.
Proof.
  intros Hd Hi. unfold validateConservation,
    NetworkParamsHelper.stakeAddressDeposit.
  rewrite Hd. cbn [expectSome bind].
  rewrite foldlM_addInputValue, Hi. cbn [bind]. reflexivity.
Qed.

Lemma validateConservation_Ok_inv (helper : NetworkParamsHelper.t) (tx : Tx) :
  validateConservation helper tx = Ok tt ->
  exists deposit ins,
    stakeAddressDeposit_ (NetworkParamsHelper.params helper) = Some deposit
    /\ inputValues (inputs (body tx)) = Some ins.
Proof.
  unfold validateConservation, NetworkParamsHelper.stakeAddressDeposit.
  destruct (stakeAddressDeposit_ _) as [d|]; [|discriminate].
  cbn [expectSome bind]. rewrite foldlM_addInputValue.
  destruct (inputValues _) as [vs|]; [|discriminate].
  intros _. eauto.
Qed.

(** *** The base unit *)

Lemma lovelace_fold_inputs (vs : list Value.t) (v0 : Value.t) :
  Value.lovelace (fold_left (fun prev v => Value.add v prev) vs v0)
  = Value.lovelace v0 + sumZ (map Value.lovelace vs).
Proof.
  revert v0. induction vs as [|v vs IH]; intros v0; simpl; [lia|].
  rewrite IH. simpl. lia.
Qed.

Lemma lovelace_fold_certs (f : DCert -> bool) (g : Value.t -> Value.t)
    (d : Z) (cs : list DCert) (v0 : Value.t) :
  (forall v, Value.lovelace (g v) = Value.lovelace v + d) ->
  Value.lovelace (fold_left (fun prev c => if f c then g prev else prev) cs v0)
  = Value.lovelace v0 + d * countCerts f cs.
Proof.
  intros Hg. revert v0. unfold countCerts.
  induction cs as [|c cs IH]; intros v0; simpl; [lia|].
  rewrite IH. destruct (f c); [rewrite Hg|]; lia.
Qed.

Lemma lovelace_fold_outputs (outs : list TxOutput) (v0 : Value.t) :
  Value.lovelace (fold_left (fun prev out => Value.subtract prev (value out))
                    outs v0)
  = Value.lovelace v0 - sumZ (map (fun o => Value.lovelace (value o)) outs).
Proof.
  revert v0. induction outs as [|o outs IH]; intros v0; simpl; [lia|].
  rewrite IH. simpl. lia.
Qed.

Lemma conservedValue_lovelace (deposit : Z) (b : TxBody) (ins : list Value.t) :
  Value.lovelace (conservedValue deposit b ins) = netLovelace deposit b ins.
Proof.
  unfold conservedValue, netLovelace.
  rewrite (lovelace_fold_certs isRegister
             (fun v => Value.subtract v (Value.ofLovelace deposit)) (- deposit))
    by (intros v; simpl; lia).
  rewrite lovelace_fold_outputs. cbn [Value.add Value.subtract Value.lovelace
    Value.ofLovelace].
  rewrite (lovelace_fold_certs isDeregister
             (fun v => Value.add v (Value.ofLovelace deposit)) deposit)
    by (intros v; simpl; lia).
  rewrite lovelace_fold_inputs. simpl. lia.
Qed.

(** *** The assets *)

Lemma quantity_fold_inputs (vs : list Value.t) (v0 : Value.t) (p n : bytes) :
  Assets.getQuantity
    (Value.assets (fold_left (fun prev v => Value.add v prev) vs v0)) p n
  = Assets.getQuantity (Value.assets v0) p n
    + sumZ (map (fun v => Assets.getQuantity (Value.assets v) p n) vs).
Proof.
  revert v0. induction vs as [|v vs IH]; intros v0; simpl; [lia|].
  rewrite IH. simpl. rewrite getQuantity_add. lia.
Qed.

Lemma quantity_fold_certs (f : DCert -> bool) (g : Value.t -> Value.t)
    (cs : list DCert) (v0 : Value.t) (p n : bytes) :
  (forall v, Assets.getQuantity (Value.assets (g v)) p n
             = Assets.getQuantity (Value.assets v) p n) ->
  Assets.getQuantity
    (Value.assets (fold_left (fun prev c => if f c then g prev else prev) cs v0))
    p n
  = Assets.getQuantity (Value.assets v0) p n.
Proof.
  intros Hg. revert v0.
  induction cs as [|c cs IH]; intros v0; simpl; [reflexivity|].
  rewrite IH. destruct (f c); [apply Hg | reflexivity].
Qed.

Lemma quantity_fold_outputs (outs : list TxOutput) (v0 : Value.t) (p n : bytes) :
  Assets.getQuantity
    (Value.assets (fold_left (fun prev out => Value.subtract prev (value out))
                     outs v0)) p n
  = Assets.getQuantity (Value.assets v0) p n
    - sumZ (map (fun o => Assets.getQuantity (Value.assets (value o)) p n) outs).
Proof.
  revert v0. induction outs as [|o outs IH]; intros v0; simpl; [lia|].
  rewrite IH. simpl. rewrite getQuantity_subtract. lia.
Qed.

Lemma conservedValue_quantity (deposit : Z) (b : TxBody) (ins : list Value.t)
    (p n : bytes) :
  Assets.getQuantity (Value.assets (conservedValue deposit b ins)) p n
  = netQuantity b ins p n.
Proof.
  unfold conservedValue, netQuantity.
  rewrite (quantity_fold_certs isRegister
             (fun v => Value.subtract v (Value.ofLovelace deposit)))
    by (intros v; simpl; rewrite getQuantity_subtract, getQuantity_empty; lia).
  rewrite quantity_fold_outputs.
  cbn [Value.add Value.subtract Value.assets Value.ofLovelace].
  rewrite getQuantity_add, getQuantity_subtract, getQuantity_empty.
  rewrite (quantity_fold_certs isDeregister
             (fun v => Value.add v (Value.ofLovelace deposit)))
    by (intros v; simpl; rewrite getQuantity_add, getQuantity_empty; lia).
  rewrite quantity_fold_inputs. simpl. rewrite getQuantity_empty. lia.
Qed.

Lemma normalized_fold {X} (step : Value.t -> X -> Value.t) (xs : list X)
    (v0 : Value.t) :
  (forall v x, Assets.normalized (Value.assets v) ->
               Assets.normalized (Value.assets (step v x))) ->
  Assets.normalized (Value.assets v0) ->
  Assets.normalized (Value.assets (fold_left step xs v0)).
Proof.
  intros Hstep. revert v0.
  induction xs as [|x xs IH]; intros v0 Hv; simpl; [exact Hv|].
  apply IH, Hstep, Hv.
Qed.

Lemma conservedValue_normalized (deposit : Z) (b : TxBody)
    (ins : list Value.t) :
  Assets.normalized (Value.assets (conservedValue deposit b ins)).
Proof.
  unfold conservedValue.
  apply normalized_fold.
  { intros v c Hv. destruct (isRegister c); [|exact Hv].
    apply applyBinOp_normalized. }
  apply normalized_fold.
  { intros v o Hv. apply applyBinOp_normalized. }
  apply applyBinOp_normalized.
Qed.

(** The check in terms of the net quantities. *)
Lemma validateConservation_net (helper : NetworkParamsHelper.t) (tx : Tx)
    (deposit : Z) (ins : list Value.t) :
  stakeAddressDeposit_ (NetworkParamsHelper.params helper) = Some deposit ->
  inputValues (inputs (body tx)) = Some ins ->
  (netLovelace deposit (body tx) ins <> 0 ->
     validateConservation helper tx
     = Err (NotBalancedLovelace (netLovelace deposit (body tx) ins)))
  /\ (netLovelace deposit (body tx) ins = 0 ->
      (forall p n, netQuantity (body tx) ins p n = 0) ->
      validateConservation helper tx = Ok tt)
  /\ (netLovelace deposit (body tx) ins = 0 ->
      ~ (forall p n, netQuantity (body tx) ins p n = 0) ->
      validateConservation helper tx = Err NotBalancedAssets).
Proof.
  intros Hd Hi. rewrite (validateConservation_run helper tx deposit ins Hd Hi).
  cbv zeta. rewrite conservedValue_lovelace.
  pose proof (normalized_isZero _ (conservedValue_normalized deposit (body tx) ins))
    as Hz.
  split; [|split].
  - intros Hne. destruct (Z.eqb_spec (netLovelace deposit (body tx) ins) 0);
      [contradiction | reflexivity].
  - intros He Hq. rewrite He. simpl.
    replace (Assets.isZero _) with true; [reflexivity|].
    symmetry. apply Hz. intros p n. rewrite conservedValue_quantity. apply Hq.
  - intros He Hq. rewrite He. simpl.
    destruct (Assets.isZero _) eqn:Hzero; [|reflexivity].
    exfalso. apply Hq. intros p n.
    rewrite <- (conservedValue_quantity deposit).
    apply Hz. reflexivity.
Qed.

Lemma sumZ_insert {X} (f : X -> Z) (l : list X) (i : nat) (x y : X) :
  l !! i = Some x ->
  sumZ (map f (<[i:=y]> l)) = sumZ (map f l) - f x + f y.
Proof.
  revert i. induction l as [|a l IH]; intros [|i] Hl; try discriminate.
  - injection Hl as ->. simpl. lia.
  - simpl in *. rewrite (IH i Hl). lia.
Qed.

(** C3.  [validateConservation] passes exactly when the deposit parameter
    is there, every input carries its output, and
    sum(inputs) + refunds of deregistrations - fee + minted - sum(outputs)
    - deposits of registrations is zero in lovelace and in every asset.
    When it passes, changing the lovelace of any one output by 1, up or
    down, makes it fail. *)
Theorem validateConservation_spec (helper : NetworkParamsHelper.t) (tx : Tx) :
  (validateConservation helper tx = Ok tt <->
     exists deposit ins,
       stakeAddressDeposit_ (NetworkParamsHelper.params helper) = Some deposit
       /\ inputValues (inputs (body tx)) = Some ins
       /\ netLovelace deposit (body tx) ins = 0
       /\ forall policy name, netQuantity (body tx) ins policy name = 0)
  /\ (validateConservation helper tx = Ok tt ->
      forall (i : nat) (o : TxOutput) (d : Z),
        outputs (body tx) !! i = Some o ->
        Z.abs d = 1 ->
        validateConservation helper
          (setBody (setOutputs (<[i:=addLovelace d o]> (outputs (body tx)))
                      (body tx)) tx)
        = Err (NotBalancedLovelace (- d))).
Proof.
  assert (Hfwd : validateConservation helper tx = Ok tt ->
     exists deposit ins,
       stakeAddressDeposit_ (NetworkParamsHelper.params helper) = Some deposit
       /\ inputValues (inputs (body tx)) = Some ins
       /\ netLovelace deposit (body tx) ins = 0
       /\ forall policy name, netQuantity (body tx) ins policy name = 0).
  { intros Hok.
    destruct (validateConservation_Ok_inv helper tx Hok)
      as (deposit & ins & Hd & Hi).
    exists deposit, ins. split; [exact Hd|]. split; [exact Hi|].
    destruct (validateConservation_net helper tx deposit ins Hd Hi)
      as (Hne & _ & Hassets).
    destruct (Z.eq_dec (netLovelace deposit (body tx) ins) 0) as [He|He].
    - split; [exact He|].
      destruct (Assets.isZero
                  (Value.assets (conservedValue deposit (body tx) ins)))
        eqn:Hzero.
      + intros p n. rewrite <- (conservedValue_quantity deposit).
        apply (normalized_isZero _
                 (conservedValue_normalized deposit (body tx) ins)).
        exact Hzero.
      + rewrite (validateConservation_run helper tx deposit ins Hd Hi) in Hok.
        cbv zeta in Hok. rewrite conservedValue_lovelace, He, Hzero in Hok.
        discriminate.
    - rewrite (Hne He) in Hok. discriminate. }
  split; [split; [exact Hfwd|] |].
  - intros (deposit & ins & Hd & Hi & Hl & Hq).
    apply (validateConservation_net helper tx deposit ins Hd Hi); assumption.
  - intros Hok i o d Ho Hd1.
    destruct (Hfwd Hok) as (deposit & ins & Hd & Hi & Hl & _).
    set (tx' := setBody _ tx).
    assert (Hnet : netLovelace deposit (body tx') ins = - d).
    { unfold netLovelace in *. subst tx'. cbn [body setBody setOutputs outputs
        dcerts fee].
      rewrite (sumZ_insert _ _ i o (addLovelace d o) Ho).
      unfold addLovelace, setLovelace. cbn [value Value.setLovelace
        Value.lovelace]. lia. }
    destruct (validateConservation_net helper tx' deposit ins Hd Hi)
      as (Hne & _). rewrite <- Hnet. apply Hne. lia.
Qed.

End Conservation.

(** ** Collateral *)

(** [ceilDiv100 x] is the least integer [c] with [x <= 100 * c]. *)
Lemma ceilDiv100_spec (x : Z) :
  x <= 100 * ceilDiv100 x /\ 100 * (ceilDiv100 x - 1) < x.
Proof.
  unfold ceilDiv100.
  pose proof (Z.div_mod (- x) 100 ltac:(lia)) as Hdm.
  pose proof (Z.mod_pos_bound (- x) 100 ltac:(lia)) as Hb.
  lia.
Qed.

Lemma ceilDiv100_le (x c : Z) : ceilDiv100 x <= c <-> x <= 100 * c.
Proof. pose proof (ceilDiv100_spec x). lia. Qed.

Section Collateral.
Context {M : Type} `{Collaborators}.

Abbreviation Tx := (Tx_ TxBody TxWitnesses M).

Lemma addCollateral_Ok (sum : Value.t) (col : TxInput) (v : Value.t) :
  addCollateral sum col = Ok v <->
  exists o, output col = Some o /\ Value.assets (value o) = ∅
            /\ v = Value.add sum (value o).
Proof.
  unfold addCollateral, Assets.isZero. split.
  - destruct (output col) as [o|]; [|discriminate].
    case_bool_decide as He; simpl; [|discriminate].
    intros [= <-]. eauto.
  - intros (o & -> & He & ->). rewrite bool_decide_eq_true_2 by exact He.
    reflexivity.
Qed.

Lemma foldlM_addCollateral_Ok (cols : list TxInput) (v0 v : Value.t) :
  foldlM addCollateral cols v0 = Ok v ->
  Forall lovelaceOnly cols
  /\ Value.lovelace v
     = Value.lovelace v0
       + sumZ (map (fun col => match output col with
                               | Some o => Value.lovelace (value o)
                               | None => 0
                               end) cols).
Proof.
  revert v0. induction cols as [|col cols IH]; intros v0; simpl.
  - intros [= <-]. split; [constructor | lia].
  - intros Hf. apply bind_Ok_inv in Hf. destruct Hf as (v1 & H1 & Hrest).
    apply addCollateral_Ok in H1. destruct H1 as (o & Ho & He & ->).
    destruct (IH _ Hrest) as [Hall Hsum]. split.
    + constructor; [exists o; auto | exact Hall].
    + rewrite Hsum, Ho. simpl. lia.
Qed.

Lemma foldlM_addCollateral_total (cols : list TxInput) (v0 : Value.t) :
  Forall lovelaceOnly cols -> exists v, foldlM addCollateral cols v0 = Ok v.
Proof.
  intros Hall. revert v0.
  induction Hall as [|col cols (o & Ho & He) _ IH]; intros v0; simpl.
  - eauto.
  - assert (H1 : addCollateral v0 col = Ok (Value.add v0 (value o))).
    { apply addCollateral_Ok. eauto. }
    rewrite H1. cbn [bind]. apply IH.
Qed.

Lemma collateralSum_Ok (b : TxBody) :
  (forall v, collateralSum b = Ok v ->
     Forall lovelaceOnly (collateral b)
     /\ Value.lovelace v = collateralLovelace b)
  /\ (Forall lovelaceOnly (collateral b) -> exists v, collateralSum b = Ok v).
Proof.
  unfold collateralSum, collateralLovelace. split.
  - intros v Hs. apply bind_Ok_inv in Hs. destruct Hs as (s & Hf & Hv).
    apply foldlM_addCollateral_Ok in Hf. destruct Hf as [Hall Hsum].
    split; [exact Hall|]. injection Hv as <-.
    destruct (collateralReturn b); simpl in *; lia.
  - intros Hall.
    destruct (foldlM_addCollateral_total _ (Value.ofLovelace 0) Hall) as [s Hs].
    rewrite Hs. cbn [bind]. eauto.
Qed.


End Collateral.

(** ** Scripts present *)

Section ScriptsPresent.
Context {M : Type} `{Collaborators}.

Abbreviation Tx := (Tx_ TxBody TxWitnesses M).

(** Duplicate attached scripts are rejected, in either mode. *)
Lemma validateScriptsPresent_duplicates (strict : bool) (tx : Tx) :
  length (allScripts (witnesses tx)) <> length (includedScriptHashes tx) ->
  validateScriptsPresent strict tx = Err DuplicateScripts.
Proof.
  intros Hne. unfold validateScriptsPresent.
  destruct (Nat.eqb_spec (length (allScripts (witnesses tx)))
              (length (includedScriptHashes tx))); [contradiction|].
  reflexivity.
Qed.

Lemma foldlM_unit_Ok {X} (f : unit -> X -> result unit) (xs : list X) :
  foldlM f xs tt = Ok tt <-> Forall (fun x => f tt x = Ok tt) xs.
Proof.
  induction xs as [|x xs IH]; cbn [foldlM].
  - split; [constructor | reflexivity].
  - destruct (f tt x) as [[]|e] eqn:Hx; cbn [bind].
    + rewrite IH. split; [intros Hall; constructor; assumption|].
      intros Hall. inversion Hall; assumption.
    + split; [discriminate|]. intros Hall. inversion Hall; congruence.
Qed.

Lemma forallb_false {X} (f : X -> bool) (xs : list X) :
  forallb f xs = false -> exists x, x ∈ xs /\ f x = false.
Proof.
  induction xs as [|x xs IH]; cbn [forallb]; [discriminate|].
  destruct (f x) eqn:Hx; cbn [andb].
  - intros Hf. destruct (IH Hf) as (y & Hy & Hfy).
    exists y. split; [right; exact Hy | exact Hfy].
  - intros _. exists x. split; [left | exact Hx].
Qed.

(** What a passing check guarantees: no duplicate among the attached
    scripts, every required script attached, no more distinct scripts
    attached than hashes required and, in strict mode, every attached
    script required. *)
Lemma validateScriptsPresent_Ok_inv (strict : bool) (tx : Tx) :
  validateScriptsPresent strict tx = Ok tt ->
  length (allScripts (witnesses tx)) = length (includedScriptHashes tx)
  /\ Forall (fun h => bytesToHex h ∈ includedScriptHashes tx)
       (allScriptHashes (body tx))
  /\ (length (includedScriptHashes tx)
      <= length (allScriptHashes (body tx)))%nat
  /\ (strict = true ->
      Forall (fun key => exists h, h ∈ allScriptHashes (body tx)
                                   /\ bytesToHex h = key)
        (includedScriptHashes tx)).
Proof.
  unfold validateScriptsPresent.
  destruct (Nat.eqb_spec (length (allScripts (witnesses tx)))
              (length (includedScriptHashes tx))) as [Hlen|];
    [|discriminate].
  cbn [negb].
  destruct (Nat.ltb_spec (length (allScriptHashes (body tx)))
              (length (includedScriptHashes tx))) as [|Hle]; [discriminate|].
  intros Hok. apply bind_Ok_inv in Hok. destruct Hok as ([] & Hreq & Hused).
  apply foldlM_unit_Ok in Hreq.
  split; [exact Hlen|]. split.
  { eapply Forall_impl; [exact Hreq|]. intros h. cbv beta.
    unfold requireIncluded. case_decide; [tauto | discriminate]. }
  split; [exact Hle|].
  intros ->. apply foldlM_unit_Ok in Hused.
  eapply Forall_impl; [exact Hused|]. intros key. cbv beta.
  unfold requireUsed, notRequired.
  destruct (forallb _ _) eqn:Hf; [discriminate|]. intros _.
  apply forallb_false in Hf. destruct Hf as (h & Hin & Hh).
  exists h. split; [exact Hin|].
  apply negb_false_iff, bool_decide_eq_true in Hh. exact Hh.
Qed.

(** C8 (the code departs from the claim).  When more distinct scripts are
    attached than script hashes are required (so that some attached script
    is required by nothing), the check fails with "too many scripts
    included, not all are needed" whether strict mode is on or off. *)
Theorem validateScriptsPresent_too_many (strict : bool) (tx : Tx) :
  length (allScripts (witnesses tx)) = length (includedScriptHashes tx) ->
  (length (allScriptHashes (body tx)) < length (includedScriptHashes tx))%nat ->
  validateScriptsPresent strict tx = Err TooManyScripts.
Proof.
  intros Hnodup Hlt. unfold validateScriptsPresent.
  rewrite Hnodup, Nat.eqb_refl. cbn [negb].
  destruct (Nat.ltb_spec (length (allScriptHashes (body tx)))
              (length (includedScriptHashes tx))); [reflexivity | lia].
Qed.

End ScriptsPresent.

(** ** Script-data hash *)

Lemma compareBytes_eq (a b : bytes) : compareBytes a b = 0 <-> a = b.
Proof.
  revert b. induction a as [|x a IH]; intros [|y b]; simpl;
    try (split; [lia | discriminate]); [tauto|].
  destruct (Z.ltb_spec x y); [split; [lia | intros [=]; lia]|].
  destruct (Z.ltb_spec y x); [split; [lia | intros [=]; lia]|].
  rewrite IH. split; [intros ->; f_equal; lia | intros [=]; auto].
Qed.

Global Instance keyLe_total : Total keyLe.
Proof.
  intros a b. unfold keyLe.
  destruct (String.leb_total a b) as [Hl|Hl]; rewrite Hl; simpl; auto.
Qed.

Section ScriptDataHashProperties.
Context {M : Type} `{Collaborators} `{ToCbor TxRedeemer}.

Abbreviation Tx := (Tx_ TxBody TxWitnesses M).

(** The cost parameters are listed by ascending parameter name. *)
Lemma sortedV2CostParams_spec (helper : NetworkParamsHelper.t)
    (model : list (string * Z)) :
  costModels_PlutusScriptV2 (NetworkParamsHelper.params helper) = Some model ->
  exists keys,
    keys ≡ₚ map fst model
    /\ Sorted keyLe keys
    /\ sortedV2CostParams helper = Ok (map (objectGet model) keys).
Proof.
  intros Hm. exists (merge_sort keyLe (map fst model)).
  split; [apply merge_sort_Permutation|].
  split; [apply (Sorted_merge_sort keyLe)|].
  unfold sortedV2CostParams. rewrite Hm. reflexivity.
Qed.

Lemma calcScriptDataHash_run (helper : NetworkParamsHelper.t)
    (datums : list UplcData) (redeemers : list TxRedeemer) :
  redeemers <> [] ->
  calcScriptDataHash helper datums redeemers
  = let* costParams := sortedV2CostParams helper in
    Ok (blake2b (scriptDataBytes datums redeemers costParams)).
Proof.
  intros Hne. unfold calcScriptDataHash, scriptDataBytes.
  destruct redeemers as [|r rs]; [contradiction|].
  cbn [length Nat.eqb].
  destruct (sortedV2CostParams helper) as [ps|e]; [|reflexivity].
  cbn [bind]. destruct datums as [|d ds]; cbn [length Nat.ltb Nat.leb].
  - rewrite app_nil_l. reflexivity.
  - rewrite <- app_assoc. reflexivity.
Qed.

Lemma encodeMap_key_1 (v : bytes) :
  Cbor.encodeMap [(Cbor.encodeInt 1, v)] = [161; 1] ++ v.
Proof.
  unfold Cbor.encodeMap. change (Cbor.encodeInt 1) with [1].
  cbn [length map concat fst snd].
  change (Cbor.encodeDefHead 5 (Z.of_nat 1)) with [161].
  rewrite app_nil_r. reflexivity.
Qed.

(** C5.  With at least one redeemer and the cost model there, the
    script-data hash is the hash of: the encoded redeemer list, then (only
    when there is a datum) the encoded datum list, then the one-entry map
    (bytes 0xa1 0x01 ...) from key 1 to the list of cost-model values taken
    by ascending parameter name.  With no redeemer, computing it fails.
    The check fails when redeemers are present and the body has no hash,
    when the body has a hash and there is no redeemer, and when the
    recomputed hash differs from the body's; it passes when they are
    equal. *)
Theorem scriptDataHash_spec (helper : NetworkParamsHelper.t) (tx : Tx) :
  let rs := redeemers (witnesses tx) in
  let ds := datums (witnesses tx) in
  (forall model,
      costModels_PlutusScriptV2 (NetworkParamsHelper.params helper)
        = Some model ->
      rs <> [] ->
      exists keys,
        keys ≡ₚ map fst model
        /\ Sorted keyLe keys
        /\ calcScriptDataHash helper ds rs
           = Ok (blake2b
                   (Cbor.encodeDefList (map toCbor rs)
                      ++ (if ds is [] then [] else listDataToCbor ds)
                      ++ [161; 1]
                      ++ Cbor.encodeDefList
                           (map Cbor.encodeInt (map (objectGet model) keys)))))
  /\ calcScriptDataHash helper ds [] = Err NoRedeemersForHash
  /\ (rs <> [] -> scriptDataHash (body tx) = None ->
      validateScriptDataHash helper tx = Err NoScriptDataHash)
  /\ (rs = [] -> scriptDataHash (body tx) <> None ->
      validateScriptDataHash helper tx = Err UnexpectedScriptDataHash)
  /\ (rs = [] -> scriptDataHash (body tx) = None ->
      validateScriptDataHash helper tx = Ok tt)
  /\ (forall declared computed,
        rs <> [] -> scriptDataHash (body tx) = Some declared ->
        calcScriptDataHash helper ds rs = Ok computed ->
        (computed = declared -> validateScriptDataHash helper tx = Ok tt)
        /\ (computed <> declared ->
            validateScriptDataHash helper tx = Err WrongScriptDataHash)).
Proof.
  intros rs ds.
  assert (Hpos : rs <> [] -> (0 <? length rs)%nat = true).
  { destruct rs; [contradiction | reflexivity]. }
  split.
  { intros model Hm Hne.
    destruct (sortedV2CostParams_spec helper model Hm) as (keys & Hp & Hs & Hk).
    exists keys. split; [exact Hp|]. split; [exact Hs|].
    rewrite (calcScriptDataHash_run helper ds rs Hne), Hk. cbn [bind].
    unfold scriptDataBytes. rewrite encodeMap_key_1.
    destruct ds; reflexivity. }
  split; [reflexivity|].
  unfold validateScriptDataHash. fold rs. fold ds.
  split. { intros Hne ->. rewrite (Hpos Hne). reflexivity. }
  split. { intros -> Hsome. simpl.
           destruct (scriptDataHash (body tx)); [reflexivity | contradiction]. }
  split. { intros -> ->. reflexivity. }
  intros declared computed Hne -> Hc. rewrite (Hpos Hne), Hc. cbn [bind].
  pose proof (compareBytes_eq computed declared) as Heq.
  destruct (Z.eqb_spec (compareBytes computed declared) 0) as [Hz|Hz]; simpl.
  - split; [reflexivity|]. intros Hd. exfalso. apply Hd, Heq, Hz.
  - split; [|reflexivity]. intros Hd. exfalso. apply Hz, Heq, Hd.
Qed.

End ScriptDataHashProperties.

(** ** Execution budget of the redeemers *)

Lemma checkCost_spec (t : BudgetTarget) (declared actual : Cost) :
  (checkCost t declared actual = Ok tt <->
     mem actual <= mem declared /\ cpu actual <= cpu declared)
  /\ (mem declared < mem actual ->
      checkCost t declared actual
      = Err (memTooHigh t (mem declared) (mem actual)))
  /\ (mem actual <= mem declared -> cpu declared < cpu actual ->
      checkCost t declared actual
      = Err (cpuTooHigh t (cpu declared) (cpu actual))).
Proof.
  unfold checkCost.
  destruct (Z.ltb_spec (mem declared) (mem actual)),
    (Z.ltb_spec (cpu declared) (cpu actual));
    repeat split; intros; try reflexivity; try discriminate; try lia.
Qed.

Section RedeemerBudget.
Context {M : Type} `{Collaborators}.

Abbreviation Tx := (Tx_ TxBody TxWitnesses M).

Lemma prepareCall_spending (tx : Tx) (txData : UplcData) (r : TxRedeemer)
    (utxo : TxInput) (out : TxOutput) (vh : bytes) (script : Script)
    (datumData : UplcData) :
  kind r = Spending ->
  inputs (body tx) !! index r = Some utxo ->
  output utxo = Some out ->
  Address_validatorHash (address out) = Some vh ->
  findUplcProgram (witnesses tx) vh = Some script ->
  datum out ≫= TxOutputDatum_data = Some datumData ->
  prepareCall tx txData r
  = Ok (mkVmCall script
          [datumData; data r;
           toScriptContextUplcData (SpendingPurpose r (id utxo)) txData],
        SpendTarget (id utxo)).
Proof.
  intros Hk Hi Ho Hv Hs Hd. unfold prepareCall, isSpending, TxInput_output.
  rewrite Hk, Hi. cbn [expectSome bind]. rewrite Ho. cbn [expectSome bind].
  rewrite Hv. cbn [expectSome bind]. rewrite Hs. cbn [expectSome bind].
  rewrite Hd. reflexivity.
Qed.

Lemma prepareCall_minting (tx : Tx) (txData : UplcData) (r : TxRedeemer)
    (mph : bytes) (script : Script) :
  kind r = Minting ->
  getPolicies (minted (body tx)) !! index r = Some mph ->
  findUplcProgram (witnesses tx) mph = Some script ->
  prepareCall tx txData r
  = Ok (mkVmCall script
          [data r; toScriptContextUplcData (MintingPurpose r mph) txData],
        MintTarget mph).
Proof.
  intros Hk Hp Hs. unfold prepareCall, isSpending, isMinting.
  rewrite Hk, Hp. cbn [expectSome bind]. rewrite Hs. reflexivity.
Qed.

Lemma prepareCall_unhandled (tx : Tx) (txData : UplcData) (r : TxRedeemer) :
  kind r = Certifying \/ kind r = Rewarding ->
  prepareCall tx txData r = Err UnhandledRedeemerKind.
Proof.
  intros [Hk|Hk]; unfold prepareCall, isSpending, isMinting; rewrite Hk;
    reflexivity.
Qed.

(** A prepared call is made once, and the outcome is that of the cost
    comparison on what the machine reports. *)
Lemma checkRedeemer_prepared (tx : Tx) (txData : UplcData) (r : TxRedeemer)
    (call : VmCall) (target : BudgetTarget) :
  prepareCall tx txData r = Ok (call, target) ->
  checkRedeemer tx txData r
  = (let* actual := evalScript (program call) (args call) in
     checkCost target (cost r) actual,
     [call]).
Proof. intros Hp. unfold checkRedeemer. rewrite Hp. reflexivity. Qed.

(** The loop passes exactly when every redeemer passes, and then the
    machine was invoked for every redeemer, in order. *)
Lemma forEachRedeemer_Ok (tx : Tx) (txData : UplcData) (rs : list TxRedeemer) :
  (fst (forEachRedeemer tx txData rs) = Ok tt <->
     Forall (fun r => fst (checkRedeemer tx txData r) = Ok tt) rs)
  /\ (fst (forEachRedeemer tx txData rs) = Ok tt ->
      snd (forEachRedeemer tx txData rs)
      = concat (map (fun r => snd (checkRedeemer tx txData r)) rs)).
Proof.
  induction rs as [|r rs [IH1 IH2]]; cbn [forEachRedeemer].
  - split; [split; [constructor | reflexivity] | reflexivity].
  - destruct (checkRedeemer tx txData r) as [[[]|e] calls] eqn:Hr.
    + destruct (forEachRedeemer tx txData rs) as [res calls'].
      cbn [fst snd] in *. split.
      * split.
        -- intros Hres. constructor; [rewrite Hr; reflexivity | tauto].
        -- intros Hall. inversion Hall; subst. tauto.
      * intros Hres. cbn [map concat]. rewrite Hr. cbn [snd].
        rewrite (IH2 Hres). reflexivity.
    + cbn [fst snd]. split.
      * split; [discriminate|].
        intros Hall. inversion Hall as [|? ? Hhd _]; subst.
        rewrite Hr in Hhd. discriminate.
      * discriminate.
Qed.

(** The first redeemer that fails decides the error. *)
Lemma forEachRedeemer_first_error (tx : Tx) (txData : UplcData)
    (rs1 rs2 : list TxRedeemer) (r : TxRedeemer) (e : Error) :
  Forall (fun r => fst (checkRedeemer tx txData r) = Ok tt) rs1 ->
  fst (checkRedeemer tx txData r) = Err e ->
  fst (forEachRedeemer tx txData (rs1 ++ r :: rs2)) = Err e.
Proof.
  intros Hall He. induction Hall as [|r1 rs1 H1 _ IH]; cbn [app forEachRedeemer].
  - destruct (checkRedeemer tx txData r) as [[[]|e'] calls];
      cbn [fst] in He; [discriminate|]. injection He as ->. reflexivity.
  - destruct (checkRedeemer tx txData r1) as [[[]|e'] calls];
      cbn [fst] in H1; [|discriminate].
    destruct (forEachRedeemer tx txData (rs1 ++ r :: rs2)) as [res calls'].
    exact IH.
Qed.

End RedeemerBudget.

Section RedeemerBudgetSpec.
Context {M : Type} `{Collaborators}.

Abbreviation Tx := (Tx_ TxBody TxWitnesses M).

(** C4 (amended).  For a spending redeemer whose input, validator script and
    datum are found, the machine is invoked once on
    [datum; redeemer; script context], and for a minting redeemer whose
    policy and script are found, on [redeemer; script context]; when the
    machine reports a cost, the redeemer passes exactly when neither the
    memory nor the step cost exceeds the declared cost (equal cost passes),
    and an excess fails with an error that names the input, respectively
    the policy.  A certifying or rewarding redeemer fails as an unhandled
    kind, without an invocation of the machine.  The check passes exactly
    when every redeemer passes; the first failing redeemer gives the
    error. *)
Theorem validateRedeemersExBudget_spec (helper : NetworkParamsHelper.t)
    (tx : Tx) :
  let txData := txUplcData helper tx in
  let rs := redeemers (witnesses tx) in
  let passes r := fst (checkRedeemer tx txData r) = Ok tt in
  (forall r utxo out vh script datumData,
      kind r = Spending ->
      inputs (body tx) !! index r = Some utxo ->
      output utxo = Some out ->
      Address_validatorHash (address out) = Some vh ->
      findUplcProgram (witnesses tx) vh = Some script ->
      datum out ≫= TxOutputDatum_data = Some datumData ->
      let argList :=
        [datumData; data r;
         toScriptContextUplcData (SpendingPurpose r (id utxo)) txData] in
      snd (checkRedeemer tx txData r) = [mkVmCall script argList]
      /\ forall actual,
           evalScript script argList = Ok actual ->
           (passes r <->
              mem actual <= mem (cost r) /\ cpu actual <= cpu (cost r))
           /\ (mem (cost r) < mem actual ->
               fst (checkRedeemer tx txData r)
               = Err (SpendMemTooHigh (txId (id utxo)) (utxoIdx (id utxo))
                        (mem (cost r)) (mem actual)))
           /\ (mem actual <= mem (cost r) -> cpu (cost r) < cpu actual ->
               fst (checkRedeemer tx txData r)
               = Err (SpendCpuTooHigh (txId (id utxo)) (utxoIdx (id utxo))
                        (cpu (cost r)) (cpu actual))))
  /\ (forall r mph script,
        kind r = Minting ->
        getPolicies (minted (body tx)) !! index r = Some mph ->
        findUplcProgram (witnesses tx) mph = Some script ->
        let argList :=
          [data r; toScriptContextUplcData (MintingPurpose r mph) txData] in
        snd (checkRedeemer tx txData r) = [mkVmCall script argList]
        /\ forall actual,
             evalScript script argList = Ok actual ->
             (passes r <->
                mem actual <= mem (cost r) /\ cpu actual <= cpu (cost r))
             /\ (mem (cost r) < mem actual ->
                 fst (checkRedeemer tx txData r)
                 = Err (MintMemTooHigh mph (mem (cost r)) (mem actual)))
             /\ (mem actual <= mem (cost r) -> cpu (cost r) < cpu actual ->
                 fst (checkRedeemer tx txData r)
                 = Err (MintCpuTooHigh mph (cpu (cost r)) (cpu actual))))
  /\ (forall r,
        kind r = Certifying \/ kind r = Rewarding ->
        checkRedeemer tx txData r = (Err UnhandledRedeemerKind, []))
  /\ (fst (validateRedeemersExBudget helper tx) = Ok tt <-> Forall passes rs)
  /\ (fst (validateRedeemersExBudget helper tx) = Ok tt ->
      snd (validateRedeemersExBudget helper tx)
      = concat (map (fun r => snd (checkRedeemer tx txData r)) rs))
  /\ (forall rs1 r rs2 e,
        rs = rs1 ++ r :: rs2 ->
        Forall passes rs1 ->
        fst (checkRedeemer tx txData r) = Err e ->
        fst (validateRedeemersExBudget helper tx) = Err e).
Proof.
  intros txData rs passes.
  split.
  { intros r utxo out vh script datumData Hk Hi Ho Hv Hs Hd argList.
    pose proof (prepareCall_spending tx txData r utxo out vh script datumData
                  Hk Hi Ho Hv Hs Hd) as Hp.
    rewrite (checkRedeemer_prepared _ _ _ _ _ Hp).
    split; [reflexivity|]. intros actual Ha.
    unfold passes. rewrite (checkRedeemer_prepared _ _ _ _ _ Hp).
    cbn [fst program args]. fold argList. rewrite Ha. cbn [bind].
    exact (checkCost_spec (SpendTarget (id utxo)) (cost r) actual). }
  split.
  { intros r mph script Hk Hp' Hs argList.
    pose proof (prepareCall_minting tx txData r mph script Hk Hp' Hs) as Hp.
    rewrite (checkRedeemer_prepared _ _ _ _ _ Hp).
    split; [reflexivity|]. intros actual Ha.
    unfold passes. rewrite (checkRedeemer_prepared _ _ _ _ _ Hp).
    cbn [fst program args]. fold argList. rewrite Ha. cbn [bind].
    exact (checkCost_spec (MintTarget mph) (cost r) actual). }
  split.
  { intros r Hk. unfold checkRedeemer.
    rewrite (prepareCall_unhandled tx txData r Hk). reflexivity. }
  unfold validateRedeemersExBudget. fold txData. fold rs.
  destruct (forEachRedeemer_Ok tx txData rs) as [Hiff Hcalls].
  split; [exact Hiff|]. split; [exact Hcalls|].
  intros rs1 r rs2 e -> Hall He.
  apply forEachRedeemer_first_error; assumption.
Qed.

End RedeemerBudgetSpec.

(** C4 (counterexample to the claim as stated).  A transaction with one
    certifying, and one with one rewarding, redeemer of budget (1000, 1000),
    checked with a machine that reports the cost (0, 0) on every program:
    no reported cost exceeds the budget, and yet the check fails; the
    machine is not invoked at all. *)
Lemma validateRedeemersExBudget_unhandled_counterexample :
  (forall script args,
      @evalScript stubCollaborators script args = Ok (mkCost 0 0))
  /\ cost (sampleRedeemer Certifying) = mkCost 1000 1000
  /\ @validateRedeemersExBudget bytes stubCollaborators sampleHelper
       (smartTx Certifying)
     = (Err UnhandledRedeemerKind, [])
  /\ @validateRedeemersExBudget bytes stubCollaborators sampleHelper
       (smartTx Rewarding)
     = (Err UnhandledRedeemerKind, []).
Proof. repeat split. Qed.

(** ** Encoded sizes *)

Section EncodedSizes.

Lemma beDigits_length (n : nat) (x : Z) : length (Cbor.beDigits n x) = n.
Proof.
  revert x. induction n as [|n IH]; intros x; simpl; [reflexivity|].
  rewrite length_app, IH. simpl. lia.
Qed.

Lemma encodeDefHead_length (m n : Z) :
  (1 <= length (Cbor.encodeDefHead m n) <= 9)%nat.
Proof.
  unfold Cbor.encodeDefHead, Cbor.padBE.
  repeat (destruct (_ <=? _)); simpl; rewrite ?beDigits_length; lia.
Qed.

Lemma encodeIntBE_length (x : Z) :
  Z.of_nat (length (Cbor.encodeIntBE x)) = 1 + Z.log2 x / 8.
Proof.
  unfold Cbor.encodeIntBE, Cbor.byteLength. rewrite beDigits_length.
  pose proof (Z.log2_nonneg x).
  assert (0 <= Z.log2 x / 8) by (apply Z.div_pos; lia).
  lia.
Qed.

Lemma bignum_length (tag x : Z) :
  0 <= x ->
  Z.of_nat (length (Cbor.encodeDefHead 6 tag
                      ++ Cbor.encodeBytes (Cbor.encodeIntBE x)))
  <= 19 + Z.log2 x.
Proof.
  intros Hx. unfold Cbor.encodeBytes. rewrite !length_app.
  pose proof (encodeDefHead_length 6 tag).
  pose proof (encodeDefHead_length 2
                (Z.of_nat (length (Cbor.encodeIntBE x)))).
  pose proof (encodeIntBE_length x) as Hl.
  pose proof (Z.log2_nonneg x).
  assert (Z.log2 x / 8 <= Z.log2 x).
  { apply Z.div_le_upper_bound; lia. }
  lia.
Qed.

(** An integer takes a number of bytes logarithmic in its magnitude. *)
Lemma encodeInt_length_bound (x : Z) :
  Z.of_nat (length (Cbor.encodeInt x)) <= 19 + Z.log2 (Z.abs x).
Proof.
  unfold Cbor.encodeInt.
  pose proof (Z.log2_nonneg (Z.abs x)).
  destruct ((0 <=? x) && (x <=? 2 ^ 64 - 1)) eqn:H1.
  { pose proof (encodeDefHead_length 0 x). lia. }
  destruct (Z.leb_spec (2 ^ 64) x) as [H2|H2].
  { rewrite Z.abs_eq by lia. apply bignum_length. lia. }
  destruct ((x <=? -1) && (- 2 ^ 64 <=? x)) eqn:H3.
  { pose proof (encodeDefHead_length 1 (- x - 1)). lia. }
  assert (Hneg : x < 0).
  { apply andb_false_iff in H1. destruct H1 as [H1|H1].
    - apply Z.leb_gt in H1. exact H1.
    - apply Z.leb_gt in H1. lia. }
  etransitivity; [apply bignum_length; lia|].
  assert (Z.log2 (- x - 1) <= Z.log2 (Z.abs x)).
  { apply Z.log2_le_mono. lia. }
  lia.
Qed.

Lemma encodeInt_length_bound_within (x U : Z) :
  - U <= x <= U ->
  Z.of_nat (length (Cbor.encodeInt x)) <= 19 + Z.log2 U.
Proof.
  intros Hx. etransitivity; [apply encodeInt_length_bound|].
  assert (Z.log2 (Z.abs x) <= Z.log2 U) by (apply Z.log2_le_mono; lia).
  lia.
Qed.

Lemma square_le_pow2 (k : Z) : 4 <= k -> k * k <= 2 ^ k.
Proof.
  intros Hk. pattern k. apply (Zlt_lower_bound_ind _ 4); [|exact Hk].
  clear k Hk. intros k IH Hk.
  destruct (Z.eq_dec k 4) as [->|Hne]; [simpl; lia|].
  assert (Hprev : (k - 1) * (k - 1) <= 2 ^ (k - 1)) by (apply IH; lia).
  replace k with (Z.succ (k - 1)) at 3 by lia.
  rewrite Z.pow_succ_r by lia. nia.
Qed.

(** Linear growth is overtaken by the powers of two. *)
Lemma linear_le_pow2 (a b k : Z) :
  0 <= a -> 0 <= b -> a + b + 4 <= k -> a + b * k <= 2 ^ k.
Proof.
  intros Ha Hb Hk. etransitivity; [|apply square_le_pow2; lia]. nia.
Qed.

End EncodedSizes.

(** ** Correction of the lovelace of an output *)

Section CorrectLovelace.
Context `{ToCbor Address} `{ToCbor Assets.t} `{ToCbor TxOutputDatum}.
Variable config : Config.

Local Abbreviation sizeWith := (encodedSizeWith config).

Lemma setLovelace_setLovelace (l1 l2 : Z) (o : TxOutput) :
  setLovelace l2 (setLovelace l1 o) = setLovelace l2 o.
Proof. reflexivity. Qed.

Lemma setLovelace_same (o : TxOutput) :
  setLovelace (Value.lovelace (value o)) o = o.
Proof. destruct o as [a [l assets] d r]. reflexivity. Qed.

Lemma value_toCbor_length (v : Value.t) (l1 l2 : Z) :
  (length (toCbor (Value.setLovelace l1 v)) + length (Cbor.encodeInt l2)
   = length (toCbor (Value.setLovelace l2 v)) + length (Cbor.encodeInt l1))%nat.
Proof.
  unfold toCbor, Value_ToCbor, Value.setLovelace. cbn [Value.assets Value.lovelace].
  destruct (Assets.isZero (Value.assets v)); [lia|].
  unfold Cbor.encodeTuple, Cbor.encodeDefList. cbn [length concat].
  rewrite !length_app. lia.
Qed.

(** The lovelace enters the encoding of an output as one integer: two
    quantities change the size by the difference of their encodings. *)
Lemma sizeWith_difference (o : TxOutput) (l1 l2 : Z) :
  sizeWith o l1 + Z.of_nat (length (Cbor.encodeInt l2))
  = sizeWith o l2 + Z.of_nat (length (Cbor.encodeInt l1)).
Proof.
  unfold encodedSizeWith, TxOutput_toCbor.
  assert (Hform : forall l, usesTupleForm config (setLovelace l o)
                            = usesTupleForm config o) by reflexivity.
  rewrite !Hform.
  pose proof (value_toCbor_length (value o) l1 l2) as Hv.
  destruct (usesTupleForm config o).
  - unfold Cbor.encodeTuple, Cbor.encodeDefList, tupleDatumField.
    cbn [setLovelace address value datum refScript].
    rewrite !length_app, !concat_app, !length_app. cbn [concat length app].
    rewrite !length_app. lia.
  - unfold Cbor.encodeObjectIKey, Cbor.encodeMap, objectFields.
    cbn [setLovelace address value datum refScript].
    rewrite !map_app, !length_app, !concat_app, !length_app.
    cbn [map concat length app fst snd].
    rewrite !length_app. lia.
Qed.

Lemma sizeWith_nonneg (o : TxOutput) (l : Z) : 0 <= sizeWith o l.
Proof. unfold encodedSizeWith. lia. Qed.

(** Inside [-U, U] the size stays below the size at 0 plus a logarithm. *)
Lemma sizeWith_bound (o : TxOutput) (x U : Z) :
  - U <= x <= U -> sizeWith o x <= sizeWith o 0 + 19 + Z.log2 U.
Proof.
  intros Hx. pose proof (sizeWith_difference o x 0) as Hd.
  pose proof (encodeInt_length_bound_within x U Hx). lia.
Qed.

Variable networkParams : NetworkParamsHelper.t.
Variable perByte : Z.
Hypothesis perByte_set :
  utxoCostPerByte (NetworkParamsHelper.params networkParams) = Some perByte.

Local Abbreviation depositWith := (requiredDepositWith config perByte).

Lemma calcDeposit_setLovelace (o : TxOutput) (l : Z) :
  calcDeposit config networkParams (setLovelace l o) = Ok (depositWith o l).
Proof.
  unfold calcDeposit, NetworkParamsHelper.lovelacePerUTXOByte.
  rewrite perByte_set. reflexivity.
Qed.

(** The loop ends once the lovelace cannot rise above a bound [U] that the
    required deposit respects. *)
Lemma correctLovelaceLoop_terminates (o : TxOutput) (L0 U : Z) :
  (forall x, L0 <= x <= U -> depositWith o x <= U) ->
  forall (fuel : nat) (L : Z),
    L0 <= L <= U ->
    U - L < Z.of_nat fuel ->
    exists L',
      correctLovelaceLoop fuel config networkParams None (setLovelace L o)
        (depositWith o L)
      = Some (Ok (setLovelace L' o))
      /\ L <= L' /\ depositWith o L' <= L'.
Proof.
  intros Hbound. induction fuel as [|fuel IH]; intros L HL Hfuel; [lia|].
  cbn [correctLovelaceLoop setLovelace value Value.setLovelace Value.lovelace].
  destruct (Z.ltb_spec L (depositWith o L)) as [Hlt|Hge].
  - change (mkTxOutput (address o)
              (Value.mk (depositWith o L) (Value.assets (value o)))
              (datum o) (refScript o))
      with (setLovelace (depositWith o L) o).
    rewrite calcDeposit_setLovelace.
    pose proof (Hbound L HL) as HU.
    destruct (IH (depositWith o L)) as (L' & Hrun & Hle & Hfix); [lia | lia |].
    exists L'. split; [exact Hrun|]. split; [lia | exact Hfix].
  - exists L. split; [reflexivity|]. split; [lia | exact Hge].
Qed.

(** More fuel does not change the outcome of a run that ended. *)
Lemma correctLovelaceLoop_more_fuel (o : TxOutput) (n m : nat) (L : Z)
    (res : result TxOutput) :
  correctLovelaceLoop n config networkParams None (setLovelace L o)
    (depositWith o L) = Some res ->
  (n <= m)%nat ->
  correctLovelaceLoop m config networkParams None (setLovelace L o)
    (depositWith o L) = Some res.
Proof.
  revert m L. induction n as [|n IH]; intros m L Hn Hm.
  - destruct m; [exact Hn|].
    cbn [correctLovelaceLoop] in *.
    destruct (_ <? _); [discriminate | exact Hn].
  - destruct m as [|m]; [lia|].
    cbn [correctLovelaceLoop] in *.
    destruct (_ <? _); [|exact Hn].
    change (setLovelace (depositWith o L) (setLovelace L o))
      with (setLovelace (depositWith o L) o) in *.
    rewrite calcDeposit_setLovelace in *.
    apply IH; [exact Hn | lia].
Qed.

(** A bound as the lemma above asks for exists for every output, price and
    starting quantity. *)
Lemma deposit_bound_exists (o : TxOutput) (L0 : Z) :
  exists U, L0 <= U /\ forall x, L0 <= x <= U -> depositWith o x <= U.
Proof.
  unfold requiredDepositWith.
  destruct (Z.le_gt_cases perByte 0) as [Hp|Hp].
  - exists (Z.max L0 0). split; [lia|]. intros x Hx.
    pose proof (sizeWith_nonneg o x). nia.
  - set (c := sizeWith o 0 + 19 + 160).
    assert (Hc : 0 <= c) by (pose proof (sizeWith_nonneg o 0); lia).
    set (k := Z.max (perByte * c + perByte + 4) (Z.abs L0)).
    assert (Hk0 : 0 <= k) by lia.
    exists (2 ^ k).
    assert (Hpow : k < 2 ^ k) by (apply Z.pow_gt_lin_r; lia).
    split; [lia|]. intros x Hx.
    assert (Hsize : sizeWith o x <= sizeWith o 0 + 19 + Z.log2 (2 ^ k)).
    { apply sizeWith_bound. lia. }
    rewrite Z.log2_pow2 in Hsize by lia.
    assert (Hlin : perByte * c + perByte * k <= 2 ^ k).
    { apply linear_le_pow2; nia. }
    nia.
Qed.

End CorrectLovelace.

Section CorrectLovelaceSpec.
Context `{ToCbor Address} `{ToCbor Assets.t} `{ToCbor TxOutputDatum}.

(** C9.  For every output and every parameter snapshot, [correctLovelace]
    (called without an updater) ends after a bounded number of iterations:
    with the price per byte missing it fails at once; otherwise there is a
    number of iterations within which the loop returns, and then the
    lovelace of the output is at least the deposit [calcDeposit] computes
    for the output as returned, it is not below what it was, and nothing
    else of the output has changed. *)
Theorem correctLovelace_terminates (config : Config)
    (networkParams : NetworkParamsHelper.t) (o : TxOutput) :
  match utxoCostPerByte (NetworkParamsHelper.params networkParams) with
  | Some perByte =>
      exists (bound : nat) (o' : TxOutput) (deposit : Z),
        (forall fuel, (bound <= fuel)%nat ->
           correctLovelace fuel config networkParams None o = Some (Ok o'))
        /\ calcDeposit config networkParams o' = Ok deposit
        /\ deposit = (Z.of_nat (length (TxOutput_toCbor config o')) + 160)
                     * perByte
        /\ deposit <= Value.lovelace (value o')
        /\ Value.lovelace (value o) <= Value.lovelace (value o')
        /\ o' = setLovelace (Value.lovelace (value o')) o
  | None =>
      forall fuel,
        correctLovelace fuel config networkParams None o
        = Some (Err (MissingParam "latestParams.utxoCostPerByte"))
  end.
Proof.
  destruct (utxoCostPerByte _) as [perByte|] eqn:Hp.
  - set (L0 := Value.lovelace (value o)).
    destruct (deposit_bound_exists config perByte o L0) as (U & HU & Hbound).
    set (bound := Z.to_nat (U - L0 + 1)).
    destruct (correctLovelaceLoop_terminates config networkParams perByte Hp
                o L0 U Hbound bound L0) as (L' & Hloop & Hle & Hfix);
      [lia | lia |].
    exists bound, (setLovelace L' o), (requiredDepositWith config perByte o L').
    split.
    { intros fuel Hfuel. unfold correctLovelace.
      rewrite <- (setLovelace_same o) at 1. fold L0.
      rewrite (calcDeposit_setLovelace config networkParams perByte Hp).
      rewrite <- (setLovelace_same o) at 1. fold L0.
      apply (correctLovelaceLoop_more_fuel config networkParams perByte Hp
               o bound fuel L0 _ Hloop Hfuel). }
    split; [apply (calcDeposit_setLovelace config networkParams perByte Hp)|].
    split; [reflexivity|].
    split; [exact Hfix|]. split; [exact Hle|]. reflexivity.
  - intros fuel. unfold correctLovelace, calcDeposit,
      NetworkParamsHelper.lovelacePerUTXOByte.
    rewrite Hp. reflexivity.
Qed.

End CorrectLovelaceSpec.

(** ** The checks on sample data *)

Section Samples.
Existing Instance stubCollaborators.
Existing Instance stubBodyToCbor.
Existing Instance stubWitnessesToCbor.
Existing Instance stubRedeemerToCbor.
Existing Instance stubAddressToCbor.
Existing Instance stubAssetsToCbor.
Existing Instance stubDatumToCbor.
Existing Instance stubMetadataToCbor.

Example sample_calcSize : calcSize true sampleTx = (106, sampleTx).
Proof. vm_compute. reflexivity. Qed.

Example sample_validateFee :
  validateFee sampleHelper sampleTx = Ok sampleTx.
Proof. vm_compute. reflexivity. Qed.

Example sample_validateConservation :
  validateConservation sampleHelper sampleTx = Ok tt.
Proof. vm_compute. reflexivity. Qed.

Example sample_validateCollateral :
  validateCollateral sampleHelper sampleTx = Ok []
  /\ validateCollateral sampleHelper (smartTx Spending) = Ok [].
Proof. split; vm_compute; reflexivity. Qed.

Example sample_validateScriptsPresent :
  validateScriptsPresent true (smartTx Spending) = Ok tt
  /\ validateScriptsPresent false unusedScriptTx = Err TooManyScripts.
Proof. split; vm_compute; reflexivity. Qed.

Example sample_correctLovelace :
  correctLovelace 5 (mkConfig false) sampleHelper None (sampleOutput 0)
  = Some (Ok (sampleOutput 849070)).
Proof. vm_compute. reflexivity. Qed.

Example sample_validateRedeemersExBudget :
  validateRedeemersExBudget sampleHelper (smartTx Spending)
  = (Ok tt,
     [mkVmCall sampleScript
        [IntData 42; IntData 0;
         ConstrData 0 [ConstrData 0 [ByteArrayData (replicate 32 0)]]]])
  /\ validateRedeemersExBudget sampleHelper mintTx
     = (Ok tt,
        [mkVmCall sampleScript
           [IntData 0;
            ConstrData 0 [ConstrData 0 [ByteArrayData (replicate 32 0)]]]]).
Proof. split; vm_compute; reflexivity. Qed.

Example sample_over_budget :
  fst (@validateRedeemersExBudget bytes greedyCollaborators sampleHelper
         (smartTx Spending))
  = Err (SpendMemTooHigh (replicate 32 9) 1 1000 1001)
  /\ fst (@validateRedeemersExBudget bytes greedyCollaborators sampleHelper
            mintTx)
     = Err (MintMemTooHigh [7; 7] 1000 1001).
Proof. split; vm_compute; reflexivity. Qed.

Example sample_scriptDataHash :
  calcScriptDataHash sampleHelper [] [sampleRedeemer Spending]
  = Ok [129; 131; 0; 25; 3; 232; 25; 3; 232; 161; 1; 131; 26; 0; 3; 35; 97;
        25; 3; 44; 26; 3; 116; 246; 147]
  /\ validateScriptDataHash sampleHelper (smartTx Spending)
     = Err NoScriptDataHash.
Proof. split; vm_compute; reflexivity. Qed.

Example sample_TxOutput_toCbor :
  TxOutput_toCbor (mkConfig false) (sampleOutput 0)
  = [130; 88; 29] ++ replicate 29 1 ++ [0]
  /\ TxOutput_toCbor (mkConfig true) (sampleOutput 0)
     = [162; 0; 88; 29] ++ replicate 29 1 ++ [1; 0].
Proof. split; vm_compute; reflexivity. Qed.

Example sample_sortedV2CostParams :
  sortedV2CostParams sampleHelper = Ok [205665; 812; 57996947].
Proof. vm_compute. reflexivity. Qed.

End Samples.

(** ** The theorems with hypotheses, at the sample data *)

Section Witnesses.
Existing Instance stubCollaborators.
Existing Instance stubBodyToCbor.
Existing Instance stubWitnessesToCbor.
Existing Instance stubRedeemerToCbor.
Existing Instance stubAddressToCbor.
Existing Instance stubAssetsToCbor.
Existing Instance stubDatumToCbor.
Existing Instance stubMetadataToCbor.


(** The sample transaction that requires no script and has one attached. *)
Lemma validateScriptsPresent_too_many_witness :
  length (allScripts (witnesses unusedScriptTx))
    = length (includedScriptHashes unusedScriptTx)
  /\ (length (allScriptHashes (body unusedScriptTx))
      < length (includedScriptHashes unusedScriptTx))%nat
  /\ validateScriptsPresent false unusedScriptTx = Err TooManyScripts.
Proof.
  split; [reflexivity|].
  split; [vm_compute; lia|].
  apply (validateScriptsPresent_too_many false unusedScriptTx);
    [reflexivity | vm_compute; lia].
Defined.

End Witnesses.

(** * Further properties of the code *)

(** ** Minimum collateral *)

Lemma quot_100_bounds (x : Z) :
  0 <= x ->
  (x + 100) ÷ 100 = x / 100 + 1
  /\ ceilDiv100 x <= (x + 100) ÷ 100 <= ceilDiv100 x + 1
  /\ ((x + 100) ÷ 100 = ceilDiv100 x + 1 <-> x mod 100 = 0).
Proof.
  intros Hx. rewrite Z.quot_div_nonneg by lia.
  replace (x + 100) with (x + 1 * 100) by lia.
  rewrite Z.div_add by lia.
  pose proof (ceilDiv100_spec x) as [Hc1 Hc2].
  pose proof (Z.div_mod x 100 ltac:(lia)) as Hdm.
  pose proof (Z.mod_pos_bound x 100 ltac:(lia)) as Hb.
  split; [reflexivity|]. split; [lia|]. lia.
Qed.

Section MinCollateral.
Context {M : Type} `{ToCbor TxBody, ToCbor TxWitnesses, ToCbor M}.
Context `{Collaborators}.

Abbreviation Tx := (Tx_ TxBody TxWitnesses M).

(** Enough collateral passes the check of a transaction that invokes a
    script. *)
Lemma validateCollateral_sufficient (helper : NetworkParamsHelper.t) (tx : Tx)
    (maxInputs pct : Z) :
  maxCollateralInputs_ (NetworkParamsHelper.params helper) = Some maxInputs ->
  collateralPercentage (NetworkParamsHelper.params helper) = Some pct ->
  isSmart (witnesses tx) = true ->
  Z.of_nat (length (collateral (body tx))) <= maxInputs ->
  Forall lovelaceOnly (collateral (body tx)) ->
  ceilDiv100 (pct * fee (body tx)) <= collateralLovelace (body tx) ->
  isOk (validateCollateral helper tx) = true.
Proof.
  intros Hmax Hpct Hsmart Hlen Hall Hmin.
  unfold validateCollateral, NetworkParamsHelper.maxCollateralInputs,
    NetworkParamsHelper.minCollateralPct.
  rewrite Hmax, Hsmart, Hpct. cbn [expectSome bind].
  destruct (Z.ltb_spec maxInputs (Z.of_nat (length (collateral (body tx)))));
    [lia|].
  destruct (collateralSum_Ok (body tx)) as [Hinv Htot].
  destruct (Htot Hall) as [v Hv]. rewrite Hv. cbn [bind].
  destruct (Hinv v Hv) as [_ Hl]. rewrite Hl.
  destruct (Z.ltb_spec (collateralLovelace (body tx))
              (ceilDiv100 (pct * fee (body tx)))); [lia|].
  destruct (_ <? _); reflexivity.
Qed.


End MinCollateral.

(** ** Size of a transaction *)

Section TxSize.
Context {M : Type} `{ToCbor TxBody, ToCbor TxWitnesses, ToCbor M}.
Context `{Collaborators} `{!MoreCollaborators M}.

Abbreviation Tx := (Tx_ TxBody TxWitnesses M).

Lemma Tx_toCbor_length (tx : Tx) :
  length (Tx_toCbor false tx) = S (length (Tx_toCbor true tx)).
Proof.
  unfold Tx_toCbor, Cbor.encodeTuple, Cbor.encodeDefList.
  cbn [length concat].
  change (Cbor.encodeDefHead 4 (Z.of_nat 4)) with [132].
  change (Cbor.encodeDefHead 4 (Z.of_nat 3)) with [131].
  rewrite ?length_app. change (length (Cbor.encodeBool true)) with 1%nat.
  cbn [length]. lia.
Qed.

Lemma addDummySignatures_none (n : Z) (w : TxWitnesses) :
  n <= 0 -> addDummySignatures n w = w.
Proof.
  intros Hn. unfold addDummySignatures.
  replace (Z.to_nat n) with 0%nat by lia. cbn [replicate].
  rewrite app_nil_r. apply setSignatures_id.
Qed.

(** X2.  [validateSize] passes exactly when the maximum size is there and
    the encoding with the valid-flag is no longer than it; and when no
    signature is missing, that real size is one byte more than the size
    [calcSize(true)] gives for the fee. *)
Theorem validateSize_spec (helper : NetworkParamsHelper.t) (tx : Tx) :
  (validateSize helper tx = Passed tt <->
     exists maxTxSize,
       maxTxSize_ (NetworkParamsHelper.params helper) = Some maxTxSize
       /\ Z.of_nat (length (Tx_toCbor false tx)) <= maxTxSize)
  /\ (countMissingSignatures tx <= 0 ->
      fst (calcSize false tx) = fst (calcSize true tx) + 1).
Proof.
  split; [|intros Hmissing].
  - unfold validateSize, NetworkParamsHelper.maxTxSize. cbn [calcSize fst].
    destruct (maxTxSize_ _) as [maxTxSize|]; cbn [expectSome lift andThen].
    + destruct (Z.ltb_spec maxTxSize (Z.of_nat (length (Tx_toCbor false tx)))).
      * split; [discriminate|]. intros (m & [= <-] & Hle). lia.
      * split; [eauto|reflexivity].
    + split; [discriminate|]. intros (m & Hm & _). discriminate.
  - rewrite calcSize_forFee. cbn [calcSize fst].
    unfold withPlaceholders.
    rewrite addDummySignatures_none by exact Hmissing.
    rewrite setWitnesses_id, Tx_toCbor_length. lia.
Qed.

(** ** Total execution budget *)

Lemma totalMem_sum (rs : list TxRedeemer) :
  totalMem rs = sumZ (map (fun r => mem (cost r)) rs).
Proof.
  unfold totalMem.
  assert (Hgen : forall acc,
    fold_left (fun total r => total + mem (cost r)) rs acc
    = acc + sumZ (map (fun r => mem (cost r)) rs)).
  { induction rs as [|r rs IH]; intros acc; simpl; [lia|].
    rewrite IH. lia. }
  rewrite Hgen. lia.
Qed.

Lemma totalCpu_sum (rs : list TxRedeemer) :
  totalCpu rs = sumZ (map (fun r => cpu (cost r)) rs).
Proof.
  unfold totalCpu.
  assert (Hgen : forall acc,
    fold_left (fun total r => total + cpu (cost r)) rs acc
    = acc + sumZ (map (fun r => cpu (cost r)) rs)).
  { induction rs as [|r rs IH]; intros acc; simpl; [lia|].
    rewrite IH. lia. }
  rewrite Hgen. lia.
Qed.

(** X3.  [validateTotalExBudget] passes exactly when both maxima are there
    and the declared memory and step costs of the redeemers sum to at most
    them.  Verbosity never changes the outcome; without it nothing is
    printed, and with it a warning is printed only for a total strictly
    above half of the maximum (halved with truncation). *)
Theorem validateTotalExBudget_spec (helper : NetworkParamsHelper.t)
    (verbose : bool) (tx : Tx) :
  let rs := redeemers (witnesses tx) in
  let mems := sumZ (map (fun r => mem (cost r)) rs) in
  let cpus := sumZ (map (fun r => cpu (cost r)) rs) in
  (fst (validateTotalExBudget helper verbose tx) = Passed tt <->
     exists maxMem maxCpu,
       maxTxExecutionUnits_memory (NetworkParamsHelper.params helper)
         = Some maxMem
       /\ maxTxExecutionUnits_steps (NetworkParamsHelper.params helper)
          = Some maxCpu
       /\ mems <= maxMem /\ cpus <= maxCpu)
  /\ fst (validateTotalExBudget helper verbose tx)
     = fst (validateTotalExBudget helper false tx)
  /\ snd (validateTotalExBudget helper false tx) = []
  /\ (forall w, w ∈ snd (validateTotalExBudget helper verbose tx) ->
        verbose = true
        /\ ((exists maxMem, w = MemAboveHalf mems maxMem
                            /\ maxMem ÷ 2 < mems <= maxMem)
            \/ (exists maxCpu, w = CpuAboveHalf cpus maxCpu
                               /\ maxCpu ÷ 2 < cpus <= maxCpu))).
Proof.
  intros rs mems cpus.
  unfold validateTotalExBudget, NetworkParamsHelper.maxTxExecutionBudget.
  rewrite totalMem_sum, totalCpu_sum. fold rs. fold mems. fold cpus.
  destruct (maxTxExecutionUnits_memory _) as [maxMem|];
    cbn [expectSome bind fst snd].
  2: { split; [split; [discriminate | intros (? & ? & [=] & _)]|].
       split; [reflexivity|]. split; [reflexivity|].
       intros w Hw. inversion Hw. }
  destruct (maxTxExecutionUnits_steps _) as [maxCpu|];
    cbn [expectSome bind fst snd].
  2: { split; [split; [discriminate | intros (? & ? & _ & [=] & _)]|].
       split; [reflexivity|]. split; [reflexivity|].
       intros w Hw. inversion Hw. }
  destruct (Z.ltb_spec maxMem mems) as [Hm|Hm]; cbn [fst snd].
  { split; [split; [discriminate | intros (? & ? & [= <-] & [= <-] & ? & ?); lia]|].
    split; [reflexivity|]. split; [reflexivity|].
    intros w Hw. inversion Hw. }
  destruct (Z.ltb_spec maxCpu cpus) as [Hc|Hc]; cbn [fst snd andb app].
  { split; [split; [discriminate | intros (? & ? & [= <-] & [= <-] & ? & ?); lia]|].
    split; [reflexivity|]. split; [reflexivity|].
    intros w Hw. destruct verbose; cbn [andb] in Hw; [|inversion Hw].
    destruct (Z.ltb_spec (maxMem ÷ 2) mems); [|inversion Hw].
    apply list_elem_of_singleton in Hw. subst w.
    split; [reflexivity|]. left. exists maxMem. split; [reflexivity | lia]. }
  split; [split; [intros _; exists maxMem, maxCpu; auto | reflexivity]|].
  split; [reflexivity|]. split; [reflexivity|].
  intros w Hw. destruct verbose; cbn [andb] in Hw; [|inversion Hw].
  split; [reflexivity|].
  apply elem_of_app in Hw. destruct Hw as [Hw|Hw].
  - destruct (Z.ltb_spec (maxMem ÷ 2) mems); [|inversion Hw].
    apply list_elem_of_singleton in Hw. subst w.
    left. exists maxMem. split; [reflexivity | lia].
  - destruct (Z.ltb_spec (maxCpu ÷ 2) cpus); [|inversion Hw].
    apply list_elem_of_singleton in Hw. subst w.
    right. exists maxCpu. split; [reflexivity | lia].
Qed.

End TxSize.

(** ** Minimum deposit of the outputs *)

Section OutputDeposits.
Context {M : Type} `{!MoreCollaborators M}.
Context `{ToCbor Address} `{ToCbor Assets.t} `{ToCbor TxOutputDatum}.

Abbreviation Tx := (Tx_ TxBody TxWitnesses M).

Lemma validateOutput_loose (config : Config) (helper : NetworkParamsHelper.t)
    (o : TxOutput) :
  validateOutput config helper false o = Passed tt
  <-> holdsDeposit config helper o.
Proof.
  unfold validateOutput, holdsDeposit.
  destruct (calcDeposit config helper o) as [d|e]; cbn [lift andThen].
  - destruct (Z.ltb_spec (Value.lovelace (value o)) d).
    + split; [discriminate|]. intros (d' & [= <-] & Hle). lia.
    + split; [eauto | reflexivity].
  - split; [discriminate|]. intros (d' & Hd & _). discriminate.
Qed.

Lemma forEach_Passed {X} (f : X -> checked unit) (xs : list X) :
  forEach f xs = Passed tt <-> Forall (fun x => f x = Passed tt) xs.
Proof.
  induction xs as [|x xs IH]; cbn [forEach].
  - split; [constructor | reflexivity].
  - destruct (f x) as [[]|e] eqn:Hx; cbn [andThen].
    + rewrite IH. split; [intros Hall; constructor; assumption|].
      intros Hall. inversion Hall; assumption.
    + split; [discriminate|]. intros Hall. inversion Hall; congruence.
Qed.

(** The loop of [correctLovelace] returns only when the output holds its
    deposit, whatever the updater does. *)
Lemma correctLovelaceLoop_holdsDeposit (config : Config)
    (helper : NetworkParamsHelper.t) (updater : option (TxOutput -> TxOutput))
    (fuel : nat) (o o' : TxOutput) (minLovelace : Z) :
  calcDeposit config helper o = Ok minLovelace ->
  correctLovelaceLoop fuel config helper updater o minLovelace
  = Some (Ok o') ->
  holdsDeposit config helper o'.
Proof.
  revert o minLovelace. induction fuel as [|fuel IH]; intros o m Hm Hrun;
    cbn [correctLovelaceLoop] in Hrun;
    destruct (Z.ltb_spec (Value.lovelace (value o)) m) as [Hlt|Hge].
  - discriminate.
  - injection Hrun as <-. exists m. auto.
  - set (o2 := match updater with
                | Some u => u (setLovelace m o)
                | None => setLovelace m o
                end) in Hrun.
    destruct (calcDeposit config helper o2) as [m'|e] eqn:Hm';
      [|discriminate].
    exact (IH o2 m' Hm' Hrun).
  - injection Hrun as <-. exists m. auto.
Qed.

(** X4.  Whenever [correctLovelace] returns an output, with or without an
    updater, that output holds the deposit [calcDeposit] computes for it,
    and so passes the deposit check of [validateOutputs]; correcting it
    again, with any updater, changes nothing. *)
Theorem correctLovelace_result (config : Config)
    (helper : NetworkParamsHelper.t) (updater : option (TxOutput -> TxOutput))
    (fuel : nat) (o o' : TxOutput) :
  correctLovelace fuel config helper updater o = Some (Ok o') ->
  holdsDeposit config helper o'
  /\ validateOutput config helper false o' = Passed tt
  /\ forall fuel' updater',
       correctLovelace fuel' config helper updater' o' = Some (Ok o').
Proof.
  intros Hrun. unfold correctLovelace in Hrun.
  destruct (calcDeposit config helper o) as [m|e] eqn:Hm; [|discriminate].
  pose proof (correctLovelaceLoop_holdsDeposit config helper updater fuel
                o o' m Hm Hrun) as Hholds.
  split; [exact Hholds|]. split; [apply validateOutput_loose, Hholds|].
  intros fuel' updater'. destruct Hholds as (d & Hd & Hle).
  unfold correctLovelace. rewrite Hd.
  destruct fuel'; cbn [correctLovelaceLoop];
    destruct (Z.ltb_spec (Value.lovelace (value o')) d); (lia || reflexivity).
Qed.

(** X5.  Without strict mode [validateOutputs] passes exactly when every
    output holds the deposit computed for it; a transaction without outputs
    passes even when the price per byte is missing, and any output makes it
    fail then. *)
Theorem validateOutputs_spec (config : Config)
    (helper : NetworkParamsHelper.t) (tx : Tx) :
  (validateOutputs config helper false tx = Passed tt <->
     Forall (holdsDeposit config helper) (outputs (body tx)))
  /\ (outputs (body tx) = [] ->
      forall strict, validateOutputs config helper strict tx = Passed tt)
  /\ (utxoCostPerByte (NetworkParamsHelper.params helper) = None ->
      outputs (body tx) <> [] ->
      forall strict,
        validateOutputs config helper strict tx
        = Failed (Thrown (MissingParam "latestParams.utxoCostPerByte"))).
Proof.
  unfold validateOutputs. split; [|split].
  - rewrite forEach_Passed. split; intros Hall;
      (eapply Forall_impl; [exact Hall|]); intros o; cbv beta;
      apply validateOutput_loose.
  - intros -> strict. reflexivity.
  - intros Hp Hne strict. destruct (outputs (body tx)) as [|o os];
      [contradiction|].
    cbn [forEach]. unfold validateOutput, calcDeposit,
      NetworkParamsHelper.lovelacePerUTXOByte.
    rewrite Hp. reflexivity.
Qed.

End OutputDeposits.

Section HostileUpdater.
Context `{ToCbor Address} `{ToCbor Assets.t} `{ToCbor TxOutputDatum}.

Lemma correctLovelaceLoop_step (config : Config)
    (helper : NetworkParamsHelper.t) (u : TxOutput -> TxOutput) (n : nat)
    (o : TxOutput) (m : Z) :
  Value.lovelace (value o) < m ->
  correctLovelaceLoop (S n) config helper (Some u) o m
  = match calcDeposit config helper (u (setLovelace m o)) with
    | Err e => Some (Err e)
    | Ok m' => correctLovelaceLoop n config helper (Some u)
                 (u (setLovelace m o)) m'
    end.
Proof.
  intros Hlt. cbn [correctLovelaceLoop].
  destruct (Z.ltb_spec (Value.lovelace (value o)) m); [reflexivity | lia].
Qed.

(** X6.  The loop of [correctLovelace] need not end with an updater: when
    the price per byte is positive and the updater puts the lovelace back
    to zero, no number of iterations suffices, for an output that starts
    below its deposit. *)
Theorem correctLovelace_hostile_updater (config : Config)
    (helper : NetworkParamsHelper.t) (perByte : Z) (o : TxOutput)
    (deposit : Z) :
  utxoCostPerByte (NetworkParamsHelper.params helper) = Some perByte ->
  0 < perByte ->
  calcDeposit config helper o = Ok deposit ->
  Value.lovelace (value o) < deposit ->
  forall fuel,
    correctLovelace fuel config helper (Some (setLovelace 0)) o = None.
Proof.
  intros Hp Hpos Hd Hlt fuel.
  set (d0 := requiredDepositWith config perByte o 0).
  assert (Hzero : calcDeposit config helper (setLovelace 0 o) = Ok d0).
  { exact (calcDeposit_setLovelace config helper perByte Hp o 0). }
  assert (Hpos0 : 0 < d0).
  { unfold d0, requiredDepositWith.
    pose proof (sizeWith_nonneg config o 0). nia. }
  assert (Hloop : forall n,
    correctLovelaceLoop n config helper (Some (setLovelace 0))
      (setLovelace 0 o) d0 = None).
  { induction n as [|n IH].
    - cbn [correctLovelaceLoop setLovelace value Value.setLovelace
             Value.lovelace].
      destruct (Z.ltb_spec 0 d0); [reflexivity | lia].
    - rewrite correctLovelaceLoop_step by exact Hpos0.
      change (setLovelace 0 (setLovelace d0 (setLovelace 0 o)))
        with (setLovelace 0 o).
      rewrite Hzero. exact IH. }
  unfold correctLovelace. rewrite Hd.
  destruct fuel as [|fuel].
  - cbn [correctLovelaceLoop].
    destruct (Z.ltb_spec (Value.lovelace (value o)) deposit);
      [reflexivity | lia].
  - rewrite correctLovelaceLoop_step by exact Hlt.
    change (setLovelace 0 (setLovelace deposit o)) with (setLovelace 0 o).
    rewrite Hzero. apply Hloop.
Qed.

End HostileUpdater.

(** ** Order of the inputs *)

Section OrderChecks.
Context {X : Type}.
Variable compare : X -> X -> Z.
Variable e : CheckError.

Local Abbreviation ascending := (fun a b : X => compare a b < 0).

Lemma forEachFrom_order (xs pre suf : list X) :
  xs = pre ++ suf ->
  forEachFrom (length pre)
    (fun i x =>
       if (0 <? i)%nat then
         match xs !! (i - 1)%nat with
         | Some prev => if 0 <=? compare prev x then Failed e else Passed tt
         | None => Passed tt
         end
       else Passed tt)
    suf
  = Passed tt
  <-> Sorted ascending suf
      /\ match last pre with
         | Some p => HdRel ascending p suf
         | None => True
         end.
Proof.
  revert pre. induction suf as [|x suf IH]; intros pre Hxs.
  - cbn [forEachFrom]. split; [|reflexivity].
    intros _. split; [constructor|]. destruct (last pre); constructor.
  - cbn [forEachFrom].
    assert (Hnext : xs = (pre ++ [x]) ++ suf)
      by (rewrite <- app_assoc; exact Hxs).
    specialize (IH (pre ++ [x]) Hnext).
    rewrite length_app in IH. cbn [length] in IH.
    replace (length pre + 1)%nat with (S (length pre)) in IH by lia.
    rewrite last_snoc in IH.
    destruct pre as [|p0 pre'] eqn:Hpre.
    + cbn [length Nat.ltb Nat.leb andThen last].
      rewrite IH. split.
      * intros [Hs Hh]. split; [constructor; assumption | exact I].
      * intros [Hs _]. inversion Hs; subst. split; assumption.
    + rewrite <- Hpre in *.
      assert (Hlen : (0 <? length pre)%nat = true).
      { subst pre. reflexivity. }
      rewrite Hlen.
      assert (Hprev : xs !! (length pre - 1)%nat = last pre).
      { rewrite Hxs, lookup_app_l by (subst pre; cbn [length]; lia).
        rewrite last_lookup. f_equal. lia. }
      rewrite Hprev.
      assert (Hsome : exists p, last pre = Some p).
      { subst pre. destruct (last (p0 :: pre')) eqn:Hl; [eauto|].
        apply last_None in Hl. discriminate. }
      destruct Hsome as [p Hp]. rewrite Hp.
      destruct (Z.leb_spec 0 (compare p x)) as [Hge|Hlt]; cbn [andThen].
      * split; [discriminate|]. intros [_ Hh]. inversion Hh; subst. lia.
      * rewrite IH. split.
        -- intros [Hs Hh]. split; constructor; assumption.
        -- intros [Hs _]. inversion Hs; subst. split; assumption.
Qed.

Lemma validateOrder_Sorted (xs : list X) :
  validateOrder compare e xs = Passed tt <-> Sorted ascending xs.
Proof.
  unfold validateOrder.
  rewrite (forEachFrom_order xs [] xs eq_refl). cbn [last]. tauto.
Qed.

Lemma forEachFrom_error (f : nat -> X -> checked unit) (xs : list X)
    (i : nat) (e' : CheckError) :
  (forall j x e'', f j x = Failed e'' -> e'' = e) ->
  forEachFrom i f xs = Failed e' -> e' = e.
Proof.
  intros Hf. revert i. induction xs as [|x xs' IH]; intros i;
    cbn [forEachFrom]; [discriminate|].
  destruct (f i x) as [[]|e''] eqn:Hx; cbn [andThen]; [apply IH|].
  intros [= <-]. exact (Hf i x e'' Hx).
Qed.

Lemma validateOrder_error (xs : list X) (e' : CheckError) :
  validateOrder compare e xs = Failed e' -> e' = e.
Proof.
  unfold validateOrder. apply forEachFrom_error.
  intros j x e''. destruct (0 <? j)%nat; [|discriminate].
  destruct (xs !! (j - 1)%nat); [|discriminate].
  destruct (0 <=? compare _ x); [congruence | discriminate].
Qed.

End OrderChecks.

Section InputsOrder.
Context {M : Type} `{!MoreCollaborators M}.

Abbreviation Tx := (Tx_ TxBody TxWitnesses M).

(** X7.  [validateInputsOrder] passes exactly when each input compares
    strictly below the next one, and its only failure is "inputs aren't
    sorted"; the same holds of [validateRefInputsOrder] and the reference
    inputs.  When [TxInput.compare] is transitive, a passing list has every
    earlier input strictly below every later one, so that an input equal to
    itself under [compare] occurs at most once. *)
Theorem validateInputsOrder_spec (tx : Tx) :
  let ascending := fun a b => TxInput_compare a b < 0 in
  (validateInputsOrder tx = Passed tt <-> Sorted ascending (inputs (body tx)))
  /\ (validateRefInputsOrder tx = Passed tt
      <-> Sorted ascending (refInputs (body tx)))
  /\ (forall e, validateInputsOrder tx = Failed e -> e = InputsNotSorted)
  /\ (forall e, validateRefInputsOrder tx = Failed e -> e = RefInputsNotSorted)
  /\ (Transitive ascending ->
      validateInputsOrder tx = Passed tt ->
      forall i j a b,
        inputs (body tx) !! i = Some a ->
        inputs (body tx) !! j = Some b ->
        (i < j)%nat ->
        TxInput_compare a b < 0).
Proof.
  intros ascending.
  split; [apply validateOrder_Sorted|]. split; [apply validateOrder_Sorted|].
  split; [intros e; apply validateOrder_error|].
  split; [intros e; apply validateOrder_error|].
  intros Htrans Hok i j a b Hi Hj Hij.
  apply validateOrder_Sorted in Hok.
  apply (Sorted_StronglySorted ascending) in Hok.
  revert i j Hi Hj Hij.
  induction Hok as [|x xs _ IH Hall]; intros i j Hi Hj Hij; [discriminate|].
  destruct i as [|i], j as [|j]; try lia.
  - cbn in Hi, Hj. injection Hi as <-.
    rewrite Forall_forall in Hall. apply Hall.
    apply list_elem_of_lookup. eauto.
  - cbn in Hi, Hj. apply (IH i j); [assumption | assumption | lia].
Qed.

End InputsOrder.

(** ** Metadata *)

Section Metadata.
Context {M : Type} `{!MoreCollaborators M}.

Abbreviation Tx := (Tx_ TxBody TxWitnesses M).

(** X8.  [validateMetadata] passes exactly when metadata and metadata hash
    are both absent, or both present with the hash of the metadata equal to
    the declared one.  Hence, after [clearMetadata], a transaction whose
    body declares a metadata hash fails the check. *)
Theorem validateMetadata_spec (tx : Tx) :
  (validateMetadata tx = Passed tt <->
     (metadata tx = None /\ metadataHash (body tx) = None)
     \/ (exists m, metadata tx = Some m
                   /\ metadataHash (body tx) = Some (TxMetadata_hash m)))
  /\ (forall h, metadataHash (body tx) = Some h ->
        validateMetadata (clearMetadata tx)
        = Failed MetadataHashWithoutMetadata)
  /\ (metadataHash (body tx) = None ->
      validateMetadata (clearMetadata tx) = Passed tt).
Proof.
  unfold validateMetadata. split; [|split].
  - destruct (metadata tx) as [m|], (metadataHash (body tx)) as [h|].
    + pose proof (compareBytes_eq (TxMetadata_hash m) h) as Heq.
      destruct (Z.eqb_spec (compareBytes (TxMetadata_hash m) h) 0) as [Hz|Hz];
        cbn [negb].
      * split; [|reflexivity]. intros _. right. exists m.
        split; [reflexivity|]. f_equal. symmetry. apply Heq, Hz.
      * split; [discriminate|].
        intros [[Hm _]|(m' & [= <-] & [= Hh])]; [discriminate|].
        exfalso. apply Hz, Heq. congruence.
    + split; [discriminate|].
      intros [[Hm _]|(m' & _ & Hh)]; discriminate.
    + split; [discriminate|].
      intros [[_ Hh]|(m' & Hm & _)]; discriminate.
    + split; [tauto | reflexivity].
  - intros h Hh. cbn [clearMetadata metadata body]. rewrite Hh. reflexivity.
  - intros Hh. cbn [clearMetadata metadata body]. rewrite Hh. reflexivity.
Qed.

End Metadata.

(** ** Signatures *)

Section Signatures.
Context {M : Type} `{!MoreCollaborators M}.

Abbreviation Tx := (Tx_ TxBody TxWitnesses M).

Lemma checkSigner_Passed (tx : Tx) (s : bytes) :
  checkSigner (includedSigners tx) s = Passed tt
  <-> bytesToHex s ∈ signedKeys tx.
Proof.
  unfold checkSigner, includedSigners.
  case_decide as Hin; rewrite elem_of_setOfList in Hin.
  - split; [intros _; exact Hin | reflexivity].
  - split; [discriminate | contradiction].
Qed.

Lemma checkUtxoSigner_Passed (tx : Tx) (utxo : TxInput) :
  checkUtxoSigner (includedSigners tx) utxo = Passed tt <-> utxoSigned tx utxo.
Proof.
  unfold checkUtxoSigner, utxoSigned, TxInput_output, includedSigners.
  destruct (output utxo) as [out|]; cbn [expectSome lift andThen].
  - destruct (Address_pubKeyHash (address out)) as [pkh|] eqn:Hpk.
    + case_decide as Hin; rewrite elem_of_setOfList in Hin.
      * split; [|reflexivity]. intros _. exists out. split; [reflexivity|].
        intros pkh' Heq. rewrite Hpk in Heq. inversion Heq; subst. exact Hin.
      * split; [discriminate|]. intros (out' & Hout & Hk).
        inversion Hout; subst out'.
        exfalso. apply Hin, Hk. exact Hpk.
    + split; [|reflexivity]. intros _. exists out. split; [reflexivity|].
      intros pkh Heq. rewrite Hpk in Heq. discriminate.
  - split; [discriminate|]. intros (out & Hout & _). discriminate.
Qed.

(** X9.  [validateSignatures] succeeds exactly when every required signer
    has a signature, and every input and collateral input carries its
    output and, if that is locked by a key, the key has a signature; then
    it returns the transaction with [valid] set and nothing else changed.
    Signatures of other keys do not matter, and the signatures themselves
    are not verified. *)
Theorem validateSignatures_spec (tx tx' : Tx) :
  validateSignatures tx = Passed tx'
  <-> Forall (fun s => bytesToHex s ∈ signedKeys tx) (signers (body tx))
      /\ Forall (utxoSigned tx) (inputs (body tx) ++ collateral (body tx))
      /\ tx' = mkTx (body tx) (witnesses tx) true (metadata tx).
Proof.
  unfold validateSignatures.
  pose proof (forEach_Passed (checkSigner (includedSigners tx))
                (signers (body tx))) as Hs.
  pose proof (forEach_Passed (checkUtxoSigner (includedSigners tx))
                (inputs (body tx) ++ collateral (body tx))) as Hu.
  assert (Hs' : Forall (fun s => checkSigner (includedSigners tx) s = Passed tt)
                  (signers (body tx))
                <-> Forall (fun s => bytesToHex s ∈ signedKeys tx)
                      (signers (body tx))).
  { split; intros Hall; (eapply Forall_impl; [exact Hall|]); intros s;
      cbv beta; apply checkSigner_Passed. }
  assert (Hu' : Forall (fun u => checkUtxoSigner (includedSigners tx) u
                                 = Passed tt)
                  (inputs (body tx) ++ collateral (body tx))
                <-> Forall (utxoSigned tx)
                      (inputs (body tx) ++ collateral (body tx))).
  { split; intros Hall; (eapply Forall_impl; [exact Hall|]); intros u;
      cbv beta; apply checkUtxoSigner_Passed. }
  destruct (forEach (checkSigner _) _) as [[]|e1]; cbn [andThen].
  - destruct (forEach (checkUtxoSigner _) _) as [[]|e2]; cbn [andThen].
    + unfold setValid. split.
      * intros [= <-]. split; [apply Hs', Hs; reflexivity|].
        split; [apply Hu', Hu; reflexivity | reflexivity].
      * intros (_ & _ & ->). reflexivity.
    + split; [discriminate|]. intros (_ & Hall & _).
      apply Hu', Hu in Hall. discriminate.
  - split; [discriminate|]. intros (Hall & _).
    apply Hs', Hs in Hall. discriminate.
Qed.

End Signatures.

(** ** Scripts present, in full *)

Section ScriptsPresentFull.
Context {M : Type} `{Collaborators}.

Abbreviation Tx := (Tx_ TxBody TxWitnesses M).

(** X10.  [validateScriptsPresent] passes exactly when no two attached
    scripts have the same hash, there are no more attached scripts than
    required hashes (in either mode), every required hash is that of an
    attached script and, in strict mode, every attached script has a
    required hash. *)
Theorem validateScriptsPresent_iff (strict : bool) (tx : Tx) :
  let attached :=
    map (fun s => bytesToHex (scriptHash s)) (allScripts (witnesses tx)) in
  let required := map bytesToHex (allScriptHashes (body tx)) in
  validateScriptsPresent strict tx = Ok tt
  <-> NoDup attached
      /\ (length attached <= length required)%nat
      /\ (forall key, key ∈ required -> key ∈ attached)
      /\ (strict = true -> forall key, key ∈ attached -> key ∈ required).
Proof.
  intros attached required.
  assert (Hincl : includedScriptHashes tx = setOfList attached) by reflexivity.
  assert (Hsize : length (includedScriptHashes tx) = length attached
                  <-> NoDup attached).
  { rewrite Hincl. apply setOfList_length. }
  assert (Hlen : length attached = length (allScripts (witnesses tx))).
  { unfold attached. apply length_map. }
  assert (Hlenr : length required = length (allScriptHashes (body tx))).
  { unfold required. apply length_map. }
  split.
  - intros Hok.
    destruct (validateScriptsPresent_Ok_inv strict tx Hok)
      as (Hnd & Hreq & Hle & Hstrict).
    assert (Hnodup : NoDup attached) by (apply Hsize; lia).
    split; [exact Hnodup|].
    split; [apply Hsize in Hnodup; lia|].
    split.
    + intros key Hkey. unfold required in Hkey.
      apply list_elem_of_fmap in Hkey. destruct Hkey as (h & -> & Hh).
      rewrite Forall_forall in Hreq. specialize (Hreq h Hh).
      rewrite Hincl in Hreq. rewrite elem_of_setOfList in Hreq. exact Hreq.
    + intros -> key Hkey. specialize (Hstrict eq_refl).
      rewrite Forall_forall in Hstrict.
      destruct (Hstrict key) as (h & Hh & <-).
      { rewrite Hincl. apply elem_of_setOfList. exact Hkey. }
      unfold required. apply list_elem_of_fmap. eauto.
  - intros (Hnodup & Hle & Hreq & Hstrict).
    unfold validateScriptsPresent.
    apply Hsize in Hnodup.
    destruct (Nat.eqb_spec (length (allScripts (witnesses tx)))
                (length (includedScriptHashes tx))); [|lia].
    cbn [negb].
    destruct (Nat.ltb_spec (length (allScriptHashes (body tx)))
                (length (includedScriptHashes tx))); [lia|].
    assert (H1 : foldlM (requireIncluded (includedScriptHashes tx))
                   (allScriptHashes (body tx)) tt = Ok tt).
    { apply foldlM_unit_Ok. apply Forall_forall. intros h Hh.
      unfold requireIncluded. case_decide as Hin; [reflexivity|].
      exfalso. apply Hin. rewrite Hincl. apply elem_of_setOfList.
      apply Hreq. unfold required. apply list_elem_of_fmap. eauto. }
    rewrite H1. cbn [bind]. destruct strict; [|reflexivity].
    apply foldlM_unit_Ok. apply Forall_forall. intros key Hkey.
    unfold requireUsed.
    destruct (notRequired (allScriptHashes (body tx)) key) eqn:Hn;
      [|reflexivity].
    exfalso. rewrite Hincl in Hkey. rewrite elem_of_setOfList in Hkey.
    specialize (Hstrict eq_refl key Hkey). unfold required in Hstrict.
    apply list_elem_of_fmap in Hstrict. destruct Hstrict as (h & -> & Hh).
    unfold notRequired in Hn. rewrite forallb_forall in Hn.
    apply list_elem_of_In in Hh. specialize (Hn h Hh).
    rewrite bool_decide_eq_true_2 in Hn by reflexivity. discriminate.
Qed.

End ScriptsPresentFull.

(** ** Byte strings of any length *)

Section ByteStrings.

Lemma decodeIntBE_snoc (l : bytes) (b : Z) :
  Cbor.decodeIntBE (l ++ [b]) = Cbor.decodeIntBE l * 256 + b.
Proof. unfold Cbor.decodeIntBE. rewrite fold_left_app. reflexivity. Qed.

Lemma decodeIntBE_beDigits (k : nat) (x : Z) :
  Cbor.decodeIntBE (Cbor.beDigits k x) = x mod 256 ^ Z.of_nat k.
Proof.
  revert x. induction k as [|k IH]; intros x.
  - cbn. rewrite Z.mod_1_r. reflexivity.
  - cbn [Cbor.beDigits]. rewrite decodeIntBE_snoc, IH.
    rewrite Nat2Z.inj_succ, Z.pow_succ_r by lia.
    rewrite Z.rem_mul_r by lia. lia.
Qed.

Lemma shiftMany_app (n : nat) (bs rest : bytes) :
  length bs = n -> Cbor.shiftMany n (bs ++ rest) = Ok (bs, rest).
Proof.
  intros <-. unfold Cbor.shiftMany. rewrite length_app.
  destruct (Nat.leb_spec (length bs) (length bs + length rest)); [|lia].
  rewrite take_app_length, drop_app_length. reflexivity.
Qed.

Lemma head_byte (m c : Z) :
  0 <= c < 32 ->
  Cbor.majorType (32 * m + c) = m /\ (32 * m + c) mod 32 = c.
Proof.
  intros Hc. unfold Cbor.majorType. split; symmetry.
  - apply (Z.div_unique _ 32 m c); lia.
  - apply (Z.mod_unique _ 32 m c); lia.
Qed.

Lemma decodeDefHead_wide (m c : Z) (k : nat) (n : Z) (rest : bytes) :
  (c = 24 /\ k = 1%nat) \/ (c = 25 /\ k = 2%nat)
  \/ (c = 26 /\ k = 4%nat) \/ (c = 27 /\ k = 8%nat) ->
  0 <= n < 256 ^ Z.of_nat k ->
  Cbor.decodeDefHead ((32 * m + c) :: Cbor.beDigits k n ++ rest)
  = Ok ((m, n), rest).
Proof.
  intros Hc Hn. unfold Cbor.decodeDefHead.
  destruct (head_byte m c ltac:(lia)) as [-> ->].
  assert (Hs : Cbor.shiftMany k (Cbor.beDigits k n ++ rest)
               = Ok (Cbor.beDigits k n, rest))
    by (apply shiftMany_app, beDigits_length).
  assert (Hd : Cbor.decodeIntBE (Cbor.beDigits k n) = n)
    by (rewrite decodeIntBE_beDigits; apply Z.mod_small; exact Hn).
  destruct Hc as [[-> ->]|[[-> ->]|[[-> ->]|[-> ->]]]];
    cbv zeta; cbn [Z.leb Z.eqb Z.compare Pos.compare Pos.compare_cont Pos.eqb];
    rewrite Hs; cbn [bind]; rewrite Hd; reflexivity.
Qed.

(** The head written by [encodeDefHead] is read back by [decodeDefHead]. *)
Lemma decodeDefHead_encodeDefHead (m n : Z) (rest : bytes) :
  0 <= n < 2 ^ 64 ->
  Cbor.decodeDefHead (Cbor.encodeDefHead m n ++ rest) = Ok ((m, n), rest).
Proof.
  intros Hn. unfold Cbor.encodeDefHead.
  destruct (Z.leb_spec n 23).
  { cbn [app]. unfold Cbor.decodeDefHead.
    destruct (head_byte m n ltac:(lia)) as [-> ->].
    destruct (Z.leb_spec n 23); [reflexivity | lia]. }
  destruct (Z.leb_spec n 255).
  { change [32 * m + 24; n] with ((32 * m + 24) :: [n]).
    replace [n] with (Cbor.beDigits 1 n)
      by (cbn; rewrite Z.mod_small by lia; reflexivity).
    apply decodeDefHead_wide; [auto | cbn; lia]. }
  destruct (Z.leb_spec n 65535).
  { change [32 * m + 25; (n / 256) mod 256; n mod 256]
      with ((32 * m + 25) :: Cbor.beDigits 2 n).
    apply decodeDefHead_wide; [auto | cbn; lia]. }
  destruct (Z.leb_spec n 4294967295).
  { cbn [app]. unfold Cbor.padBE.
    apply decodeDefHead_wide; [auto 6 | cbn; lia]. }
  cbn [app]. unfold Cbor.padBE.
  apply decodeDefHead_wide; [auto 6 | cbn; lia].
Qed.

Lemma encodeDefHead_first (n : Z) :
  0 <= n ->
  exists b tl, Cbor.encodeDefHead 2 n = b :: tl /\ 64 <= b <= 91.
Proof.
  intros Hn. unfold Cbor.encodeDefHead.
  destruct (Z.leb_spec n 23); [eexists _, _; split; [reflexivity | lia]|].
  destruct (Z.leb_spec n 255); [eexists _, _; split; [reflexivity | lia]|].
  destruct (Z.leb_spec n 65535); [eexists _, _; split; [reflexivity | lia]|].
  destruct (Z.leb_spec n 4294967295);
    eexists _, _; (split; [reflexivity | lia]).
Qed.

Lemma decodeBytes_definite (b : Z) (tl : bytes) :
  b <> 95 ->
  Cbor.decodeBytes (b :: tl)
  = let* r := Cbor.decodeDefHead (b :: tl) in
    (let '((m, n), rest) := r in
     if m =? 2 then Cbor.shiftMany (Z.to_nat n) rest
     else Err (CborError "invalid def bytes")).
Proof.
  intros Hb. unfold Cbor.decodeBytes.
  destruct b as [|p|p]; try reflexivity.
  do 7 (try (destruct p as [p|p|]; try reflexivity)).
  congruence.
Qed.

(** A byte string of any length that CBOR can frame is read back whole. *)
Lemma decodeBytes_encodeBytes (bs rest : bytes) :
  Z.of_nat (length bs) < 2 ^ 64 ->
  Cbor.decodeBytes (Cbor.encodeBytes bs ++ rest) = Ok (bs, rest).
Proof.
  intros Hlen. unfold Cbor.encodeBytes.
  pose proof (decodeDefHead_encodeDefHead 2 (Z.of_nat (length bs))
                (bs ++ rest) ltac:(lia)) as Hhead.
  destruct (encodeDefHead_first (Z.of_nat (length bs)) ltac:(lia))
    as (b & tl & Heq & Hb).
  rewrite <- app_assoc. rewrite Heq in *. cbn [app] in *.
  rewrite decodeBytes_definite by lia.
  rewrite Hhead. cbn [bind]. change (2 =? 2) with true. cbv iota.
  rewrite Nat2Z.id. apply shiftMany_app. reflexivity.
Qed.

Lemma decodeChunks_not_break (fuel : nat) (acc : bytes) (b : Z)
    (tl : bytes) :
  b <> 255 ->
  Cbor.decodeChunks (S fuel) acc (b :: tl)
  = let* r := Cbor.decodeDefHead (b :: tl) in
    (let '((m, n), rest) := r in
     if m =? 2 then
       let* r' := Cbor.shiftMany (Z.to_nat n) rest in
       (let '(chunk, rest') := r' in
        Cbor.decodeChunks fuel (acc ++ chunk) rest')
     else Err (CborError "invalid def bytes")).
Proof.
  intros Hb. cbn [Cbor.decodeChunks].
  destruct b as [|p|p]; try reflexivity.
  do 8 (try (destruct p as [p|p|]; try reflexivity)).
  congruence.
Qed.

(** The chunks of an indefinite-length byte string are read one after the
    other, up to the break. *)
Lemma decodeChunks_chunks (chunks : list bytes) :
  forall (fuel : nat) (acc rest : bytes),
    Forall (fun c => Z.of_nat (length c) < 2 ^ 64) chunks ->
    (length chunks < fuel)%nat ->
    Cbor.decodeChunks fuel acc
      (concat (map Cbor.encodeBytes chunks) ++ 255 :: rest)
    = Ok (acc ++ concat chunks, rest).
Proof.
  induction chunks as [|c chunks IH]; intros fuel acc rest Hsmall Hfuel.
  - destruct fuel as [|fuel]; [cbn in Hfuel; lia|].
    cbn [map concat app]. rewrite app_nil_r. reflexivity.
  - destruct fuel as [|fuel]; [cbn in Hfuel; lia|].
    cbn [length] in Hfuel.
    apply Forall_cons in Hsmall. destruct Hsmall as [Hc Hsmall].
    cbn [map concat]. rewrite <- app_assoc.
    set (tail := concat (map Cbor.encodeBytes chunks) ++ 255 :: rest).
    unfold Cbor.encodeBytes at 1. rewrite <- app_assoc.
    pose proof (decodeDefHead_encodeDefHead 2 (Z.of_nat (length c))
                  (c ++ tail) ltac:(lia)) as Hhead.
    destruct (encodeDefHead_first (Z.of_nat (length c)) ltac:(lia))
      as (b & tl & Heq & Hb).
    rewrite Heq in *. cbn [app] in *.
    rewrite decodeChunks_not_break by lia.
    rewrite Hhead. cbn [bind]. change (2 =? 2) with true. cbv iota.
    rewrite Nat2Z.id, (shiftMany_app (length c) c tail eq_refl). cbn [bind].
    unfold tail. rewrite (IH fuel (acc ++ c) rest Hsmall ltac:(lia)).
    rewrite <- app_assoc. reflexivity.
Qed.

Lemma chunks_shorter (chunks : list bytes) (rest : bytes) :
  (length chunks
   < length (concat (map Cbor.encodeBytes chunks) ++ 255%Z :: rest))%nat.
Proof.
  induction chunks as [|c chunks IH]; cbn [map concat length app]; [lia|].
  rewrite <- app_assoc, length_app. unfold Cbor.encodeBytes at 1.
  rewrite length_app.
  pose proof (encodeDefHead_length 2 (Z.of_nat (length c))). lia.
Qed.

(** An indefinite-length byte string is read back as its chunks put
    together. *)
Lemma decodeBytes_chunked (chunks : list bytes) (rest : bytes) :
  Forall (fun c => Z.of_nat (length c) < 2 ^ 64) chunks ->
  Cbor.decodeBytes (95 :: concat (map Cbor.encodeBytes chunks) ++ 255 :: rest)
  = Ok (concat chunks, rest).
Proof.
  intros Hsmall.
  change (Cbor.decodeBytes (95 :: ?x))
    with (Cbor.decodeChunks (length x) [] x).
  apply (decodeChunks_chunks chunks _ [] rest Hsmall), chunks_shorter.
Qed.

(** What [PubKeyHash.fromCbor] makes of a stream from whose front
    [decodeBytes] reads a byte string. *)
Lemma PubKeyHash_fromCbor_of_bytes (s bs rest : bytes) :
  Cbor.decodeBytes s = Ok (bs, rest) ->
  match PubKeyHash.fromCbor s with
  | Ok (h, rest') =>
      length bs = 28%nat /\ PubKeyHash.bytes_ h = bs /\ rest' = rest
      /\ PubKeyHash.toCbor h = Cbor.encodeBytes bs
  | Err e =>
      length bs <> 28%nat /\ e = BadHashLength (Z.of_nat (length bs))
  end.
Proof.
  intros Hdec. unfold PubKeyHash.fromCbor. rewrite Hdec. cbn [bind].
  unfold PubKeyHash.new.
  destruct (decide _) as [Hl|Hn]; cbn [bind].
  - pose proof (bool_decide_unpack _ Hl) as Hl'.
    unfold PubKeyHash.toCbor. cbn [PubKeyHash.bytes_]. auto.
  - split; [|reflexivity]. intros Heq. apply Hn, bool_decide_pack, Heq.
Qed.

Lemma PubKeyHash_toCbor_first (h : PubKeyHash.t) (rest : bytes) :
  exists tl, PubKeyHash.toCbor h ++ rest = 88 :: tl.
Proof.
  unfold PubKeyHash.toCbor, Cbor.encodeBytes. rewrite PubKeyHash_length.
  eexists. reflexivity.
Qed.

(** X11.  [PubKeyHash.fromCbor] accepts a stream exactly when [decodeBytes]
    reads a byte string of 28 bytes from its front, of definite length or
    in chunks: the hash has these bytes and the rest of the stream is
    left.  A byte string of another length is refused with the length
    found, and a stream that [decodeBytes] refuses with the error of
    [decodeBytes].  [toCbor] writes the definite-length encoding: the bytes
    of the input when that was written by [encodeBytes], and other bytes
    when the input was in chunks. *)
Theorem PubKeyHash_fromCbor_spec :
  (forall s,
     match Cbor.decodeBytes s with
     | Ok (bs, rest) =>
         match PubKeyHash.fromCbor s with
         | Ok (h, rest') =>
             length bs = 28%nat /\ PubKeyHash.bytes_ h = bs /\ rest' = rest
             /\ PubKeyHash.toCbor h = Cbor.encodeBytes bs
         | Err e =>
             length bs <> 28%nat /\ e = BadHashLength (Z.of_nat (length bs))
         end
     | Err e => PubKeyHash.fromCbor s = Err e
     end)
  /\ (forall bs rest,
        Z.of_nat (length bs) < 2 ^ 64 ->
        match PubKeyHash.fromCbor (Cbor.encodeBytes bs ++ rest) with
        | Ok (h, rest') =>
            length bs = 28%nat /\ PubKeyHash.bytes_ h = bs /\ rest' = rest
            /\ PubKeyHash.toCbor h ++ rest' = Cbor.encodeBytes bs ++ rest
        | Err e =>
            length bs <> 28%nat /\ e = BadHashLength (Z.of_nat (length bs))
        end)
  /\ (forall chunks rest,
        Forall (fun c => Z.of_nat (length c) < 2 ^ 64) chunks ->
        let s := 95 :: concat (map Cbor.encodeBytes chunks) ++ 255 :: rest in
        match PubKeyHash.fromCbor s with
        | Ok (h, rest') =>
            length (concat chunks) = 28%nat
            /\ PubKeyHash.bytes_ h = concat chunks /\ rest' = rest
            /\ PubKeyHash.toCbor h ++ rest' <> s
        | Err e =>
            length (concat chunks) <> 28%nat
            /\ e = BadHashLength (Z.of_nat (length (concat chunks)))
        end).
Proof.
  split; [|split].
  - intros s. destruct (Cbor.decodeBytes s) as [[bs rest]|e] eqn:Hdec.
    + apply PubKeyHash_fromCbor_of_bytes, Hdec.
    + unfold PubKeyHash.fromCbor. rewrite Hdec. reflexivity.
  - intros bs rest Hlen.
    pose proof (PubKeyHash_fromCbor_of_bytes _ bs rest
                  (decodeBytes_encodeBytes bs rest Hlen)) as Hspec.
    destruct (PubKeyHash.fromCbor _) as [[h rest']|e]; [|exact Hspec].
    destruct Hspec as (Hl & Hb & -> & ->). auto.
  - intros chunks rest Hsmall s.
    pose proof (PubKeyHash_fromCbor_of_bytes s (concat chunks) rest
                  (decodeBytes_chunked chunks rest Hsmall)) as Hspec.
    destruct (PubKeyHash.fromCbor s) as [[h rest']|e]; [|exact Hspec].
    destruct Hspec as (Hl & Hb & -> & _).
    split; [exact Hl|]. split; [exact Hb|]. split; [reflexivity|].
    destruct (PubKeyHash_toCbor_first h rest) as [tl ->].
    unfold s. intros [=].
Qed.

End ByteStrings.

(** ** PubKeyHash as script data and as a hexadecimal key *)

Section PubKeyHashForms.

(** X12.  [PubKeyHash.fromUplcData] is the inverse of [toUplcData]: it gives
    a hash exactly for the data [toUplcData] writes for it.  Data of another
    kind is refused as not being a byte array, and a byte array of another
    length than 28 with the error of the constructor. *)
Theorem PubKeyHash_fromUplcData_spec :
  (forall h, PubKeyHash_fromUplcData (PubKeyHash_toUplcData h) = Passed h)
  /\ forall data,
       match PubKeyHash_fromUplcData data with
       | Passed h => data = PubKeyHash_toUplcData h
       | Failed e =>
           (forall h, data <> PubKeyHash_toUplcData h)
           /\ match data with
              | ByteArrayData bs =>
                  length bs <> 28%nat
                  /\ e = Thrown (BadHashLength (Z.of_nat (length bs)))
              | _ => e = ExpectedByteArrayData
              end
       end.
Proof.
  split.
  - intros h. unfold PubKeyHash_fromUplcData, PubKeyHash_toUplcData.
    cbn [ByteArrayData_expect andThen]. rewrite PubKeyHash_new_bytes.
    reflexivity.
  - intros data. unfold PubKeyHash_fromUplcData, PubKeyHash_toUplcData.
    destruct data as [tag fields|pairs|items|value|bs];
      cbn [ByteArrayData_expect andThen];
      try (split; [intros h; discriminate | reflexivity]).
    destruct (PubKeyHash.new bs) as [h|e] eqn:Hnew; cbn [lift].
    + apply PubKeyHash_new_Ok in Hnew. destruct Hnew as [_ ->]. reflexivity.
    + unfold PubKeyHash.new in Hnew.
      destruct (decide _) as [Hl|Hn]; [discriminate|].
      injection Hnew as <-.
      assert (Hlen : length bs <> 28%nat).
      { intros Heq. apply Hn, bool_decide_pack, Heq. }
      split; [|split; [exact Hlen | reflexivity]].
      intros h [= ->]. apply Hlen, PubKeyHash_length.
Qed.

Lemma hexDigit_value (d : Z) :
  0 <= d < 16 ->
  hexDigitValue (hexDigit d) = d /\ exists c, hexDigit d = String c "".
Proof.
  intros Hd.
  assert (Hcases : d = 0 \/ d = 1 \/ d = 2 \/ d = 3 \/ d = 4 \/ d = 5
                   \/ d = 6 \/ d = 7 \/ d = 8 \/ d = 9 \/ d = 10 \/ d = 11
                   \/ d = 12 \/ d = 13 \/ d = 14 \/ d = 15) by lia.
  repeat (destruct Hcases as [->|Hcases];
          [split; [reflexivity | eexists; reflexivity]|]).
  subst d. split; [reflexivity | eexists; reflexivity].
Qed.

Lemma hexDigit_inj (d1 d2 : Z) :
  0 <= d1 < 16 -> 0 <= d2 < 16 -> hexDigit d1 = hexDigit d2 -> d1 = d2.
Proof.
  intros H1 H2 Heq.
  destruct (hexDigit_value d1 H1) as [<- _].
  destruct (hexDigit_value d2 H2) as [<- _].
  rewrite Heq. reflexivity.
Qed.

Lemma bytesToHex_cons (b : Z) (rest : bytes) :
  0 <= b < 256 ->
  exists c1 c2,
    hexDigit (b / 16) = String c1 "" /\ hexDigit (b mod 16) = String c2 ""
    /\ bytesToHex (b :: rest) = String c1 (String c2 (bytesToHex rest)).
Proof.
  intros Hb.
  assert (Hq : 0 <= b / 16 < 16).
  { split; [apply Z.div_pos; lia | apply Z.div_lt_upper_bound; lia]. }
  assert (Hr : 0 <= b mod 16 < 16) by (apply Z.mod_pos_bound; lia).
  destruct (hexDigit_value _ Hq) as [_ [c1 H1]].
  destruct (hexDigit_value _ Hr) as [_ [c2 H2]].
  exists c1, c2. split; [exact H1|]. split; [exact H2|].
  cbn [bytesToHex]. rewrite H1, H2. reflexivity.
Qed.

(** Two byte arrays with the same hexadecimal form are the same. *)
Lemma bytesToHex_inj (a b : bytes) :
  isBytes a -> isBytes b -> bytesToHex a = bytesToHex b -> a = b.
Proof.
  unfold isBytes. revert b.
  induction a as [|x a IH]; intros [|y b] Ha Hb Heq.
  - reflexivity.
  - apply Forall_cons in Hb. destruct Hb as [Hy _].
    destruct (bytesToHex_cons y b Hy) as (c1 & c2 & _ & _ & Hs).
    rewrite Hs in Heq. discriminate.
  - apply Forall_cons in Ha. destruct Ha as [Hx _].
    destruct (bytesToHex_cons x a Hx) as (c1 & c2 & _ & _ & Hs).
    rewrite Hs in Heq. discriminate.
  - apply Forall_cons in Ha. destruct Ha as [Hx Ha].
    apply Forall_cons in Hb. destruct Hb as [Hy Hb].
    destruct (bytesToHex_cons x a Hx) as (c1 & c2 & Hx1 & Hx2 & Hsx).
    destruct (bytesToHex_cons y b Hy) as (d1 & d2 & Hy1 & Hy2 & Hsy).
    rewrite Hsx, Hsy in Heq. injection Heq as -> -> Hrest.
    assert (Hq : x / 16 = y / 16).
    { apply hexDigit_inj;
        [split; [apply Z.div_pos; lia | apply Z.div_lt_upper_bound; lia]
        |split; [apply Z.div_pos; lia | apply Z.div_lt_upper_bound; lia]
        |congruence]. }
    assert (Hr : x mod 16 = y mod 16).
    { apply hexDigit_inj;
        [apply Z.mod_pos_bound; lia | apply Z.mod_pos_bound; lia
        |congruence]. }
    f_equal.
    + rewrite (Z.div_mod x 16), (Z.div_mod y 16) by lia. congruence.
    + apply IH; assumption.
Qed.

Lemma bytesToHex_length (a : bytes) :
  isBytes a -> String.length (bytesToHex a) = (2 * length a)%nat.
Proof.
  unfold isBytes. induction a as [|x a IH]; intros Ha; [reflexivity|].
  apply Forall_cons in Ha. destruct Ha as [Hx Ha].
  destruct (bytesToHex_cons x a Hx) as (c1 & c2 & _ & _ & ->).
  cbn [String.length length]. rewrite (IH Ha). lia.
Qed.

(** X13.  The hexadecimal form [toHex] identifies the hash: it has 56
    digits, and two hashes with the same form are the same hash.  The
    sets of hexadecimal keys that the checks of signatures and scripts
    build therefore tell hashes apart as the hashes themselves do. *)
Theorem PubKeyHash_toHex_inj (h1 h2 : PubKeyHash.t) :
  isBytes (PubKeyHash.bytes_ h1) ->
  isBytes (PubKeyHash.bytes_ h2) ->
  String.length (PubKeyHash_toHex h1) = 56%nat
  /\ (PubKeyHash_toHex h1 = PubKeyHash_toHex h2 <-> h1 = h2).
Proof.
  intros H1 H2. unfold PubKeyHash_toHex. split.
  - rewrite bytesToHex_length by exact H1. rewrite PubKeyHash_length.
    reflexivity.
  - split; [|intros ->; reflexivity].
    intros Heq. apply PubKeyHash_eq, bytesToHex_inj; assumption.
Qed.

End PubKeyHashForms.

(** ** The order of validator hashes *)

Section HashOrder.

Lemma compareBytes_range (a b : bytes) :
  compareBytes a b = -1 \/ compareBytes a b = 0 \/ compareBytes a b = 1.
Proof.
  revert b. induction a as [|x a IH]; intros [|y b]; cbn [compareBytes];
    auto.
  destruct (x <? y); [auto|]. destruct (y <? x); [auto|]. apply IH.
Qed.

Lemma compareBytes_antisym (a b : bytes) :
  compareBytes b a = - compareBytes a b.
Proof.
  revert b. induction a as [|x a IH]; intros [|y b]; cbn [compareBytes];
    try reflexivity.
  destruct (Z.ltb_spec x y), (Z.ltb_spec y x); try reflexivity; try lia.
  apply IH.
Qed.

Lemma compareBytes_trans (a b c : bytes) :
  compareBytes a b < 0 -> compareBytes b c < 0 -> compareBytes a c < 0.
Proof.
  revert b c. induction a as [|x a IH]; intros [|y b] [|z c];
    cbn [compareBytes]; try lia.
  destruct (Z.ltb_spec x y), (Z.ltb_spec y x), (Z.ltb_spec y z),
    (Z.ltb_spec z y), (Z.ltb_spec x z), (Z.ltb_spec z x);
    try lia.
  apply IH.
Qed.

(** X14.  [ValidatorHash.compare] is a strict total order on the bytes of
    the hashes, with values -1, 0 and 1: it is zero exactly for equal
    bytes, which is when [isEqual] holds, swapping the arguments negates
    it, and it is transitive.  The context of a hash plays no part: two
    hashes made of the same bytes with different contexts are equal for
    both. *)
Theorem ValidatorHash_compare_order {C D E : Type}
    (a : ValidatorHash.t C) (b : ValidatorHash.t D) (c : ValidatorHash.t E) :
  (ValidatorHash.compare a b = -1 \/ ValidatorHash.compare a b = 0
   \/ ValidatorHash.compare a b = 1)
  /\ (ValidatorHash.compare a b = 0
      <-> ValidatorHash.bytes_ a = ValidatorHash.bytes_ b)
  /\ (ValidatorHash.isEqual a b = true <-> ValidatorHash.compare a b = 0)
  /\ ValidatorHash.compare b a = - ValidatorHash.compare a b
  /\ (ValidatorHash.compare a b < 0 -> ValidatorHash.compare b c < 0 ->
      ValidatorHash.compare a c < 0)
  /\ (forall bs (c1 : option C) (c2 : option D) h1 h2,
        ValidatorHash.new bs c1 = Passed h1 ->
        ValidatorHash.new bs c2 = Passed h2 ->
        ValidatorHash.isEqual h1 h2 = true
        /\ ValidatorHash.context h1 = c1 /\ ValidatorHash.context h2 = c2).
Proof.
  unfold ValidatorHash.compare, ValidatorHash.isEqual,
    ValidatorHash.equalsBytes.
  split; [apply compareBytes_range|].
  split; [apply compareBytes_eq|].
  split; [apply Z.eqb_eq|].
  split; [apply compareBytes_antisym|].
  split; [apply compareBytes_trans|].
  intros bs c1 c2 h1 h2. unfold ValidatorHash.new.
  destruct (decide _) as [Hl|Hn]; [|discriminate].
  intros [= <-] [= <-]. cbn [ValidatorHash.bytes_ ValidatorHash.context].
  split; [|split; reflexivity].
  apply Z.eqb_eq, compareBytes_eq. reflexivity.
Qed.

(** X19.  [ValidatorHash.fromCbor] gives a hash exactly for a stream from
    whose front [decodeBytes] reads a byte string of 28 bytes, of definite
    length or in chunks, and [ValidatorHash.fromUplcData] exactly for
    byte-array data of 28 bytes: the hash has these bytes and no context.
    Any other length is refused with the length found, a stream that
    [decodeBytes] refuses with the error of [decodeBytes], and data of
    another kind as not being a byte array. *)
Theorem ValidatorHash_fromCbor_spec :
  let accepts (bs : bytes) (r : checked (ValidatorHash.t unit)) :=
    match r with
    | Passed h =>
        length bs = 28%nat /\ ValidatorHash.bytes_ h = bs
        /\ ValidatorHash.context h = None
    | Failed e =>
        length bs <> 28%nat
        /\ e = BadValidatorHashLength (Z.of_nat (length bs))
    end in
  (forall s,
     match Cbor.decodeBytes s with
     | Ok (bs, _) => accepts bs (ValidatorHash.fromCbor s)
     | Err e => ValidatorHash.fromCbor s = Failed (Thrown e)
     end)
  /\ (forall bs rest,
        Z.of_nat (length bs) < 2 ^ 64 ->
        accepts bs (ValidatorHash.fromCbor (Cbor.encodeBytes bs ++ rest)))
  /\ (forall chunks rest,
        Forall (fun c => Z.of_nat (length c) < 2 ^ 64) chunks ->
        accepts (concat chunks)
          (ValidatorHash.fromCbor
             (95 :: concat (map Cbor.encodeBytes chunks) ++ 255 :: rest)))
  /\ (forall bs, accepts bs (ValidatorHash.fromUplcData (ByteArrayData bs)))
  /\ forall data,
       (forall value, data <> ByteArrayData value) ->
       ValidatorHash.fromUplcData data = Failed ExpectedByteArrayData.
Proof.
  intros accepts.
  assert (Hnew : forall bs, accepts bs (ValidatorHash.new bs None)).
  { intros bs. unfold accepts, ValidatorHash.new.
    destruct (decide _) as [Hl|Hn].
    - pose proof (bool_decide_unpack _ Hl) as Hl'.
      cbn [ValidatorHash.bytes_ ValidatorHash.context]. auto.
    - split; [|reflexivity]. intros Heq. apply Hn, bool_decide_pack, Heq. }
  assert (Hread : forall s bs rest,
            Cbor.decodeBytes s = Ok (bs, rest) ->
            accepts bs (ValidatorHash.fromCbor s)).
  { intros s bs rest Hdec. unfold ValidatorHash.fromCbor. rewrite Hdec.
    cbn [lift andThen fst]. apply Hnew. }
  split; [|split; [|split; [|split]]].
  - intros s. destruct (Cbor.decodeBytes s) as [[bs rest]|e] eqn:Hdec.
    + exact (Hread s bs rest Hdec).
    + unfold ValidatorHash.fromCbor. rewrite Hdec. reflexivity.
  - intros bs rest Hlen.
    exact (Hread _ bs rest (decodeBytes_encodeBytes bs rest Hlen)).
  - intros chunks rest Hsmall.
    exact (Hread _ (concat chunks) rest
             (decodeBytes_chunked chunks rest Hsmall)).
  - intros bs. unfold ValidatorHash.fromUplcData.
    cbn [ByteArrayData_expect andThen]. apply Hnew.
  - intros data Hkind. unfold ValidatorHash.fromUplcData.
    destruct data as [tag fields|pairs|items|value|value]; try reflexivity.
    exfalso. apply (Hkind value). reflexivity.
Qed.

End HashOrder.

(** ** Slots and time *)

Section SlotsAndTime.

Lemma roundDiv_multiple (k d : Z) : 0 < d -> SlotHelper.roundDiv (k * d) d = k.
Proof.
  intros Hd. unfold SlotHelper.roundDiv. symmetry.
  apply (Z.div_unique _ (2 * d) k d); lia.
Qed.

Lemma roundDiv_bounds (a d : Z) :
  0 < d ->
  let k := SlotHelper.roundDiv a d in
  - d < 2 * (k * d - a) <= d.
Proof.
  intros Hd k. unfold k, SlotHelper.roundDiv.
  pose proof (Z.div_mod (2 * a + d) (2 * d) ltac:(lia)) as Hdm.
  pose proof (Z.mod_pos_bound (2 * a + d) (2 * d) ltac:(lia)) as Hm.
  nia.
Qed.

Lemma roundDiv_mono (a b d : Z) :
  0 < d -> a <= b -> SlotHelper.roundDiv a d <= SlotHelper.roundDiv b d.
Proof.
  intros Hd Hab. unfold SlotHelper.roundDiv.
  apply Z.div_le_mono; lia.
Qed.


End SlotsAndTime.

(** ** Cost parameters in the order of their names *)

Section SortedCostParams.

Lemma ascii_compare_trans_lt (a b c : Ascii.ascii) :
  Ascii.compare a b = Lt -> Ascii.compare b c = Lt -> Ascii.compare a c = Lt.
Proof.
  unfold Ascii.compare. rewrite !N.compare_lt_iff. lia.
Qed.

Lemma string_leb_trans (a b c : string) :
  String.leb a b = true -> String.leb b c = true -> String.leb a c = true.
Proof.
  unfold String.leb. revert b c.
  induction a as [|x a IH]; intros [|y b] [|z c]; cbn [String.compare];
    try reflexivity; try discriminate.
  destruct (Ascii.compare x y) eqn:Hxy; [| |discriminate];
    destruct (Ascii.compare y z) eqn:Hyz; try discriminate.
  - apply Ascii.compare_eq_iff in Hxy. apply Ascii.compare_eq_iff in Hyz.
    subst y z.
    assert (Hxx : Ascii.compare x x = Eq)
      by (unfold Ascii.compare; apply N.compare_refl).
    rewrite Hxx.
    apply IH.
  - apply Ascii.compare_eq_iff in Hxy. subst y. rewrite Hyz. reflexivity.
  - apply Ascii.compare_eq_iff in Hyz. subst z. rewrite Hxy. reflexivity.
  - rewrite (ascii_compare_trans_lt x y z Hxy Hyz). reflexivity.
Qed.

Lemma keyLe_trans : Transitive keyLe.
Proof.
  intros a b c. unfold keyLe. intros Hab Hbc.
  apply Is_true_true in Hab. apply Is_true_true in Hbc.
  apply Is_true_true. exact (string_leb_trans a b c Hab Hbc).
Qed.

Lemma keyLe_antisym : AntiSymm eq keyLe.
Proof.
  intros a b. unfold keyLe. intros Hab Hba.
  apply Is_true_true in Hab. apply Is_true_true in Hba.
  apply String.leb_antisym; assumption.
Qed.

Lemma objectGet_entry (obj : list (string * Z)) (key : string) (v : Z) :
  NoDup (map fst obj) -> (key, v) ∈ obj -> objectGet obj key = v.
Proof.
  unfold objectGet.
  induction obj as [|[k w] obj IH]; intros Hnd Hin; [inversion Hin|].
  cbn [map fst] in Hnd. apply NoDup_cons in Hnd. destruct Hnd as [Hk Hnd].
  cbn [find fst]. apply elem_of_cons in Hin.
  case_bool_decide as Heq.
  - destruct Hin as [[= -> ->]|Hin]; [reflexivity|].
    exfalso. apply Hk. subst k.
    apply list_elem_of_fmap. exists (key, v). split; [reflexivity | exact Hin].
  - destruct Hin as [[= -> ->]|Hin]; [contradiction|].
    apply IH; assumption.
Qed.

Lemma objectGet_keys (obj : list (string * Z)) :
  NoDup (map fst obj) -> map (objectGet obj) (map fst obj) = map snd obj.
Proof.
  intros Hnd. rewrite map_map. apply map_ext_in. intros [k v] Hin.
  apply objectGet_entry; [exact Hnd | apply list_elem_of_In; exact Hin].
Qed.

(** X16.  [sortedV2CostParams] does not depend on the order in which the
    cost model lists its parameters: two cost models with the same
    entries give the same list.  The list holds every value of the model
    once. *)
Theorem sortedV2CostParams_order_independent
    (helper1 helper2 : NetworkParamsHelper.t)
    (model1 model2 : list (string * Z)) :
  costModels_PlutusScriptV2 (NetworkParamsHelper.params helper1)
    = Some model1 ->
  costModels_PlutusScriptV2 (NetworkParamsHelper.params helper2)
    = Some model2 ->
  NoDup (map fst model1) ->
  model1 ≡ₚ model2 ->
  exists costs,
    sortedV2CostParams helper1 = Ok costs
    /\ sortedV2CostParams helper2 = Ok costs
    /\ costs ≡ₚ map snd model1.
Proof.
  intros H1 H2 Hnd Hperm.
  unfold sortedV2CostParams. rewrite H1, H2. cbn [expectSome bind].
  assert (Hkeys : map fst model1 ≡ₚ map fst model2)
    by (apply fmap_Permutation; exact Hperm).
  assert (Hnd2 : NoDup (map fst model2)) by (rewrite <- Hkeys; exact Hnd).
  assert (Hsorted : merge_sort keyLe (map fst model2)
                    = merge_sort keyLe (map fst model1)).
  { apply (Sorted_unique keyLe (Transitive0:=keyLe_trans)
             (AntiSymm0:=keyLe_antisym)).
    - apply (Sorted_merge_sort keyLe).
    - apply (Sorted_merge_sort keyLe).
    - rewrite !merge_sort_Permutation. symmetry. exact Hkeys. }
  eexists. split; [reflexivity|]. split.
  - rewrite Hsorted. f_equal. apply map_ext_in. intros key Hin.
    apply list_elem_of_In in Hin.
    rewrite merge_sort_Permutation in Hin.
    apply list_elem_of_fmap in Hin. destruct Hin as ([k v] & -> & Hin).
    cbn [fst].
    rewrite (objectGet_entry model1 k v Hnd Hin).
    apply objectGet_entry; [exact Hnd2 | rewrite <- Hperm; exact Hin].
  - rewrite <- (objectGet_keys model1 Hnd).
    apply fmap_Permutation, merge_sort_Permutation.
Qed.

End SortedCostParams.

(** ** TxOutput as script data *)

Section TxOutputDataProperties.
Context `{ToUplcData Address, FromUplcData Address}.
Context `{ToUplcData Value.t, FromUplcData Value.t}.
Context `{ToUplcData TxOutputDatum, FromUplcData (option TxOutputDatum)}.

Lemma TxOutput_fromUplcData_fields (a v d r : UplcData) :
  TxOutput_fromUplcData (ConstrData 0 [a; v; d; r])
  = andThen (fromUplcData a) (fun a' =>
    andThen (fromUplcData v) (fun v' =>
    andThen (fromUplcData d) (fun d' =>
    Passed (mkTxOutput a' v' d' None)))).
Proof. reflexivity. Qed.

(** X20.  The script-data form of an output does not keep its reference
    script.  When address, value and datum of the output are read back from
    their own script data, [TxOutput.fromUplcData] reads what
    [toUplcData] wrote as the same output without reference script, so the
    round trip gives the output back exactly when it had none.  What the
    fourth field holds is never read, and an output read from script data
    never has a reference script. *)
Theorem TxOutput_uplcData_roundtrip (o : TxOutput) :
  fromUplcData (toUplcData (address o)) = Passed (address o) ->
  fromUplcData (toUplcData (value o)) = Passed (value o) ->
  fromUplcData (match datum o with
                | Some d => toUplcData d
                | None => ConstrData 0 []
                end) = Passed (datum o) ->
  TxOutput_fromUplcData (TxOutput_toUplcData o)
    = Passed (mkTxOutput (address o) (value o) (datum o) None)
  /\ (TxOutput_fromUplcData (TxOutput_toUplcData o) = Passed o
      <-> refScript o = None)
  /\ (forall a v d r r',
        TxOutput_fromUplcData (ConstrData 0 [a; v; d; r])
        = TxOutput_fromUplcData (ConstrData 0 [a; v; d; r']))
  /\ (forall data o',
        TxOutput_fromUplcData data = Passed o' ->
        refScript o' = None
        /\ exists a v d r, data = ConstrData 0 [a; v; d; r]).
Proof.
  intros Ha Hv Hd.
  assert (Hrun : TxOutput_fromUplcData (TxOutput_toUplcData o)
                 = Passed (mkTxOutput (address o) (value o) (datum o) None)).
  { unfold TxOutput_toUplcData. rewrite TxOutput_fromUplcData_fields.
    rewrite Ha. cbn [andThen]. rewrite Hv. cbn [andThen].
    rewrite Hd. reflexivity. }
  split; [exact Hrun|]. split; [|split].
  - rewrite Hrun. split.
    + intros [= Heq]. rewrite <- Heq. reflexivity.
    + intros Hnone. destruct o as [a v d r]. cbn in Hnone |- *.
      rewrite Hnone. reflexivity.
  - intros a v d r r'. rewrite !TxOutput_fromUplcData_fields. reflexivity.
  - intros data o' Hread. unfold TxOutput_fromUplcData in Hread.
    destruct data as [tag fields|pairs|items|n|bs]; try discriminate.
    cbn [ConstrData_assert] in Hread.
    destruct (Z.eqb_spec tag 0) as [->|Hneq]; [|discriminate].
    cbn [negb] in Hread.
    destruct (Nat.eqb_spec (length fields) 4) as [Hlen|Hlen];
      [|discriminate].
    cbn [negb andThen] in Hread.
    destruct fields as [|a [|v [|d [|r [|x fields]]]]]; try discriminate.
    split; [|eexists _, _, _, _; reflexivity].
    unfold field in Hread. cbn [nth] in Hread.
    destruct (fromUplcData a) as [a'|e]; [|discriminate].
    cbn [andThen] in Hread.
    destruct (fromUplcData v) as [v'|e]; [|discriminate].
    cbn [andThen] in Hread.
    destruct (fromUplcData d) as [d'|e]; [|discriminate].
    cbn [andThen] in Hread. injection Hread as <-. reflexivity.
Qed.

End TxOutputDataProperties.

(** ** The transaction on the wire, for any codecs *)

Section TxWire.
Context {B W M : Type}.
Context `{ToCbor B, FromCbor B, ToCbor W, FromCbor W, ToCbor M, FromCbor M}.

Lemma tupleItem_reads {A} (d : Cbor.Parser A) (a : A) (n : Z)
    (s rest : bytes) :
  0 < n ->
  d s = Ok (a, rest) ->
  Cbor.tupleItem d (Cbor.DefFrame n) s = Ok ((a, Cbor.DefFrame (n - 1)), rest).
Proof.
  intros Hn Hd. unfold Cbor.tupleItem, Cbor.moreItems.
  destruct (Z.ltb_spec 0 n) as [_|]; [|lia].
  rewrite Hd. reflexivity.
Qed.

(** X17.  [Tx.fromCbor] reads what [Tx.toCbor(false)] writes, as far as the
    encodings of the parts go: when the decoders of body, witnesses and
    metadata read the encodings of the parts of this transaction back as
    parts with the same encodings (which need not be the same parts: the
    encoding of a body does not hold the outputs its inputs carry), the
    transaction comes back with these parts and with the flag set, whatever
    the flag of the encoded transaction was, and it is encoded to the same
    bytes again. *)
Theorem Tx_fromCbor_toCbor_bytes (tx : Tx_ B W M) (b' : B) (w' : W)
    (m' : option M) :
  readsBack (body tx) b' ->
  readsBack (witnesses tx) w' ->
  match metadata tx, m' with
  | Some m, Some m0 =>
      readsBack m m0 /\ forall rest, Cbor.isNull (toCbor m ++ rest) = false
  | None, None => True
  | _, _ => False
  end ->
  Tx_fromCbor (Tx_toCbor false tx) = Ok (mkTx b' w' true m')
  /\ Tx_toCbor false (mkTx b' w' true m') = Tx_toCbor false tx
  /\ Tx_toCbor true (mkTx b' w' true m') = Tx_toCbor true tx.
Proof.
  intros [Hb Hb'] [Hw Hw'] Hm.
  assert (Hmeta : (forall rest,
                     Cbor.decodeNullOption fromCbor
                       (Cbor.encodeNullOption (toCbor <$> metadata tx) ++ rest)
                     = Ok (m', rest))
                  /\ (toCbor <$> m') = (toCbor <$> metadata tx)).
  { destruct (metadata tx) as [m|], m' as [m0|]; try contradiction.
    - destruct Hm as [[Hread Henc] Hnull]. split.
      + intros rest. unfold Cbor.decodeNullOption. cbn [fmap option_fmap
          option_map Cbor.encodeNullOption].
        rewrite Hnull, Hread. reflexivity.
      + cbn. rewrite Henc. reflexivity.
    - split; [intros rest; reflexivity | reflexivity]. }
  destruct Hmeta as [Hmread Hmenc].
  split; [|split].
  - unfold Tx_fromCbor, Tx_toCbor, Cbor.decodeTuple4, Cbor.encodeTuple,
      Cbor.encodeDefList.
    cbn [length concat].
    rewrite decodeListStart_four. cbn [bind].
    rewrite (tupleItem_reads _ b' 4 _ _ ltac:(lia) (Hb _)). cbn [bind].
    rewrite (tupleItem_reads _ w' (4 - 1) _ _ ltac:(lia) (Hw _)). cbn [bind].
    rewrite tupleItem_bool by lia. cbn [bind].
    rewrite (tupleItem_reads _ m' (4 - 1 - 1 - 1) _ _ ltac:(lia) (Hmread _)).
    cbn [bind]. reflexivity.
  - unfold Tx_toCbor. cbn [body witnesses metadata].
    rewrite Hb', Hw', Hmenc. reflexivity.
  - unfold Tx_toCbor. cbn [body witnesses metadata].
    rewrite Hb', Hw', Hmenc. reflexivity.
Qed.

(** X18.  The encoding for the fee calculation, a 3-tuple without the flag,
    is for measuring only: [Tx.fromCbor] refuses it for every transaction,
    with or without metadata, whatever the encoders and decoders of body,
    witnesses and metadata are: a list of three items has no fourth. *)
Theorem Tx_fromCbor_rejects_fee_encoding (tx : Tx_ B W M) :
  isOk (Tx_fromCbor (B:=B) (W:=W) (M:=M) (Tx_toCbor true tx)) = false.
Proof.
  unfold Tx_fromCbor, Tx_toCbor, Cbor.decodeTuple4, Cbor.encodeTuple,
    Cbor.encodeDefList.
  cbn [length concat].
  change (Cbor.decodeListStart (Cbor.encodeDefHead 4 (Z.of_nat 3) ++ ?x))
    with (Ok (Cbor.DefFrame 3, x) : result (Cbor.ListFrame * bytes)).
  cbn [bind].
  unfold Cbor.tupleItem at 1. cbn [Cbor.moreItems].
  change (0 <? 3) with true. cbv iota.
  destruct (fromCbor _) as [[b r1]|e]; [|reflexivity]. cbn [bind].
  unfold Cbor.tupleItem at 1. cbn [Cbor.moreItems].
  change (0 <? 3 - 1) with true. cbv iota.
  destruct (fromCbor _) as [[w r2]|e]; [|reflexivity]. cbn [bind].
  unfold Cbor.tupleItem at 1. cbn [Cbor.moreItems].
  change (0 <? 3 - 1 - 1) with true. cbv iota.
  destruct (Cbor.decodeBool _) as [[flag r3]|e]; [|reflexivity].
  cbn [bind]. reflexivity.
Qed.

End TxWire.

(** ** The further properties on the sample data *)

Section FurtherWitnesses.
Existing Instance stubCollaborators.
Existing Instance stubBodyToCbor.
Existing Instance stubWitnessesToCbor.
Existing Instance stubRedeemerToCbor.
Existing Instance stubAddressToCbor.
Existing Instance stubAssetsToCbor.
Existing Instance stubDatumToCbor.
Existing Instance stubMetadataToCbor.
Existing Instance stubMoreCollaborators.
Existing Instance stubAddressToUplcData.
Existing Instance stubAddressFromUplcData.
Existing Instance stubValueToUplcData.
Existing Instance stubValueFromUplcData.
Existing Instance stubDatumToUplcData.
Existing Instance stubDatumFromUplcData.
Existing Instance stubBodyFromCbor.
Existing Instance stubWitnessesFromCbor.
Existing Instance stubMetadataFromCbor.

Example sample_validateSignatures :
  validateSignatures signedTx = Passed signedTx
  /\ validateSignatures sampleTx
     = Failed (SignerSignatureMissing
                 "01010101010101010101010101010101010101010101010101010101").
Proof. split; vm_compute; reflexivity. Qed.

Example sample_validateSize :
  validateSize sampleHelper sampleTx = Passed tt
  /\ fst (calcSize false signedTx) = fst (calcSize true signedTx) + 1.
Proof. split; vm_compute; reflexivity. Qed.

Example sample_validateTotalExBudget :
  validateTotalExBudget sampleHelper true (smartTx Spending) = (Passed tt, []).
Proof. vm_compute. reflexivity. Qed.

Example sample_validateOutputs :
  validateOutputs (mkConfig false) sampleHelper true sampleTx = Passed tt.
Proof. vm_compute. reflexivity. Qed.

Example sample_validateInputsOrder :
  validateInputsOrder sampleTx = Passed tt
  /\ validateOrder Z.sub InputsNotSorted [1; 2; 2] = Failed InputsNotSorted.
Proof. split; vm_compute; reflexivity. Qed.

Example sample_validateMetadata :
  validateMetadata sampleTx = Passed tt
  /\ validateMetadata (mkTx sampleBody sampleWitnesses true (Some [1; 2]))
     = Failed MetadataHashNotIncluded.
Proof. split; vm_compute; reflexivity. Qed.

Example sample_slots :
  SlotHelper.slotToTime sampleSlotParams 4492801 = Ok 1596059092000
  /\ SlotHelper.timeToSlot sampleSlotParams 1596059092499 = Passed 4492801
  /\ SlotHelper.timeToSlot sampleSlotParams 1596059092500 = Passed 4492802
  /\ SlotHelper.timeToSlot sampleSlotParams 1596059090500 = Passed 4492800.
Proof. repeat split; vm_compute; reflexivity. Qed.

Example sample_reordered_cost_params :
  sortedV2CostParams reorderedHelper = Ok [205665; 812; 57996947].
Proof. vm_compute. reflexivity. Qed.

Example sample_toHex :
  PubKeyHash_toHex sampleHash
  = "07070707070707070707070707070707070707070707070707070707"%string.
Proof. vm_compute. reflexivity. Qed.

Example sample_ValidatorHash :
  ValidatorHash.fromUplcData (ByteArrayData (replicate 28 0))
    = Passed ValidatorHash.dummy
  /\ ValidatorHash.fromUplcData (ByteArrayData [1; 2])
     = Failed (BadValidatorHashLength 2)
  /\ ValidatorHash.compare ValidatorHash.dummy ValidatorHash.dummy = 0.
Proof. repeat split; vm_compute; reflexivity. Qed.


(** The sample output without lovelace is raised to its deposit. *)
Lemma correctLovelace_result_witness :
  correctLovelace 5 (mkConfig false) sampleHelper None (sampleOutput 0)
    = Some (Ok (sampleOutput 849070))
  /\ holdsDeposit (mkConfig false) sampleHelper (sampleOutput 849070)
  /\ validateOutput (mkConfig false) sampleHelper false (sampleOutput 849070)
     = Passed tt.
Proof.
  assert (Hrun : correctLovelace 5 (mkConfig false) sampleHelper None
                   (sampleOutput 0) = Some (Ok (sampleOutput 849070)))
    by (vm_compute; reflexivity).
  split; [exact Hrun|].
  destruct (correctLovelace_result (mkConfig false) sampleHelper None 5
              (sampleOutput 0) (sampleOutput 849070) Hrun) as (H1 & H2 & _).
  split; [exact H1 | exact H2].
Defined.

(** The sample output without lovelace, with an updater that takes the
    lovelace away again. *)
Lemma correctLovelace_hostile_updater_witness :
  utxoCostPerByte (NetworkParamsHelper.params sampleHelper) = Some 4310
  /\ 0 < 4310
  /\ calcDeposit (mkConfig false) sampleHelper (sampleOutput 0) = Ok 831830
  /\ Value.lovelace (value (sampleOutput 0)) < 831830
  /\ correctLovelace 7 (mkConfig false) sampleHelper (Some (setLovelace 0))
       (sampleOutput 0) = None.
Proof.
  assert (Hd : calcDeposit (mkConfig false) sampleHelper (sampleOutput 0)
               = Ok 831830) by (vm_compute; reflexivity).
  assert (Hlt : Value.lovelace (value (sampleOutput 0)) < 831830)
    by (vm_compute; reflexivity).
  split; [reflexivity|]. split; [lia|]. split; [exact Hd|].
  split; [exact Hlt|].
  apply (correctLovelace_hostile_updater (mkConfig false) sampleHelper 4310
           (sampleOutput 0) 831830 eq_refl ltac:(lia) Hd Hlt).
Defined.

(** Twenty-eight bytes in one chunk are read as the sample hash, which
    is encoded to other bytes. *)
Lemma PubKeyHash_fromCbor_spec_witness :
  PubKeyHash.fromCbor
    (95 :: concat (map Cbor.encodeBytes [replicate 28 7]) ++ [255])
  = Ok (sampleHash, [])
  /\ PubKeyHash.toCbor sampleHash
     <> 95 :: concat (map Cbor.encodeBytes [replicate 28 7]) ++ [255].
Proof.
  destruct PubKeyHash_fromCbor_spec as (_ & _ & Hchunked).
  assert (Hsmall : Forall (fun c : bytes => Z.of_nat (length c) < 2 ^ 64)
                     [replicate 28 7]).
  { constructor; [vm_compute; reflexivity | constructor]. }
  specialize (Hchunked [replicate 28 7] [] Hsmall). cbv zeta in Hchunked.
  destruct (PubKeyHash.fromCbor _) as [[h rest']|e].
  - destruct Hchunked as (_ & Hb & -> & Hne).
    assert (Hh : h = sampleHash) by (apply PubKeyHash_eq; exact Hb).
    subst h. split; [reflexivity|].
    rewrite app_nil_r in Hne. exact Hne.
  - destruct Hchunked as [Hne _]. exfalso. apply Hne. reflexivity.
Defined.

(** The sample hash and the dummy hash have different hexadecimal
    forms. *)
Lemma PubKeyHash_toHex_inj_witness :
  isBytes (PubKeyHash.bytes_ sampleHash)
  /\ isBytes (PubKeyHash.bytes_ PubKeyHash.dummy)
  /\ String.length (PubKeyHash_toHex sampleHash) = 56%nat
  /\ (PubKeyHash_toHex sampleHash = PubKeyHash_toHex PubKeyHash.dummy
      <-> sampleHash = PubKeyHash.dummy).
Proof.
  assert (H1 : isBytes (PubKeyHash.bytes_ sampleHash))
    by (apply Forall_replicate; lia).
  assert (H2 : isBytes (PubKeyHash.bytes_ PubKeyHash.dummy))
    by (apply Forall_replicate; lia).
  split; [exact H1|]. split; [exact H2|].
  exact (PubKeyHash_toHex_inj sampleHash PubKeyHash.dummy H1 H2).
Defined.


(** The sample cost model in two orders. *)
Lemma sortedV2CostParams_order_independent_witness :
  exists costs,
    sortedV2CostParams sampleHelper = Ok costs
    /\ sortedV2CostParams reorderedHelper = Ok costs
    /\ costs ≡ₚ [57996947; 205665; 812].
Proof.
  apply (sortedV2CostParams_order_independent sampleHelper reorderedHelper
           [("verifyEd25519Signature-cpu", 57996947);
            ("addInteger-cpu", 205665); ("addInteger-memory", 812)]
           [("addInteger-memory", 812);
            ("verifyEd25519Signature-cpu", 57996947);
            ("addInteger-cpu", 205665)]).
  - reflexivity.
  - reflexivity.
  - apply (bool_decide_unpack _). vm_compute. exact I.
  - exact (Permutation_app_comm
             [("verifyEd25519Signature-cpu", 57996947);
              ("addInteger-cpu", 205665)]
             [("addInteger-memory", 812)]).
Defined.

(** Twenty-eight bytes in two chunks are read as a validator hash. *)
Lemma ValidatorHash_fromCbor_spec_witness :
  exists h,
    ValidatorHash.fromCbor
      (95 :: concat (map Cbor.encodeBytes [replicate 20 7; replicate 8 7])
         ++ [255])
    = Passed h
    /\ ValidatorHash.bytes_ h = replicate 28 7.
Proof.
  destruct ValidatorHash_fromCbor_spec as (_ & _ & Hchunked & _).
  assert (Hsmall : Forall (fun c : bytes => Z.of_nat (length c) < 2 ^ 64)
                     [replicate 20 7; replicate 8 7]).
  { repeat constructor; vm_compute; reflexivity. }
  specialize (Hchunked [replicate 20 7; replicate 8 7] [] Hsmall).
  destruct (ValidatorHash.fromCbor _) as [h|e].
  - exists h. destruct Hchunked as (_ & Hb & _).
    split; [reflexivity | exact Hb].
  - destruct Hchunked as [Hne _]. exfalso. apply Hne. reflexivity.
Defined.

(** The sample transaction with metadata: the body comes back without its
    inputs, and the bytes are the same. *)
Lemma Tx_fromCbor_toCbor_bytes_witness :
  exists b' : TxBody,
    inputs b' = []
    /\ inputs (body metadataTx) <> []
    /\ Tx_fromCbor (Tx_toCbor false metadataTx)
       = Ok (mkTx b' sampleWitnesses true (Some [1; 2]))
    /\ Tx_toCbor false (mkTx b' sampleWitnesses true (Some [1; 2]))
       = Tx_toCbor false metadataTx.
Proof.
  exists (mkTxBody [] [] [] 2000000 ∅ [] [] [] None None None []).
  split; [reflexivity|]. split; [discriminate|].
  destruct (Tx_fromCbor_toCbor_bytes metadataTx
              (mkTxBody [] [] [] 2000000 ∅ [] [] [] None None None [])
              sampleWitnesses (Some [1; 2]))
    as (Hread & Hbytes & _).
  - split; [intros rest; reflexivity | reflexivity].
  - split; [intros rest; reflexivity | reflexivity].
  - split; [|intros rest; reflexivity].
    split; [|reflexivity].
    intros rest.
    exact (decodeBytes_encodeBytes [1; 2] rest ltac:(vm_compute; reflexivity)).
  - split; [exact Hread | exact Hbytes].
Defined.


(** The sample output with a reference script loses it on the way. *)
Lemma TxOutput_uplcData_roundtrip_witness :
  TxOutput_fromUplcData (TxOutput_toUplcData scriptedOutput)
    = Passed (sampleOutput 3000000)
  /\ TxOutput_fromUplcData (TxOutput_toUplcData scriptedOutput)
     <> Passed scriptedOutput.
Proof.
  destruct (TxOutput_uplcData_roundtrip scriptedOutput
              eq_refl eq_refl eq_refl) as (Hrun & Hiff & _).
  split; [exact Hrun|].
  intros Heq. apply Hiff in Heq. discriminate.
Defined.

End FurtherWitnesses.
